(** * Dual Marching Cubes mesher ([include/dmc/dualmc.hpp])

    A shallow embedding of [dualmc::Mesher<T>] and the properties of its
    surface extraction.  Signed 32-bit quantities ([int32_t] coordinates,
    cube codes, linearized cell ids) are integers of [Z]; signed overflow
    is undefined behaviour in C++, so the embedding describes the runs in
    which none occurs.  [noOverflow] names the dimensions of these runs;
    on them the 32-bit computations of the ids and of the size assertion
    ([gA_int32], [buildAsserts_int32]) give the values of [gA] and of
    [buildAsserts], and the properties that rest on the range of the ids
    are stated for them.  The unsigned 32-bit vertex indices carry their
    wrap-around ([u32]).  [float] is IEEE-754 binary32, computed with the
    parametric operations of [SpecFloat] at precision 24.  The volume is
    a [std::span]: a length and unchecked reads; [Build_reads_span] shows
    that an extraction reads inside the span only. *)

From Stdlib Require Import ZArith Bool List Lia SpecFloat.
From stdpp Require Import base decidable countable list gmap fin_maps.

Local Open Scope Z_scope.

(** ** Numeric types *)

Module F32.
(** [float]: binary32, i.e. 24 bits of mantissa, infinities at 2^128. *)
Definition prec : Z := 24.
Definition emax : Z := 128.
Definition float : Type := spec_float.

Definition add : float -> float -> float := SFadd prec emax.
Definition sub : float -> float -> float := SFsub prec emax.
Definition mul : float -> float -> float := SFmul prec emax.
Definition div : float -> float -> float := SFdiv prec emax.
(** conversion of an integer, round to nearest even *)
Definition of_Z (n : Z) : float := binary_normalize prec emax n 0 false.
Definition zero : float := S754_zero false.
Definition one : float := of_Z 1.
Definition half : float := binary_normalize prec emax 1 (-1) false.
(** [a >= b] and [a < b]; both are false when an operand is NaN *)
Definition geb (a b : float) : bool := SFleb b a.
Definition ltb (a b : float) : bool := SFltb a b.
End F32.

Abbreviation float := F32.float.

(** [static_cast<uint32_t>] of a size *)
Definition u32 (n : Z) : Z := n mod 2 ^ 32.
(** [uint8_t(code)] *)
Definition u8 (n : Z) : Z := n mod 2 ^ 8.

(** The template parameter [T] ([VolumeDataType]): an arithmetic type with
    the two comparisons the mesher uses and the cast to [float].  The law
    holds of every C++ arithmetic type: [a < b] excludes [a >= b]. *)
Class VolumeDataType (T : Type) := {
  ge : T -> T -> bool;
  lt : T -> T -> bool;
  to_float : T -> float;
  lt_not_ge : forall a b : T, lt a b = true -> ge a b = false
}.

(** [std::array<int32_t, 3>] and [std::array<float, 3>] *)
Record int3 := mkInt3 { i3x : Z; i3y : Z; i3z : Z }.
Record float3 := mkFloat3 { f3x : float; f3y : float; f3z : float }.

(** [a[i]] and [a[i] = v] for an [int3]; indices outside 0..2 are out of
    the array in C++, the embedding reads 0 and writes nothing there. *)
Definition at3 (a : int3) (i : Z) : Z :=
  match i with
  | 0 => i3x a
  | 1 => i3y a
  | 2 => i3z a
  | _ => 0
  end.

Definition set3 (a : int3) (i v : Z) : int3 :=
  match i with
  | 0 => mkInt3 v (i3y a) (i3z a)
  | 1 => mkInt3 (i3x a) v (i3z a)
  | 2 => mkInt3 (i3x a) (i3y a) v
  | _ => a
  end.

Record Vertex := mkVertex { position : float3 }.

Inductive Topology := Triangles | Quads.

Record Mesh := mkMesh {
  vertices : list Vertex;
  indices : list Z
}.

(** [std::span<T>]: a length and unchecked element access.  Reading at an
    offset outside [0, span_size) is undefined in C++; [span_at] then
    stands for whatever the memory holds. *)
Record span (T : Type) := mkSpan {
  span_size : Z;
  span_at : Z -> T
}.
Arguments mkSpan {T} _ _.
Arguments span_size {T} _.
Arguments span_at {T} _ _.

Definition span_of_list {T : Type} (d : T) (l : list T) : span T :=
  mkSpan (Z.of_nat (length l)) (fun i => nth (Z.to_nat i) l d).

(** ** Dual point keys *)

Record DualPointKey := mkKey {
  linearizedCellID : Z;
  pointCode : Z
}.

#[global] Instance DualPointKey_eq_dec : EqDecision DualPointKey.
Proof. solve_decision. Defined.

#[global] Instance DualPointKey_countable : Countable DualPointKey.
Proof.
  apply (inj_countable' (fun k => (linearizedCellID k, pointCode k))
                        (fun p => mkKey (fst p) (snd p))).
  intros []; reflexivity.
Defined.

(** ** Static lookup tables *)

Definition EDGE0 : Z := 1.
Definition EDGE1 : Z := Z.shiftl 1 1.
Definition EDGE2 : Z := Z.shiftl 1 2.
Definition EDGE3 : Z := Z.shiftl 1 3.
Definition EDGE4 : Z := Z.shiftl 1 4.
Definition EDGE5 : Z := Z.shiftl 1 5.
Definition EDGE6 : Z := Z.shiftl 1 6.
Definition EDGE7 : Z := Z.shiftl 1 7.
Definition EDGE8 : Z := Z.shiftl 1 8.
Definition EDGE9 : Z := Z.shiftl 1 9.
Definition EDGE10 : Z := Z.shiftl 1 10.
Definition EDGE11 : Z := Z.shiftl 1 11.

Local Notation "a .| b" := (Z.lor a b) (at level 50, left associativity).

(** Dual Marching Cubes table: the edge masks of the up to four faces of
    each of the 256 marching cubes cases. *)
Definition dualPointsList : list (list Z) :=
  Eval cbv in [
    [0; 0; 0; 0]; (* 0 *)
    [EDGE0 .| EDGE3 .| EDGE8; 0; 0; 0]; (* 1 *)
    [EDGE0 .| EDGE1 .| EDGE9; 0; 0; 0]; (* 2 *)
    [EDGE1 .| EDGE3 .| EDGE8 .| EDGE9; 0; 0; 0]; (* 3 *)
    [EDGE4 .| EDGE7 .| EDGE8; 0; 0; 0]; (* 4 *)
    [EDGE0 .| EDGE3 .| EDGE4 .| EDGE7; 0; 0; 0]; (* 5 *)
    [EDGE0 .| EDGE1 .| EDGE9; EDGE4 .| EDGE7 .| EDGE8; 0; 0]; (* 6 *)
    [EDGE1 .| EDGE3 .| EDGE4 .| EDGE7 .| EDGE9; 0; 0; 0]; (* 7 *)
    [EDGE4 .| EDGE5 .| EDGE9; 0; 0; 0]; (* 8 *)
    [EDGE0 .| EDGE3 .| EDGE8; EDGE4 .| EDGE5 .| EDGE9; 0; 0]; (* 9 *)
    [EDGE0 .| EDGE1 .| EDGE4 .| EDGE5; 0; 0; 0]; (* 10 *)
    [EDGE1 .| EDGE3 .| EDGE4 .| EDGE5 .| EDGE8; 0; 0; 0]; (* 11 *)
    [EDGE5 .| EDGE7 .| EDGE8 .| EDGE9; 0; 0; 0]; (* 12 *)
    [EDGE0 .| EDGE3 .| EDGE5 .| EDGE7 .| EDGE9; 0; 0; 0]; (* 13 *)
    [EDGE0 .| EDGE1 .| EDGE5 .| EDGE7 .| EDGE8; 0; 0; 0]; (* 14 *)
    [EDGE1 .| EDGE3 .| EDGE5 .| EDGE7; 0; 0; 0]; (* 15 *)
    [EDGE2 .| EDGE3 .| EDGE11; 0; 0; 0]; (* 16 *)
    [EDGE0 .| EDGE2 .| EDGE8 .| EDGE11; 0; 0; 0]; (* 17 *)
    [EDGE0 .| EDGE1 .| EDGE9; EDGE2 .| EDGE3 .| EDGE11; 0; 0]; (* 18 *)
    [EDGE1 .| EDGE2 .| EDGE8 .| EDGE9 .| EDGE11; 0; 0; 0]; (* 19 *)
    [EDGE4 .| EDGE7 .| EDGE8; EDGE2 .| EDGE3 .| EDGE11; 0; 0]; (* 20 *)
    [EDGE0 .| EDGE2 .| EDGE4 .| EDGE7 .| EDGE11; 0; 0; 0]; (* 21 *)
    [EDGE0 .| EDGE1 .| EDGE9; EDGE4 .| EDGE7 .| EDGE8; EDGE2 .| EDGE3 .| EDGE11; 0]; (* 22 *)
    [EDGE1 .| EDGE2 .| EDGE4 .| EDGE7 .| EDGE9 .| EDGE11; 0; 0; 0]; (* 23 *)
    [EDGE4 .| EDGE5 .| EDGE9; EDGE2 .| EDGE3 .| EDGE11; 0; 0]; (* 24 *)
    [EDGE0 .| EDGE2 .| EDGE8 .| EDGE11; EDGE4 .| EDGE5 .| EDGE9; 0; 0]; (* 25 *)
    [EDGE0 .| EDGE1 .| EDGE4 .| EDGE5; EDGE2 .| EDGE3 .| EDGE11; 0; 0]; (* 26 *)
    [EDGE1 .| EDGE2 .| EDGE4 .| EDGE5 .| EDGE8 .| EDGE11; 0; 0; 0]; (* 27 *)
    [EDGE5 .| EDGE7 .| EDGE8 .| EDGE9; EDGE2 .| EDGE3 .| EDGE11; 0; 0]; (* 28 *)
    [EDGE0 .| EDGE2 .| EDGE5 .| EDGE7 .| EDGE9 .| EDGE11; 0; 0; 0]; (* 29 *)
    [EDGE0 .| EDGE1 .| EDGE5 .| EDGE7 .| EDGE8; EDGE2 .| EDGE3 .| EDGE11; 0; 0]; (* 30 *)
    [EDGE1 .| EDGE2 .| EDGE5 .| EDGE7 .| EDGE11; 0; 0; 0]; (* 31 *)
    [EDGE1 .| EDGE2 .| EDGE10; 0; 0; 0]; (* 32 *)
    [EDGE0 .| EDGE3 .| EDGE8; EDGE1 .| EDGE2 .| EDGE10; 0; 0]; (* 33 *)
    [EDGE0 .| EDGE2 .| EDGE9 .| EDGE10; 0; 0; 0]; (* 34 *)
    [EDGE2 .| EDGE3 .| EDGE8 .| EDGE9 .| EDGE10; 0; 0; 0]; (* 35 *)
    [EDGE4 .| EDGE7 .| EDGE8; EDGE1 .| EDGE2 .| EDGE10; 0; 0]; (* 36 *)
    [EDGE0 .| EDGE3 .| EDGE4 .| EDGE7; EDGE1 .| EDGE2 .| EDGE10; 0; 0]; (* 37 *)
    [EDGE0 .| EDGE2 .| EDGE9 .| EDGE10; EDGE4 .| EDGE7 .| EDGE8; 0; 0]; (* 38 *)
    [EDGE2 .| EDGE3 .| EDGE4 .| EDGE7 .| EDGE9 .| EDGE10; 0; 0; 0]; (* 39 *)
    [EDGE4 .| EDGE5 .| EDGE9; EDGE1 .| EDGE2 .| EDGE10; 0; 0]; (* 40 *)
    [EDGE0 .| EDGE3 .| EDGE8; EDGE4 .| EDGE5 .| EDGE9; EDGE1 .| EDGE2 .| EDGE10; 0]; (* 41 *)
    [EDGE0 .| EDGE2 .| EDGE4 .| EDGE5 .| EDGE10; 0; 0; 0]; (* 42 *)
    [EDGE2 .| EDGE3 .| EDGE4 .| EDGE5 .| EDGE8 .| EDGE10; 0; 0; 0]; (* 43 *)
    [EDGE5 .| EDGE7 .| EDGE8 .| EDGE9; EDGE1 .| EDGE2 .| EDGE10; 0; 0]; (* 44 *)
    [EDGE0 .| EDGE3 .| EDGE5 .| EDGE7 .| EDGE9; EDGE1 .| EDGE2 .| EDGE10; 0; 0]; (* 45 *)
    [EDGE0 .| EDGE2 .| EDGE5 .| EDGE7 .| EDGE8 .| EDGE10; 0; 0; 0]; (* 46 *)
    [EDGE2 .| EDGE3 .| EDGE5 .| EDGE7 .| EDGE10; 0; 0; 0]; (* 47 *)
    [EDGE1 .| EDGE3 .| EDGE10 .| EDGE11; 0; 0; 0]; (* 48 *)
    [EDGE0 .| EDGE1 .| EDGE8 .| EDGE10 .| EDGE11; 0; 0; 0]; (* 49 *)
    [EDGE0 .| EDGE3 .| EDGE9 .| EDGE10 .| EDGE11; 0; 0; 0]; (* 50 *)
    [EDGE8 .| EDGE9 .| EDGE10 .| EDGE11; 0; 0; 0]; (* 51 *)
    [EDGE4 .| EDGE7 .| EDGE8; EDGE1 .| EDGE3 .| EDGE10 .| EDGE11; 0; 0]; (* 52 *)
    [EDGE0 .| EDGE1 .| EDGE4 .| EDGE7 .| EDGE10 .| EDGE11; 0; 0; 0]; (* 53 *)
    [EDGE0 .| EDGE3 .| EDGE9 .| EDGE10 .| EDGE11; EDGE4 .| EDGE7 .| EDGE8; 0; 0]; (* 54 *)
    [EDGE4 .| EDGE7 .| EDGE9 .| EDGE10 .| EDGE11; 0; 0; 0]; (* 55 *)
    [EDGE4 .| EDGE5 .| EDGE9; EDGE1 .| EDGE3 .| EDGE10 .| EDGE11; 0; 0]; (* 56 *)
    [EDGE0 .| EDGE1 .| EDGE8 .| EDGE10 .| EDGE11; EDGE4 .| EDGE5 .| EDGE9; 0; 0]; (* 57 *)
    [EDGE0 .| EDGE3 .| EDGE4 .| EDGE5 .| EDGE10 .| EDGE11; 0; 0; 0]; (* 58 *)
    [EDGE4 .| EDGE5 .| EDGE8 .| EDGE10 .| EDGE11; 0; 0; 0]; (* 59 *)
    [EDGE5 .| EDGE7 .| EDGE8 .| EDGE9; EDGE1 .| EDGE3 .| EDGE10 .| EDGE11; 0; 0]; (* 60 *)
    [EDGE0 .| EDGE1 .| EDGE5 .| EDGE7 .| EDGE9 .| EDGE10 .| EDGE11; 0; 0; 0]; (* 61 *)
    [EDGE0 .| EDGE3 .| EDGE5 .| EDGE7 .| EDGE8 .| EDGE10 .| EDGE11; 0; 0; 0]; (* 62 *)
    [EDGE5 .| EDGE7 .| EDGE10 .| EDGE11; 0; 0; 0]; (* 63 *)
    [EDGE6 .| EDGE7 .| EDGE11; 0; 0; 0]; (* 64 *)
    [EDGE0 .| EDGE3 .| EDGE8; EDGE6 .| EDGE7 .| EDGE11; 0; 0]; (* 65 *)
    [EDGE0 .| EDGE1 .| EDGE9; EDGE6 .| EDGE7 .| EDGE11; 0; 0]; (* 66 *)
    [EDGE1 .| EDGE3 .| EDGE8 .| EDGE9; EDGE6 .| EDGE7 .| EDGE11; 0; 0]; (* 67 *)
    [EDGE4 .| EDGE6 .| EDGE8 .| EDGE11; 0; 0; 0]; (* 68 *)
    [EDGE0 .| EDGE3 .| EDGE4 .| EDGE6 .| EDGE11; 0; 0; 0]; (* 69 *)
    [EDGE0 .| EDGE1 .| EDGE9; EDGE4 .| EDGE6 .| EDGE8 .| EDGE11; 0; 0]; (* 70 *)
    [EDGE1 .| EDGE3 .| EDGE4 .| EDGE6 .| EDGE9 .| EDGE11; 0; 0; 0]; (* 71 *)
    [EDGE4 .| EDGE5 .| EDGE9; EDGE6 .| EDGE7 .| EDGE11; 0; 0]; (* 72 *)
    [EDGE0 .| EDGE3 .| EDGE8; EDGE4 .| EDGE5 .| EDGE9; EDGE6 .| EDGE7 .| EDGE11; 0]; (* 73 *)
    [EDGE0 .| EDGE1 .| EDGE4 .| EDGE5; EDGE6 .| EDGE7 .| EDGE11; 0; 0]; (* 74 *)
    [EDGE1 .| EDGE3 .| EDGE4 .| EDGE5 .| EDGE8; EDGE6 .| EDGE7 .| EDGE11; 0; 0]; (* 75 *)
    [EDGE5 .| EDGE6 .| EDGE8 .| EDGE9 .| EDGE11; 0; 0; 0]; (* 76 *)
    [EDGE0 .| EDGE3 .| EDGE5 .| EDGE6 .| EDGE9 .| EDGE11; 0; 0; 0]; (* 77 *)
    [EDGE0 .| EDGE1 .| EDGE5 .| EDGE6 .| EDGE8 .| EDGE11; 0; 0; 0]; (* 78 *)
    [EDGE1 .| EDGE3 .| EDGE5 .| EDGE6 .| EDGE11; 0; 0; 0]; (* 79 *)
    [EDGE2 .| EDGE3 .| EDGE6 .| EDGE7; 0; 0; 0]; (* 80 *)
    [EDGE0 .| EDGE2 .| EDGE6 .| EDGE7 .| EDGE8; 0; 0; 0]; (* 81 *)
    [EDGE0 .| EDGE1 .| EDGE9; EDGE2 .| EDGE3 .| EDGE6 .| EDGE7; 0; 0]; (* 82 *)
    [EDGE1 .| EDGE2 .| EDGE6 .| EDGE7 .| EDGE8 .| EDGE9; 0; 0; 0]; (* 83 *)
    [EDGE2 .| EDGE3 .| EDGE4 .| EDGE6 .| EDGE8; 0; 0; 0]; (* 84 *)
    [EDGE0 .| EDGE2 .| EDGE4 .| EDGE6; 0; 0; 0]; (* 85 *)
    [EDGE0 .| EDGE1 .| EDGE9; EDGE2 .| EDGE3 .| EDGE4 .| EDGE6 .| EDGE8; 0; 0]; (* 86 *)
    [EDGE1 .| EDGE2 .| EDGE4 .| EDGE6 .| EDGE9; 0; 0; 0]; (* 87 *)
    [EDGE4 .| EDGE5 .| EDGE9; EDGE2 .| EDGE3 .| EDGE6 .| EDGE7; 0; 0]; (* 88 *)
    [EDGE0 .| EDGE2 .| EDGE6 .| EDGE7 .| EDGE8; EDGE4 .| EDGE5 .| EDGE9; 0; 0]; (* 89 *)
    [EDGE0 .| EDGE1 .| EDGE4 .| EDGE5; EDGE2 .| EDGE3 .| EDGE6 .| EDGE7; 0; 0]; (* 90 *)
    [EDGE1 .| EDGE2 .| EDGE4 .| EDGE5 .| EDGE6 .| EDGE7 .| EDGE8; 0; 0; 0]; (* 91 *)
    [EDGE2 .| EDGE3 .| EDGE5 .| EDGE6 .| EDGE8 .| EDGE9; 0; 0; 0]; (* 92 *)
    [EDGE0 .| EDGE2 .| EDGE5 .| EDGE6 .| EDGE9; 0; 0; 0]; (* 93 *)
    [EDGE0 .| EDGE1 .| EDGE2 .| EDGE3 .| EDGE5 .| EDGE6 .| EDGE8; 0; 0; 0]; (* 94 *)
    [EDGE1 .| EDGE2 .| EDGE5 .| EDGE6; 0; 0; 0]; (* 95 *)
    [EDGE1 .| EDGE2 .| EDGE10; EDGE6 .| EDGE7 .| EDGE11; 0; 0]; (* 96 *)
    [EDGE0 .| EDGE3 .| EDGE8; EDGE1 .| EDGE2 .| EDGE10; EDGE6 .| EDGE7 .| EDGE11; 0]; (* 97 *)
    [EDGE0 .| EDGE2 .| EDGE9 .| EDGE10; EDGE6 .| EDGE7 .| EDGE11; 0; 0]; (* 98 *)
    [EDGE2 .| EDGE3 .| EDGE8 .| EDGE9 .| EDGE10; EDGE6 .| EDGE7 .| EDGE11; 0; 0]; (* 99 *)
    [EDGE4 .| EDGE6 .| EDGE8 .| EDGE11; EDGE1 .| EDGE2 .| EDGE10; 0; 0]; (* 100 *)
    [EDGE0 .| EDGE3 .| EDGE4 .| EDGE6 .| EDGE11; EDGE1 .| EDGE2 .| EDGE10; 0; 0]; (* 101 *)
    [EDGE0 .| EDGE2 .| EDGE9 .| EDGE10; EDGE4 .| EDGE6 .| EDGE8 .| EDGE11; 0; 0]; (* 102 *)
    [EDGE2 .| EDGE3 .| EDGE4 .| EDGE6 .| EDGE9 .| EDGE10 .| EDGE11; 0; 0; 0]; (* 103 *)
    [EDGE4 .| EDGE5 .| EDGE9; EDGE1 .| EDGE2 .| EDGE10; EDGE6 .| EDGE7 .| EDGE11; 0]; (* 104 *)
    [EDGE0 .| EDGE3 .| EDGE8; EDGE4 .| EDGE5 .| EDGE9; EDGE1 .| EDGE2 .| EDGE10; EDGE6 .| EDGE7 .| EDGE11]; (* 105 *)
    [EDGE0 .| EDGE2 .| EDGE4 .| EDGE5 .| EDGE10; EDGE6 .| EDGE7 .| EDGE11; 0; 0]; (* 106 *)
    [EDGE2 .| EDGE3 .| EDGE4 .| EDGE5 .| EDGE8 .| EDGE10; EDGE6 .| EDGE7 .| EDGE11; 0; 0]; (* 107 *)
    [EDGE5 .| EDGE6 .| EDGE8 .| EDGE9 .| EDGE11; EDGE1 .| EDGE2 .| EDGE10; 0; 0]; (* 108 *)
    [EDGE0 .| EDGE3 .| EDGE5 .| EDGE6 .| EDGE9 .| EDGE11; EDGE1 .| EDGE2 .| EDGE10; 0; 0]; (* 109 *)
    [EDGE0 .| EDGE2 .| EDGE5 .| EDGE6 .| EDGE8 .| EDGE10 .| EDGE11; 0; 0; 0]; (* 110 *)
    [EDGE2 .| EDGE3 .| EDGE5 .| EDGE6 .| EDGE10 .| EDGE11; 0; 0; 0]; (* 111 *)
    [EDGE1 .| EDGE3 .| EDGE6 .| EDGE7 .| EDGE10; 0; 0; 0]; (* 112 *)
    [EDGE0 .| EDGE1 .| EDGE6 .| EDGE7 .| EDGE8 .| EDGE10; 0; 0; 0]; (* 113 *)
    [EDGE0 .| EDGE3 .| EDGE6 .| EDGE7 .| EDGE9 .| EDGE10; 0; 0; 0]; (* 114 *)
    [EDGE6 .| EDGE7 .| EDGE8 .| EDGE9 .| EDGE10; 0; 0; 0]; (* 115 *)
    [EDGE1 .| EDGE3 .| EDGE4 .| EDGE6 .| EDGE8 .| EDGE10; 0; 0; 0]; (* 116 *)
    [EDGE0 .| EDGE1 .| EDGE4 .| EDGE6 .| EDGE10; 0; 0; 0]; (* 117 *)
    [EDGE0 .| EDGE3 .| EDGE4 .| EDGE6 .| EDGE8 .| EDGE9 .| EDGE10; 0; 0; 0]; (* 118 *)
    [EDGE4 .| EDGE6 .| EDGE9 .| EDGE10; 0; 0; 0]; (* 119 *)
    [EDGE4 .| EDGE5 .| EDGE9; EDGE1 .| EDGE3 .| EDGE6 .| EDGE7 .| EDGE10; 0; 0]; (* 120 *)
    [EDGE0 .| EDGE1 .| EDGE6 .| EDGE7 .| EDGE8 .| EDGE10; EDGE4 .| EDGE5 .| EDGE9; 0; 0]; (* 121 *)
    [EDGE0 .| EDGE3 .| EDGE4 .| EDGE5 .| EDGE6 .| EDGE7 .| EDGE10; 0; 0; 0]; (* 122 *)
    [EDGE4 .| EDGE5 .| EDGE6 .| EDGE7 .| EDGE8 .| EDGE10; 0; 0; 0]; (* 123 *)
    [EDGE1 .| EDGE3 .| EDGE5 .| EDGE6 .| EDGE8 .| EDGE9 .| EDGE10; 0; 0; 0]; (* 124 *)
    [EDGE0 .| EDGE1 .| EDGE5 .| EDGE6 .| EDGE9 .| EDGE10; 0; 0; 0]; (* 125 *)
    [EDGE0 .| EDGE3 .| EDGE8; EDGE5 .| EDGE6 .| EDGE10; 0; 0]; (* 126 *)
    [EDGE5 .| EDGE6 .| EDGE10; 0; 0; 0]; (* 127 *)
    [EDGE5 .| EDGE6 .| EDGE10; 0; 0; 0]; (* 128 *)
    [EDGE0 .| EDGE3 .| EDGE8; EDGE5 .| EDGE6 .| EDGE10; 0; 0]; (* 129 *)
    [EDGE0 .| EDGE1 .| EDGE9; EDGE5 .| EDGE6 .| EDGE10; 0; 0]; (* 130 *)
    [EDGE1 .| EDGE3 .| EDGE8 .| EDGE9; EDGE5 .| EDGE6 .| EDGE10; 0; 0]; (* 131 *)
    [EDGE4 .| EDGE7 .| EDGE8; EDGE5 .| EDGE6 .| EDGE10; 0; 0]; (* 132 *)
    [EDGE0 .| EDGE3 .| EDGE4 .| EDGE7; EDGE5 .| EDGE6 .| EDGE10; 0; 0]; (* 133 *)
    [EDGE0 .| EDGE1 .| EDGE9; EDGE4 .| EDGE7 .| EDGE8; EDGE5 .| EDGE6 .| EDGE10; 0]; (* 134 *)
    [EDGE1 .| EDGE3 .| EDGE4 .| EDGE7 .| EDGE9; EDGE5 .| EDGE6 .| EDGE10; 0; 0]; (* 135 *)
    [EDGE4 .| EDGE6 .| EDGE9 .| EDGE10; 0; 0; 0]; (* 136 *)
    [EDGE0 .| EDGE3 .| EDGE8; EDGE4 .| EDGE6 .| EDGE9 .| EDGE10; 0; 0]; (* 137 *)
    [EDGE0 .| EDGE1 .| EDGE4 .| EDGE6 .| EDGE10; 0; 0; 0]; (* 138 *)
    [EDGE1 .| EDGE3 .| EDGE4 .| EDGE6 .| EDGE8 .| EDGE10; 0; 0; 0]; (* 139 *)
    [EDGE6 .| EDGE7 .| EDGE8 .| EDGE9 .| EDGE10; 0; 0; 0]; (* 140 *)
    [EDGE0 .| EDGE3 .| EDGE6 .| EDGE7 .| EDGE9 .| EDGE10; 0; 0; 0]; (* 141 *)
    [EDGE0 .| EDGE1 .| EDGE6 .| EDGE7 .| EDGE8 .| EDGE10; 0; 0; 0]; (* 142 *)
    [EDGE1 .| EDGE3 .| EDGE6 .| EDGE7 .| EDGE10; 0; 0; 0]; (* 143 *)
    [EDGE2 .| EDGE3 .| EDGE11; EDGE5 .| EDGE6 .| EDGE10; 0; 0]; (* 144 *)
    [EDGE0 .| EDGE2 .| EDGE8 .| EDGE11; EDGE5 .| EDGE6 .| EDGE10; 0; 0]; (* 145 *)
    [EDGE0 .| EDGE1 .| EDGE9; EDGE2 .| EDGE3 .| EDGE11; EDGE5 .| EDGE6 .| EDGE10; 0]; (* 146 *)
    [EDGE1 .| EDGE2 .| EDGE8 .| EDGE9 .| EDGE11; EDGE5 .| EDGE6 .| EDGE10; 0; 0]; (* 147 *)
    [EDGE4 .| EDGE7 .| EDGE8; EDGE2 .| EDGE3 .| EDGE11; EDGE5 .| EDGE6 .| EDGE10; 0]; (* 148 *)
    [EDGE0 .| EDGE2 .| EDGE4 .| EDGE7 .| EDGE11; EDGE5 .| EDGE6 .| EDGE10; 0; 0]; (* 149 *)
    [EDGE0 .| EDGE1 .| EDGE9; EDGE4 .| EDGE7 .| EDGE8; EDGE2 .| EDGE3 .| EDGE11; EDGE5 .| EDGE6 .| EDGE10]; (* 150 *)
    [EDGE1 .| EDGE2 .| EDGE4 .| EDGE7 .| EDGE9 .| EDGE11; EDGE5 .| EDGE6 .| EDGE10; 0; 0]; (* 151 *)
    [EDGE4 .| EDGE6 .| EDGE9 .| EDGE10; EDGE2 .| EDGE3 .| EDGE11; 0; 0]; (* 152 *)
    [EDGE0 .| EDGE2 .| EDGE8 .| EDGE11; EDGE4 .| EDGE6 .| EDGE9 .| EDGE10; 0; 0]; (* 153 *)
    [EDGE0 .| EDGE1 .| EDGE4 .| EDGE6 .| EDGE10; EDGE2 .| EDGE3 .| EDGE11; 0; 0]; (* 154 *)
    [EDGE1 .| EDGE2 .| EDGE4 .| EDGE6 .| EDGE8 .| EDGE10 .| EDGE11; 0; 0; 0]; (* 155 *)
    [EDGE6 .| EDGE7 .| EDGE8 .| EDGE9 .| EDGE10; EDGE2 .| EDGE3 .| EDGE11; 0; 0]; (* 156 *)
    [EDGE0 .| EDGE2 .| EDGE6 .| EDGE7 .| EDGE9 .| EDGE10 .| EDGE11; 0; 0; 0]; (* 157 *)
    [EDGE0 .| EDGE1 .| EDGE6 .| EDGE7 .| EDGE8 .| EDGE10; EDGE2 .| EDGE3 .| EDGE11; 0; 0]; (* 158 *)
    [EDGE1 .| EDGE2 .| EDGE6 .| EDGE7 .| EDGE10 .| EDGE11; 0; 0; 0]; (* 159 *)
    [EDGE1 .| EDGE2 .| EDGE5 .| EDGE6; 0; 0; 0]; (* 160 *)
    [EDGE0 .| EDGE3 .| EDGE8; EDGE1 .| EDGE2 .| EDGE5 .| EDGE6; 0; 0]; (* 161 *)
    [EDGE0 .| EDGE2 .| EDGE5 .| EDGE6 .| EDGE9; 0; 0; 0]; (* 162 *)
    [EDGE2 .| EDGE3 .| EDGE5 .| EDGE6 .| EDGE8 .| EDGE9; 0; 0; 0]; (* 163 *)
    [EDGE4 .| EDGE7 .| EDGE8; EDGE1 .| EDGE2 .| EDGE5 .| EDGE6; 0; 0]; (* 164 *)
    [EDGE0 .| EDGE3 .| EDGE4 .| EDGE7; EDGE1 .| EDGE2 .| EDGE5 .| EDGE6; 0; 0]; (* 165 *)
    [EDGE0 .| EDGE2 .| EDGE5 .| EDGE6 .| EDGE9; EDGE4 .| EDGE7 .| EDGE8; 0; 0]; (* 166 *)
    [EDGE2 .| EDGE3 .| EDGE4 .| EDGE5 .| EDGE6 .| EDGE7 .| EDGE9; 0; 0; 0]; (* 167 *)
    [EDGE1 .| EDGE2 .| EDGE4 .| EDGE6 .| EDGE9; 0; 0; 0]; (* 168 *)
    [EDGE0 .| EDGE3 .| EDGE8; EDGE1 .| EDGE2 .| EDGE4 .| EDGE6 .| EDGE9; 0; 0]; (* 169 *)
    [EDGE0 .| EDGE2 .| EDGE4 .| EDGE6; 0; 0; 0]; (* 170 *)
    [EDGE2 .| EDGE3 .| EDGE4 .| EDGE6 .| EDGE8; 0; 0; 0]; (* 171 *)
    [EDGE1 .| EDGE2 .| EDGE6 .| EDGE7 .| EDGE8 .| EDGE9; 0; 0; 0]; (* 172 *)
    [EDGE0 .| EDGE1 .| EDGE2 .| EDGE3 .| EDGE6 .| EDGE7 .| EDGE9; 0; 0; 0]; (* 173 *)
    [EDGE0 .| EDGE2 .| EDGE6 .| EDGE7 .| EDGE8; 0; 0; 0]; (* 174 *)
    [EDGE2 .| EDGE3 .| EDGE6 .| EDGE7; 0; 0; 0]; (* 175 *)
    [EDGE1 .| EDGE3 .| EDGE5 .| EDGE6 .| EDGE11; 0; 0; 0]; (* 176 *)
    [EDGE0 .| EDGE1 .| EDGE5 .| EDGE6 .| EDGE8 .| EDGE11; 0; 0; 0]; (* 177 *)
    [EDGE0 .| EDGE3 .| EDGE5 .| EDGE6 .| EDGE9 .| EDGE11; 0; 0; 0]; (* 178 *)
    [EDGE5 .| EDGE6 .| EDGE8 .| EDGE9 .| EDGE11; 0; 0; 0]; (* 179 *)
    [EDGE4 .| EDGE7 .| EDGE8; EDGE1 .| EDGE3 .| EDGE5 .| EDGE6 .| EDGE11; 0; 0]; (* 180 *)
    [EDGE0 .| EDGE1 .| EDGE4 .| EDGE5 .| EDGE6 .| EDGE7 .| EDGE11; 0; 0; 0]; (* 181 *)
    [EDGE0 .| EDGE3 .| EDGE5 .| EDGE6 .| EDGE9 .| EDGE11; EDGE4 .| EDGE7 .| EDGE8; 0; 0]; (* 182 *)
    [EDGE4 .| EDGE5 .| EDGE6 .| EDGE7 .| EDGE9 .| EDGE11; 0; 0; 0]; (* 183 *)
    [EDGE1 .| EDGE3 .| EDGE4 .| EDGE6 .| EDGE9 .| EDGE11; 0; 0; 0]; (* 184 *)
    [EDGE0 .| EDGE1 .| EDGE4 .| EDGE6 .| EDGE8 .| EDGE9 .| EDGE11; 0; 0; 0]; (* 185 *)
    [EDGE0 .| EDGE3 .| EDGE4 .| EDGE6 .| EDGE11; 0; 0; 0]; (* 186 *)
    [EDGE4 .| EDGE6 .| EDGE8 .| EDGE11; 0; 0; 0]; (* 187 *)
    [EDGE1 .| EDGE3 .| EDGE6 .| EDGE7 .| EDGE8 .| EDGE9 .| EDGE11; 0; 0; 0]; (* 188 *)
    [EDGE0 .| EDGE1 .| EDGE9; EDGE6 .| EDGE7 .| EDGE11; 0; 0]; (* 189 *)
    [EDGE0 .| EDGE3 .| EDGE6 .| EDGE7 .| EDGE8 .| EDGE11; 0; 0; 0]; (* 190 *)
    [EDGE6 .| EDGE7 .| EDGE11; 0; 0; 0]; (* 191 *)
    [EDGE5 .| EDGE7 .| EDGE10 .| EDGE11; 0; 0; 0]; (* 192 *)
    [EDGE0 .| EDGE3 .| EDGE8; EDGE5 .| EDGE7 .| EDGE10 .| EDGE11; 0; 0]; (* 193 *)
    [EDGE0 .| EDGE1 .| EDGE9; EDGE5 .| EDGE7 .| EDGE10 .| EDGE11; 0; 0]; (* 194 *)
    [EDGE1 .| EDGE3 .| EDGE8 .| EDGE9; EDGE5 .| EDGE7 .| EDGE10 .| EDGE11; 0; 0]; (* 195 *)
    [EDGE4 .| EDGE5 .| EDGE8 .| EDGE10 .| EDGE11; 0; 0; 0]; (* 196 *)
    [EDGE0 .| EDGE3 .| EDGE4 .| EDGE5 .| EDGE10 .| EDGE11; 0; 0; 0]; (* 197 *)
    [EDGE0 .| EDGE1 .| EDGE9; EDGE4 .| EDGE5 .| EDGE8 .| EDGE10 .| EDGE11; 0; 0]; (* 198 *)
    [EDGE1 .| EDGE3 .| EDGE4 .| EDGE5 .| EDGE9 .| EDGE10 .| EDGE11; 0; 0; 0]; (* 199 *)
    [EDGE4 .| EDGE7 .| EDGE9 .| EDGE10 .| EDGE11; 0; 0; 0]; (* 200 *)
    [EDGE0 .| EDGE3 .| EDGE8; EDGE4 .| EDGE7 .| EDGE9 .| EDGE10 .| EDGE11; 0; 0]; (* 201 *)
    [EDGE0 .| EDGE1 .| EDGE4 .| EDGE7 .| EDGE10 .| EDGE11; 0; 0; 0]; (* 202 *)
    [EDGE1 .| EDGE3 .| EDGE4 .| EDGE7 .| EDGE8 .| EDGE10 .| EDGE11; 0; 0; 0]; (* 203 *)
    [EDGE8 .| EDGE9 .| EDGE10 .| EDGE11; 0; 0; 0]; (* 204 *)
    [EDGE0 .| EDGE3 .| EDGE9 .| EDGE10 .| EDGE11; 0; 0; 0]; (* 205 *)
    [EDGE0 .| EDGE1 .| EDGE8 .| EDGE10 .| EDGE11; 0; 0; 0]; (* 206 *)
    [EDGE1 .| EDGE3 .| EDGE10 .| EDGE11; 0; 0; 0]; (* 207 *)
    [EDGE2 .| EDGE3 .| EDGE5 .| EDGE7 .| EDGE10; 0; 0; 0]; (* 208 *)
    [EDGE0 .| EDGE2 .| EDGE5 .| EDGE7 .| EDGE8 .| EDGE10; 0; 0; 0]; (* 209 *)
    [EDGE0 .| EDGE1 .| EDGE9; EDGE2 .| EDGE3 .| EDGE5 .| EDGE7 .| EDGE10; 0; 0]; (* 210 *)
    [EDGE1 .| EDGE2 .| EDGE5 .| EDGE7 .| EDGE8 .| EDGE9 .| EDGE10; 0; 0; 0]; (* 211 *)
    [EDGE2 .| EDGE3 .| EDGE4 .| EDGE5 .| EDGE8 .| EDGE10; 0; 0; 0]; (* 212 *)
    [EDGE0 .| EDGE2 .| EDGE4 .| EDGE5 .| EDGE10; 0; 0; 0]; (* 213 *)
    [EDGE0 .| EDGE1 .| EDGE9; EDGE2 .| EDGE3 .| EDGE4 .| EDGE5 .| EDGE8 .| EDGE10; 0; 0]; (* 214 *)
    [EDGE1 .| EDGE2 .| EDGE4 .| EDGE5 .| EDGE9 .| EDGE10; 0; 0; 0]; (* 215 *)
    [EDGE2 .| EDGE3 .| EDGE4 .| EDGE7 .| EDGE9 .| EDGE10; 0; 0; 0]; (* 216 *)
    [EDGE0 .| EDGE2 .| EDGE4 .| EDGE7 .| EDGE8 .| EDGE9 .| EDGE10; 0; 0; 0]; (* 217 *)
    [EDGE0 .| EDGE1 .| EDGE2 .| EDGE3 .| EDGE4 .| EDGE7 .| EDGE10; 0; 0; 0]; (* 218 *)
    [EDGE4 .| EDGE7 .| EDGE8; EDGE1 .| EDGE2 .| EDGE10; 0; 0]; (* 219 *)
    [EDGE2 .| EDGE3 .| EDGE8 .| EDGE9 .| EDGE10; 0; 0; 0]; (* 220 *)
    [EDGE0 .| EDGE2 .| EDGE9 .| EDGE10; 0; 0; 0]; (* 221 *)
    [EDGE0 .| EDGE1 .| EDGE2 .| EDGE3 .| EDGE8 .| EDGE10; 0; 0; 0]; (* 222 *)
    [EDGE1 .| EDGE2 .| EDGE10; 0; 0; 0]; (* 223 *)
    [EDGE1 .| EDGE2 .| EDGE5 .| EDGE7 .| EDGE11; 0; 0; 0]; (* 224 *)
    [EDGE0 .| EDGE3 .| EDGE8; EDGE1 .| EDGE2 .| EDGE5 .| EDGE7 .| EDGE11; 0; 0]; (* 225 *)
    [EDGE0 .| EDGE2 .| EDGE5 .| EDGE7 .| EDGE9 .| EDGE11; 0; 0; 0]; (* 226 *)
    [EDGE2 .| EDGE3 .| EDGE5 .| EDGE7 .| EDGE8 .| EDGE9 .| EDGE11; 0; 0; 0]; (* 227 *)
    [EDGE1 .| EDGE2 .| EDGE4 .| EDGE5 .| EDGE8 .| EDGE11; 0; 0; 0]; (* 228 *)
    [EDGE0 .| EDGE1 .| EDGE2 .| EDGE3 .| EDGE4 .| EDGE5 .| EDGE11; 0; 0; 0]; (* 229 *)
    [EDGE0 .| EDGE2 .| EDGE4 .| EDGE5 .| EDGE8 .| EDGE9 .| EDGE11; 0; 0; 0]; (* 230 *)
    [EDGE4 .| EDGE5 .| EDGE9; EDGE2 .| EDGE3 .| EDGE11; 0; 0]; (* 231 *)
    [EDGE1 .| EDGE2 .| EDGE4 .| EDGE7 .| EDGE9 .| EDGE11; 0; 0; 0]; (* 232 *)
    [EDGE0 .| EDGE3 .| EDGE8; EDGE1 .| EDGE2 .| EDGE4 .| EDGE7 .| EDGE9 .| EDGE11; 0; 0]; (* 233 *)
    [EDGE0 .| EDGE2 .| EDGE4 .| EDGE7 .| EDGE11; 0; 0; 0]; (* 234 *)
    [EDGE2 .| EDGE3 .| EDGE4 .| EDGE7 .| EDGE8 .| EDGE11; 0; 0; 0]; (* 235 *)
    [EDGE1 .| EDGE2 .| EDGE8 .| EDGE9 .| EDGE11; 0; 0; 0]; (* 236 *)
    [EDGE0 .| EDGE1 .| EDGE2 .| EDGE3 .| EDGE9 .| EDGE11; 0; 0; 0]; (* 237 *)
    [EDGE0 .| EDGE2 .| EDGE8 .| EDGE11; 0; 0; 0]; (* 238 *)
    [EDGE2 .| EDGE3 .| EDGE11; 0; 0; 0]; (* 239 *)
    [EDGE1 .| EDGE3 .| EDGE5 .| EDGE7; 0; 0; 0]; (* 240 *)
    [EDGE0 .| EDGE1 .| EDGE5 .| EDGE7 .| EDGE8; 0; 0; 0]; (* 241 *)
    [EDGE0 .| EDGE3 .| EDGE5 .| EDGE7 .| EDGE9; 0; 0; 0]; (* 242 *)
    [EDGE5 .| EDGE7 .| EDGE8 .| EDGE9; 0; 0; 0]; (* 243 *)
    [EDGE1 .| EDGE3 .| EDGE4 .| EDGE5 .| EDGE8; 0; 0; 0]; (* 244 *)
    [EDGE0 .| EDGE1 .| EDGE4 .| EDGE5; 0; 0; 0]; (* 245 *)
    [EDGE0 .| EDGE3 .| EDGE4 .| EDGE5 .| EDGE8 .| EDGE9; 0; 0; 0]; (* 246 *)
    [EDGE4 .| EDGE5 .| EDGE9; 0; 0; 0]; (* 247 *)
    [EDGE1 .| EDGE3 .| EDGE4 .| EDGE7 .| EDGE9; 0; 0; 0]; (* 248 *)
    [EDGE0 .| EDGE1 .| EDGE4 .| EDGE7 .| EDGE8 .| EDGE9; 0; 0; 0]; (* 249 *)
    [EDGE0 .| EDGE3 .| EDGE4 .| EDGE7; 0; 0; 0]; (* 250 *)
    [EDGE4 .| EDGE7 .| EDGE8; 0; 0; 0]; (* 251 *)
    [EDGE1 .| EDGE3 .| EDGE8 .| EDGE9; 0; 0; 0]; (* 252 *)
    [EDGE0 .| EDGE1 .| EDGE9; 0; 0; 0]; (* 253 *)
    [EDGE0 .| EDGE3 .| EDGE8; 0; 0; 0]; (* 254 *)
    [0; 0; 0; 0] (* 255 *)
  ].

(** The ambiguous face of the cube configurations that can cause
    non-manifold meshes; 255 marks the others.  Bit 0 of a value is the
    sign of the direction, bits 1 and 2 its axis. *)
Definition problematicConfigs : list Z := [
    255; 255; 255; 255; 255; 255; 255; 255; 255; 255; 255; 255; 255; 255; 255; 255;
    255; 255; 255; 255; 255; 255; 255; 255; 255; 255; 255; 255; 255; 255; 255; 255;
    255; 255; 255; 255; 255; 255; 255; 255; 255; 255; 255; 255; 255; 255; 255; 255;
    255; 255; 255; 255; 255; 255; 255; 255; 255; 255; 255; 255; 255; 1; 0; 255;
    255; 255; 255; 255; 255; 255; 255; 255; 255; 255; 255; 255; 255; 255; 255; 255;
    255; 255; 255; 255; 255; 255; 255; 255; 255; 255; 255; 3; 255; 255; 2; 255;
    255; 255; 255; 255; 255; 255; 255; 5; 255; 255; 255; 255; 255; 255; 5; 5;
    255; 255; 255; 255; 255; 255; 4; 255; 255; 255; 3; 3; 1; 1; 255; 255;
    255; 255; 255; 255; 255; 255; 255; 255; 255; 255; 255; 255; 255; 255; 255; 255;
    255; 255; 255; 255; 255; 255; 255; 255; 255; 255; 255; 5; 255; 5; 255; 5;
    255; 255; 255; 255; 255; 255; 255; 3; 255; 255; 255; 255; 255; 2; 255; 255;
    255; 255; 255; 255; 255; 3; 255; 3; 255; 4; 255; 255; 0; 255; 0; 255;
    255; 255; 255; 255; 255; 255; 255; 1; 255; 255; 255; 0; 255; 255; 255; 255;
    255; 255; 255; 1; 255; 255; 255; 1; 255; 4; 2; 255; 255; 255; 2; 255;
    255; 255; 255; 0; 255; 2; 4; 255; 255; 255; 255; 0; 255; 2; 255; 255;
    255; 255; 255; 255; 255; 255; 4; 255; 255; 4; 255; 255; 255; 255; 255; 255
  ].

(** [dualPointsList[c][i]] and [problematicConfigs[c]] *)
Definition dualPoint (c i : Z) : Z :=
  nth (Z.to_nat i) (nth (Z.to_nat c) dualPointsList []) 0.

Definition problematicConfig (c : Z) : Z :=
  nth (Z.to_nat c) problematicConfigs 0.

(** ** The mesher *)

(** The data members of [Mesher<T>]. *)
Record Mesher (T : Type) := mkMesher {
  dims : int3;
  volume : span T;
  generateManifold : bool;
  pointToIndex : gmap DualPointKey Z
}.
Arguments mkMesher {T} _ _ _ _.
Arguments dims {T} _.
Arguments volume {T} _.
Arguments generateManifold {T} _.
Arguments pointToIndex {T} _.

Section Mesher.
Context {T : Type} `{VolumeDataType T}.

(** Compute a linearized cell cube index. *)
Definition gA (m : Mesher T) (x y z : Z) : Z :=
  x + i3x (dims m) * (y + i3y (dims m) * z).

Definition gAcell (m : Mesher T) (cell : int3) : Z :=
  gA m (i3x cell) (i3y cell) (i3z cell).

(** [volume[gA(x, y, z)]] *)
Definition sample (m : Mesher T) (x y z : Z) : T :=
  span_at (volume m) (gA m x y z).

Definition GetStatus (m : Mesher T) (iso : T)
    (x y z xOffset yOffset zOffset : Z) : bool * bool :=
  let entering :=
    ge (sample m x y z) iso
    && lt (sample m (x + xOffset) (y + yOffset) (z + zOffset)) iso in
  let exiting :=
    lt (sample m x y z) iso
    && ge (sample m (x + xOffset) (y + yOffset) (z + zOffset)) iso in
  (entering, exiting).

(** [if (c) code |= bit;] *)
Definition orIf (c : bool) (bit code : Z) : Z :=
  if c then Z.lor code bit else code.

(** The 8-bit in-out mask for the voxel corners of the cell cube. *)
Definition GetCellCode (m : Mesher T) (cell : int3) (iso : T) : Z :=
  let x := i3x cell in
  let y := i3y cell in
  let z := i3z cell in
  let code := 0 in
  let code := orIf (ge (sample m x y z) iso) 1 code in
  let code := orIf (ge (sample m (x + 1) y z) iso) 2 code in
  let code := orIf (ge (sample m x (y + 1) z) iso) 4 code in
  let code := orIf (ge (sample m (x + 1) (y + 1) z) iso) 8 code in
  let code := orIf (ge (sample m x y (z + 1)) iso) 16 code in
  let code := orIf (ge (sample m (x + 1) y (z + 1)) iso) 32 code in
  let code := orIf (ge (sample m x (y + 1) (z + 1)) iso) 64 code in
  let code := orIf (ge (sample m (x + 1) (y + 1) (z + 1)) iso) 128 code in
  code.

(** The manifold dual marching cubes step of [GetDualPointCode]: the
    cube code with which the dual points table is read. *)
Definition manifoldCubeCode (m : Mesher T) (cell : int3) (iso : T) : Z :=
  let cubeCode := GetCellCode m cell iso in
  if generateManifold m then
    let direction := problematicConfig (u8 cubeCode) in
    if negb (direction =? 255) then
      let neighborCoords := cell in
      let component := Z.shiftr direction 1 in
      let delta := if Z.land direction 1 =? 1 then 1 else -1 in
      let neighborCoords :=
        set3 neighborCoords component (at3 neighborCoords component + delta) in
      if (at3 neighborCoords component >=? 0)
         && (at3 neighborCoords component <? at3 (dims m) component - 1)
      then
        let neighborCubeCode := GetCellCode m neighborCoords iso in
        if negb (problematicConfig (u8 neighborCubeCode) =? 255)
        then Z.lxor cubeCode 255
        else cubeCode
      else cubeCode
    else cubeCode
  else cubeCode.

(** [for (i = from; i < 4; ++i) if (dualPointsList[cubeCode][i] & edge)
    return dualPointsList[cubeCode][i]; return 0;] with [n] iterations
    left. *)
Fixpoint scanDualPoints (n : nat) (cubeCode i edge : Z) : Z :=
  match n with
  | O => 0
  | S n' =>
      if negb (Z.land (dualPoint cubeCode i) edge =? 0)
      then dualPoint cubeCode i
      else scanDualPoints n' cubeCode (i + 1) edge
  end.

(** The 12-bit dual point code mask of the marching cubes face that
    corresponds to the dual point. *)
Definition GetDualPointCode (m : Mesher T) (cell : int3) (iso : T)
    (edge : Z) : Z :=
  let cubeCode := manifoldCubeCode m cell iso in
  scanDualPoints 4 cubeCode 0 edge.

(** The interpolation fraction [((float)iso - (float)s0) /
    ((float)s1 - (float)s0)] of an edge with end samples [s0], [s1]. *)
Definition edgeFraction (iso s0 s1 : T) : float :=
  F32.div (F32.sub (to_float iso) (to_float s0))
          (F32.sub (to_float s1) (to_float s0)).

(** The local variables [p.position] and [points] of
    [CalculateDualPoint]. *)
Record Accum := mkAccum { acc_p : float3; acc_points : Z }.

Definition addX (v : float) (a : Accum) : Accum :=
  let p := acc_p a in
  mkAccum (mkFloat3 (F32.add (f3x p) v) (f3y p) (f3z p)) (acc_points a).
Definition addY (v : float) (a : Accum) : Accum :=
  let p := acc_p a in
  mkAccum (mkFloat3 (f3x p) (F32.add (f3y p) v) (f3z p)) (acc_points a).
Definition addZ (v : float) (a : Accum) : Accum :=
  let p := acc_p a in
  mkAccum (mkFloat3 (f3x p) (f3y p) (F32.add (f3z p) v)) (acc_points a).
Definition incPoints (a : Accum) : Accum :=
  mkAccum (acc_p a) (acc_points a + 1).

(** [if (pointCode & edge) { body }] *)
Definition ifEdge (pointCode edge : Z) (body : Accum -> Accum)
    (a : Accum) : Accum :=
  if negb (Z.land pointCode edge =? 0) then body a else a.

(** The sum of the edge intersection vertices selected by the point
    code, and their number. *)
Definition sumEdgePoints (m : Mesher T) (cell : int3) (iso : T)
    (pointCode : Z) : Accum :=
  let x := i3x cell in
  let y := i3y cell in
  let z := i3z cell in
  let s := sample m in
  let a := mkAccum (mkFloat3 F32.zero F32.zero F32.zero) 0 in
  let a := ifEdge pointCode EDGE0 (fun a =>
    incPoints (addX (edgeFraction iso (s x y z) (s (x + 1) y z)) a)) a in
  let a := ifEdge pointCode EDGE1 (fun a =>
    incPoints (addZ (edgeFraction iso (s (x + 1) y z) (s (x + 1) y (z + 1)))
              (addX F32.one a))) a in
  let a := ifEdge pointCode EDGE2 (fun a =>
    incPoints (addZ F32.one
              (addX (edgeFraction iso (s x y (z + 1)) (s (x + 1) y (z + 1))) a))) a in
  let a := ifEdge pointCode EDGE3 (fun a =>
    incPoints (addZ (edgeFraction iso (s x y z) (s x y (z + 1))) a)) a in
  let a := ifEdge pointCode EDGE4 (fun a =>
    incPoints (addY F32.one
              (addX (edgeFraction iso (s x (y + 1) z) (s (x + 1) (y + 1) z)) a))) a in
  let a := ifEdge pointCode EDGE5 (fun a =>
    incPoints (addY F32.one
              (addZ (edgeFraction iso (s (x + 1) (y + 1) z) (s (x + 1) (y + 1) (z + 1)))
              (addX F32.one a)))) a in
  let a := ifEdge pointCode EDGE6 (fun a =>
    incPoints (addY F32.one (addZ F32.one
              (addX (edgeFraction iso (s x (y + 1) (z + 1)) (s (x + 1) (y + 1) (z + 1))) a)))) a in
  let a := ifEdge pointCode EDGE7 (fun a =>
    incPoints (addY F32.one
              (addZ (edgeFraction iso (s x (y + 1) z) (s x (y + 1) (z + 1))) a))) a in
  let a := ifEdge pointCode EDGE8 (fun a =>
    incPoints (addY (edgeFraction iso (s x y z) (s x (y + 1) z)) a)) a in
  let a := ifEdge pointCode EDGE9 (fun a =>
    incPoints (addY (edgeFraction iso (s (x + 1) y z) (s (x + 1) (y + 1) z))
              (addX F32.one a))) a in
  let a := ifEdge pointCode EDGE10 (fun a =>
    incPoints (addZ F32.one
              (addY (edgeFraction iso (s (x + 1) y (z + 1)) (s (x + 1) (y + 1) (z + 1)))
              (addX F32.one a)))) a in
  let a := ifEdge pointCode EDGE11 (fun a =>
    incPoints (addY (edgeFraction iso (s x y (z + 1)) (s x (y + 1) (z + 1)))
              (addZ F32.one a))) a in
  a.

(** Given a dual point code and iso value, compute the dual point: the
    mean of the face vertices of the marching cubes face, moved to the
    cell. *)
Definition CalculateDualPoint (m : Mesher T) (cell : int3) (iso : T)
    (pointCode : Z) : Vertex :=
  let a := sumEdgePoints m cell iso pointCode in
  let p := acc_p a in
  let points := acc_points a in
  let invPoints := F32.div F32.one (F32.of_Z points) in
  let px := F32.mul (f3x p) invPoints in
  let py := F32.mul (f3y p) invPoints in
  let pz := F32.mul (f3z p) invPoints in
  mkVertex (mkFloat3 (F32.add (F32.of_Z (i3x cell)) px)
                     (F32.add (F32.of_Z (i3y cell)) py)
                     (F32.add (F32.of_Z (i3z cell)) pz)).

(** [pointToIndex[key] = id] *)
Definition setPointToIndex (m : Mesher T) (key : DualPointKey) (id : Z)
    : Mesher T :=
  mkMesher (dims m) (volume m) (generateManifold m)
           (<[key := id]> (pointToIndex m)).

(** The shared index of the dual point of a cell cube and a cube edge;
    the dual point is computed if it has not been computed before.
    Returns the index, the vertex sequence and the mesher. *)
Definition GetSharedDualPointIndex (m : Mesher T) (cell : int3) (iso : T)
    (edge : Z) (vertices : list Vertex) : Z * list Vertex * Mesher T :=
  let key := mkKey (gAcell m cell) (GetDualPointCode m cell iso edge) in
  match pointToIndex m !! key with
  | Some index => (index, vertices, m)
  | None =>
      let newVertexId := u32 (Z.of_nat (length vertices)) in
      let vertices :=
        vertices ++ [CalculateDualPoint m cell iso (pointCode key)] in
      (newVertexId, vertices, setPointToIndex m key newVertexId)
  end.

(** The [emplace_back] sequence of [ConstructFace] *)
Definition faceIndices (topology : Topology) (cond : bool)
    (i0 i1 i2 i3 : Z) : list Z :=
  if cond then
    match topology with
    | Quads => [i0; i1; i2; i3]
    | Triangles => [i0; i1; i2; i2; i3; i0]
    end
  else
    match topology with
    | Quads => [i0; i3; i2; i1]
    | Triangles => [i2; i1; i0; i0; i3; i2]
    end.

(** The four [GetSharedDualPointIndex] calls of [ConstructFace], in
    order: the indices [i0], [i1], [i2], [i3], the vertex sequence and
    the mesher after them. *)
Definition sharedIndices (m : Mesher T) (iso : T)
    (cells : int3 * int3 * int3 * int3) (edges : Z * Z * Z * Z)
    (vs : list Vertex) : (Z * Z * Z * Z) * list Vertex * Mesher T :=
  let '(c0, c1, c2, c3) := cells in
  let '(e0, e1, e2, e3) := edges in
  let '(i0, vs, m) := GetSharedDualPointIndex m c0 iso e0 vs in
  let '(i1, vs, m) := GetSharedDualPointIndex m c1 iso e1 vs in
  let '(i2, vs, m) := GetSharedDualPointIndex m c2 iso e2 vs in
  let '(i3, vs, m) := GetSharedDualPointIndex m c3 iso e3 vs in
  ((i0, i1, i2, i3), vs, m).

Definition ConstructFace (m : Mesher T) (iso : T) (topology : Topology)
    (mesh : Mesh) (cond : bool)
    (cells : int3 * int3 * int3 * int3) (edges : Z * Z * Z * Z)
    : Mesh * Mesher T :=
  let '((i0, i1, i2, i3), vs, m) :=
    sharedIndices m iso cells edges (vertices mesh) in
  (mkMesh vs (indices mesh ++ faceIndices topology cond i0 i1 i2 i3), m).

(** The three blocks of the body of the voxel loop of [BuildInternal]:
    the quads for the x, y and z edge at the voxel. *)
Definition xEdgeFace (iso : T) (topology : Topology) (x y z : Z)
    (st : Mesh * Mesher T) : Mesh * Mesher T :=
  let '(mesh, m) := st in
  if (z >? 0) && (y >? 0) then
    let '(entering, exiting) := GetStatus m iso x y z 1 0 0 in
    if entering || exiting then
      ConstructFace m iso topology mesh entering
        (mkInt3 x y z, mkInt3 x y (z - 1),
         mkInt3 x (y - 1) (z - 1), mkInt3 x (y - 1) z)
        (EDGE0, EDGE2, EDGE6, EDGE4)
    else st
  else st.

Definition yEdgeFace (iso : T) (topology : Topology) (x y z : Z)
    (st : Mesh * Mesher T) : Mesh * Mesher T :=
  let '(mesh, m) := st in
  if (z >? 0) && (x >? 0) then
    let '(entering, exiting) := GetStatus m iso x y z 0 1 0 in
    if entering || exiting then
      ConstructFace m iso topology mesh exiting
        (mkInt3 x y z, mkInt3 x y (z - 1),
         mkInt3 (x - 1) y (z - 1), mkInt3 (x - 1) y z)
        (EDGE8, EDGE11, EDGE10, EDGE9)
    else st
  else st.

Definition zEdgeFace (iso : T) (topology : Topology) (x y z : Z)
    (st : Mesh * Mesher T) : Mesh * Mesher T :=
  let '(mesh, m) := st in
  if (x >? 0) && (y >? 0) then
    let '(entering, exiting) := GetStatus m iso x y z 0 0 1 in
    if entering || exiting then
      ConstructFace m iso topology mesh exiting
        (mkInt3 x y z, mkInt3 (x - 1) y z,
         mkInt3 (x - 1) (y - 1) z, mkInt3 x (y - 1) z)
        (EDGE3, EDGE1, EDGE5, EDGE7)
    else st
  else st.

Definition voxelBody (iso : T) (topology : Topology) (x y z : Z)
    (st : Mesh * Mesher T) : Mesh * Mesher T :=
  zEdgeFace iso topology x y z
    (yEdgeFace iso topology x y z
      (xEdgeFace iso topology x y z st)).

(** [for (int32_t i = 0; i < n; ++i) body] *)
Definition forRange {S : Type} (n : Z) (body : Z -> S -> S) (s : S) : S :=
  fold_left (fun s i => body i s) (seqZ 0 n) s.

(** [pointToIndex.clear()] *)
Definition clearPointToIndex (m : Mesher T) : Mesher T :=
  mkMesher (dims m) (volume m) (generateManifold m) ∅.

Definition BuildInternal (m : Mesher T) (iso : T) (topology : Topology)
    (mesh : Mesh) : Mesh * Mesher T :=
  let reducedX := i3x (dims m) - 2 in
  let reducedY := i3y (dims m) - 2 in
  let reducedZ := i3z (dims m) - 2 in
  let m := clearPointToIndex m in
  forRange reducedZ (fun z =>
    forRange reducedY (fun y =>
      forRange reducedX (fun x =>
        voxelBody iso topology x y z)))
    (mesh, m).

(** The three assertions of [Build]. *)
Definition buildAsserts (data : span T) (dimension : int3) : bool :=
  negb ((i3x dimension <? 0) || (i3y dimension <? 0) || (i3z dimension <? 0))
  && negb (span_size data =? 0)
  && (span_size data >=? i3x dimension * i3y dimension * i3z dimension).

(** Extracts the iso surface for a given volume and iso value.  [None]
    is the failure of an assertion; otherwise the mesh and the mesher
    object after the call. *)
Definition Build (self : Mesher T) (data : span T) (dimension : int3)
    (iso : T) (generateManifold : bool) (topology : Topology)
    : option (Mesh * Mesher T) :=
  if buildAsserts data dimension then
    let self := mkMesher dimension data generateManifold (pointToIndex self) in
    let mesh := mkMesh [] [] in
    Some (BuildInternal self iso topology mesh)
  else None.
End Mesher.

(** ** Sample types *)

(** Integer samples (e.g. [int32_t] volumes). *)
#[global] Program Instance Z_VolumeDataType : VolumeDataType Z := {|
  ge := Z.geb;
  lt := Z.ltb;
  to_float := F32.of_Z
|}.
Next Obligation.
  intros a b Hlt. apply Z.ltb_lt in Hlt.
  destruct (Z.geb_spec a b); [lia | reflexivity].
Qed.

(** [float] samples. *)
#[global] Program Instance float_VolumeDataType : VolumeDataType float := {|
  ge := F32.geb;
  lt := F32.ltb;
  to_float := fun v => v
|}.
Next Obligation.
  intros a b. unfold F32.ltb, F32.geb, SFltb, SFleb.
  assert (Hswap : SFcompare a b = Some Lt -> SFcompare b a = Some Gt).
  { destruct a as [sa | sa | | sa ma ea], b as [sb | sb | | sb mb eb];
      simpl; try discriminate;
      try (destruct sa; discriminate); try (destruct sb; discriminate);
      try (destruct sa, sb; (discriminate || reflexivity)).
    assert (Hm : Pos.compare_cont Eq mb ma
                 = CompOpp (Pos.compare_cont Eq ma mb))
      by (symmetry; apply (Pos.compare_cont_antisym ma mb Eq)).
    destruct sa, sb; try (discriminate || reflexivity);
      rewrite (Z.compare_antisym ea eb), Hm;
      destruct (ea ?= eb)%Z; simpl; try (discriminate || reflexivity);
      destruct (Pos.compare_cont Eq ma mb); simpl;
      (discriminate || reflexivity). }
  destruct (SFcompare a b) as [[ | | ] | ] eqn:Hc; try discriminate.
  intros _. rewrite (Hswap eq_refl). reflexivity.
Qed.

(** ** Vocabulary of the properties *)

(** The voxels visited by the loop nest of [BuildInternal], in iteration
    order: z outermost, x innermost. *)
Definition sweep (d : int3) : list int3 :=
  flat_map (fun z =>
    flat_map (fun y =>
      map (fun x => mkInt3 x y z) (seqZ 0 (i3x d - 2)))
      (seqZ 0 (i3y d - 2)))
    (seqZ 0 (i3z d - 2)).

(** The grid edge directions, and per direction the data of the matching
    block of the loop body: its guard, the unit step handed to
    [GetStatus], the four cells around the edge and their cube edges. *)
Inductive Axis := AxisX | AxisY | AxisZ.

Definition edgeGuard (a : Axis) (x y z : Z) : bool :=
  match a with
  | AxisX => (z >? 0) && (y >? 0)
  | AxisY => (z >? 0) && (x >? 0)
  | AxisZ => (x >? 0) && (y >? 0)
  end.

Definition edgeCells (a : Axis) (x y z : Z) : int3 * int3 * int3 * int3 :=
  match a with
  | AxisX => (mkInt3 x y z, mkInt3 x y (z - 1),
              mkInt3 x (y - 1) (z - 1), mkInt3 x (y - 1) z)
  | AxisY => (mkInt3 x y z, mkInt3 x y (z - 1),
              mkInt3 (x - 1) y (z - 1), mkInt3 (x - 1) y z)
  | AxisZ => (mkInt3 x y z, mkInt3 (x - 1) y z,
              mkInt3 (x - 1) (y - 1) z, mkInt3 x (y - 1) z)
  end.

Definition edgeCodes (a : Axis) : Z * Z * Z * Z :=
  match a with
  | AxisX => (EDGE0, EDGE2, EDGE6, EDGE4)
  | AxisY => (EDGE8, EDGE11, EDGE10, EDGE9)
  | AxisZ => (EDGE3, EDGE1, EDGE5, EDGE7)
  end.

(** The four cells of a face as a list. *)
Definition cellsOf (cs : int3 * int3 * int3 * int3) : list int3 :=
  let '(c0, c1, c2, c3) := cs in [c0; c1; c2; c3].

(** The index orders named by the specification for a face with dual
    vertices [i0 .. i3]. *)
Definition givenOrder (t : Topology) (i0 i1 i2 i3 : Z) : list Z :=
  match t with
  | Quads => [i0; i1; i2; i3]
  | Triangles => [i0; i1; i2] ++ [i2; i3; i0]
  end.

Definition reversedOrder (t : Topology) (i0 i1 i2 i3 : Z) : list Z :=
  match t with
  | Quads => [i0; i3; i2; i1]
  | Triangles => [i2; i1; i0] ++ [i0; i3; i2]
  end.

(** The orientation of the cycle of the four cells around an edge: the
    sum of the cross products of consecutive cell coordinates, twice the
    area vector of the quad, which does not depend on the voxel. *)
Definition cross (u v : int3) : int3 :=
  mkInt3 (i3y u * i3z v - i3z u * i3y v)
         (i3z u * i3x v - i3x u * i3z v)
         (i3x u * i3y v - i3y u * i3x v).

Definition plus3 (u v : int3) : int3 :=
  mkInt3 (i3x u + i3x v) (i3y u + i3y v) (i3z u + i3z v).

Definition cycleNormal (cs : int3 * int3 * int3 * int3) : int3 :=
  let '(c0, c1, c2, c3) := cs in
  plus3 (plus3 (cross c0 c1) (cross c1 c2)) (plus3 (cross c2 c3) (cross c3 c0)).

(** The component of a vector along an axis. *)
Definition along (a : Axis) (v : int3) : Z :=
  match a with
  | AxisX => i3x v
  | AxisY => i3y v
  | AxisZ => i3z v
  end.

(** The normal of the face of a crossing as [BuildInternal] emits it:
    the cycle is taken as given when the face condition holds ([entering]
    for the x edge, [exiting], which at a crossing is [negb entering],
    for the y and z edges) and reversed otherwise. *)
Definition emittedNormal (a : Axis) (entering : bool) (x y z : Z) : Z :=
  let given := match a with AxisX => entering | _ => negb entering end in
  let n := along a (cycleNormal (edgeCells a x y z)) in
  if given then n else - n.

(** A cell coordinate strictly inside a 1-cell border of the volume. *)
Definition insideBorder (d c : int3) : bool :=
  (1 <=? i3x c) && (i3x c <=? i3x d - 2)
  && (1 <=? i3y c) && (i3y c <=? i3y d - 2)
  && (1 <=? i3z c) && (i3z c <=? i3z d - 2).

(** The number of cube edges flagged in a 12-bit point code. *)
Definition edgeBit (code edge : Z) : Z :=
  if Z.land code edge =? 0 then 0 else 1.

Definition flaggedEdges (code : Z) : Z :=
  edgeBit code EDGE0 + edgeBit code EDGE1 + edgeBit code EDGE2
  + edgeBit code EDGE3 + edgeBit code EDGE4 + edgeBit code EDGE5
  + edgeBit code EDGE6 + edgeBit code EDGE7 + edgeBit code EDGE8
  + edgeBit code EDGE9 + edgeBit code EDGE10 + edgeBit code EDGE11.

Section Vocabulary.
Context {T : Type} `{VolumeDataType T}.

Definition edgeFace (a : Axis) (iso : T) (topology : Topology) (x y z : Z)
    (st : Mesh * Mesher T) : Mesh * Mesher T :=
  match a with
  | AxisX => xEdgeFace iso topology x y z st
  | AxisY => yEdgeFace iso topology x y z st
  | AxisZ => zEdgeFace iso topology x y z st
  end.

Definition edgeStatus (a : Axis) (m : Mesher T) (iso : T) (x y z : Z)
    : bool * bool :=
  match a with
  | AxisX => GetStatus m iso x y z 1 0 0
  | AxisY => GetStatus m iso x y z 0 1 0
  | AxisZ => GetStatus m iso x y z 0 0 1
  end.


(** The manifold resolver in the words of the specification: a code is
    ambiguous when the table does not hold 255 for it; the table value
    decodes into an axis and a sign; the neighbor is the cell one step
    along that axis; the code is complemented when the flag is set, the
    cell is ambiguous, the neighbor is a valid cell on that axis and is
    ambiguous as well. *)
Definition ambiguous (code : Z) : bool :=
  negb (problematicConfig code =? 255).

Definition decodedAxis (direction : Z) : Z := direction / 2.

Definition decodedSign (direction : Z) : Z :=
  if Z.odd direction then 1 else -1.

Definition neighborCell (cell : int3) (direction : Z) : int3 :=
  set3 cell (decodedAxis direction)
       (at3 cell (decodedAxis direction) + decodedSign direction).

Definition validCellOn (d cell : int3) (axis : Z) : bool :=
  (0 <=? at3 cell axis) && (at3 cell axis <=? at3 d axis - 2).

Definition complement8 (code : Z) : Z := 255 - code.

Definition invertsCode (m : Mesher T) (cell : int3) (iso : T) : bool :=
  let raw := GetCellCode m cell iso in
  let direction := problematicConfig raw in
  let neighbor := neighborCell cell direction in
  generateManifold m
  && ambiguous raw
  && validCellOn (dims m) neighbor (decodedAxis direction)
  && ambiguous (GetCellCode m neighbor iso).

Definition resolvedCode (m : Mesher T) (cell : int3) (iso : T) : Z :=
  if invertsCode m cell iso
  then complement8 (GetCellCode m cell iso)
  else GetCellCode m cell iso.

(** The first mask of row [code] of the dual points table that contains
    the bit of [edge], 0 if there is none. *)
Definition firstMaskWith (code edge : Z) : Z :=
  match filter (fun mask => Z.land mask edge ≠ 0)
               (map (dualPoint code) [0; 1; 2; 3]) with
  | mask :: _ => mask
  | [] => 0
  end.

(** The mesher and the volume agree on everything but the cache. *)
Definition sameVolume (m m' : Mesher T) : Prop :=
  dims m' = dims m /\ volume m' = volume m
  /\ generateManifold m' = generateManifold m.

(** [ks] lists, vertex by vertex, the key each vertex was created for:
    the keys are pairwise distinct, they are exactly the keys of the
    cache, the cache maps the key of vertex [i] to [i], and vertex [i]
    is the dual point of a cell with that linearized id and of the
    point code of the key. *)
Definition keysOf (iso : T) (ks : list DualPointKey) (vs : list Vertex)
    (m : Mesher T) : Prop :=
  length ks = length vs
  /\ NoDup ks
  /\ (forall k, k ∈ ks <-> is_Some (pointToIndex m !! k))
  /\ (forall (i : nat) k, ks !! i = Some k ->
        pointToIndex m !! k = Some (u32 (Z.of_nat i))
        /\ exists cell, gAcell m cell = linearizedCellID k
             /\ vs !! i = Some (CalculateDualPoint m cell iso (pointCode k))).

(** Every index held by the cache names an existing vertex. *)
Definition cacheInRange (vs : list Vertex) (m : Mesher T) : Prop :=
  forall k i, pointToIndex m !! k = Some i ->
    0 <= i < Z.of_nat (length vs).

(** Every index of the mesh and every index held by the cache names an
    existing vertex. *)
Definition indicesInRange (st : Mesh * Mesher T) : Prop :=
  let '(mesh, m) := st in
  Forall (fun i => 0 <= i < Z.of_nat (length (vertices mesh))) (indices mesh)
  /\ cacheInRange (vertices mesh) m.

(** The state after a step continues the state before it: vertices are
    appended only, cache entries are added only, the volume is the
    same. *)
Definition continues (st st' : list Vertex * Mesher T) : Prop :=
  fst st `prefix_of` fst st'
  /\ pointToIndex (snd st) ⊆ pointToIndex (snd st')
  /\ sameVolume (snd st) (snd st').

(** A property of the state that [ConstructFace] preserves; such a
    property is preserved by the loop body, by every pass over voxels
    and by [BuildInternal]. *)
Definition faceClosed (iso : T) (topology : Topology)
    (P : Mesh * Mesher T -> Prop) : Prop :=
  forall m mesh cond cells edges,
    P (mesh, m) -> P (ConstructFace m iso topology mesh cond cells edges).

(** Two spans of the same length with the same elements. *)
Definition sameSamples (v v' : span T) : Prop :=
  span_size v' = span_size v
  /\ forall i, 0 <= i < span_size v -> span_at v' i = span_at v i.

(** A cell whose eight corners are voxels of the volume. *)
Definition cellInVolume (d cell : int3) : Prop :=
  0 <= i3x cell <= i3x d - 2 /\ 0 <= i3y cell <= i3y d - 2
  /\ 0 <= i3z cell <= i3z d - 2.

(** Two meshers that differ at most in what lies outside the span of
    their volumes, the span holding the whole volume. *)
Definition sameRun (m m' : Mesher T) : Prop :=
  dims m' = dims m
  /\ generateManifold m' = generateManifold m
  /\ pointToIndex m' = pointToIndex m
  /\ sameSamples (volume m) (volume m')
  /\ i3x (dims m) * i3y (dims m) * i3z (dims m) <= span_size (volume m).

(** The state of two runs on volumes that agree inside the span. *)
Definition sameState (st st' : Mesh * Mesher T) : Prop :=
  fst st' = fst st /\ sameRun (snd st) (snd st').

(** The runs for the two topologies go in step: same vertices, same
    mesher, and [n] faces each, of 4 and 6 indices. *)
Definition inStep (sq st : Mesh * Mesher T) : Prop :=
  vertices (fst sq) = vertices (fst st) /\ snd sq = snd st
  /\ exists n : nat,
       length (indices (fst sq)) = (4 * n)%nat
       /\ length (indices (fst st)) = (6 * n)%nat.
End Vocabulary.

(** ** Example volumes *)

(** A fresh mesher object, before its first [Build]. *)
Definition newMesher {T : Type} (d : T) : Mesher T :=
  mkMesher (mkInt3 0 0 0) (span_of_list d []) false ∅.

(** [n] samples, all 0 but the one at offset [k], which is 1. *)
Definition spikeVolume (n k : Z) : span Z :=
  span_of_list 0 (map (fun i => if i =? k then 1 else 0) (seqZ 0 n)).

(** The 3x3x3 volume of [float] samples 1.0 with 0.0 at the corner
    (0,0,0). *)
Definition cornerVolume : span float :=
  span_of_list F32.zero
    (map (fun i => if i =? 0 then F32.zero else F32.one) (seqZ 0 27)).


(** A 4x4x4 volume with sample 1 at (1,1,1), (2,1,1) and (1,2,1), and 0
    elsewhere: at iso = 1 its cell (1,1,1) has cube code 7. *)
Definition code7Volume : span Z :=
  span_of_list 0
    (map (fun i => if (i =? 21) || (i =? 22) || (i =? 25) then 1 else 0)
         (seqZ 0 64)).

(** A 3x2x2 volume whose cells (0,0,0) and (1,0,0) have, at iso = 1, the
    cube codes 61 and 62: an ambiguous pair across the face between
    them. *)
Definition ambiguousPairVolume : span Z :=
  span_of_list 0 [1; 0; 1; 1; 1; 1; 1; 1; 1; 0; 0; 0].

(** The samples of [spikeVolume 48 13] in a span that reads 99 outside
    of them. *)
Definition spikeVolume' : span Z :=
  span_of_list 99 (map (fun i => if i =? 13 then 1 else 0) (seqZ 0 48)).

(** ** Further vocabulary: keys, corners, cube edges, crossings *)

(** [DualPointKey::operator==] *)
Definition keyEq (k other : DualPointKey) : bool :=
  (linearizedCellID k =? linearizedCellID other)
  && (pointCode k =? pointCode other).

(** [size_t(n)] for a 64-bit [size_t], which the shift by 32 in the hash
    functor presupposes. *)
Definition size_t (n : Z) : Z := n mod 2 ^ 64.

(** [DualPointKeyHash::operator()] *)
Definition DualPointKeyHash (k : DualPointKey) : Z :=
  Z.lor (size_t (linearizedCellID k))
        (size_t (Z.shiftl (size_t (pointCode k)) 32)).

(** The cell coordinate of a linearized id. *)
Definition cellOfId (d : int3) (id : Z) : int3 :=
  mkInt3 (id mod i3x d) ((id / i3x d) mod i3y d) (id / (i3x d * i3y d)).

(** The cell corners are numbered by the Morton code of their coordinates:
    bit 0 of the number is the x offset, bit 1 the y offset, bit 2 the z
    offset. *)
Definition cornerOffset (k : Z) : int3 :=
  mkInt3 (Z.b2z (Z.testbit k 0)) (Z.b2z (Z.testbit k 1))
         (Z.b2z (Z.testbit k 2)).

(** The two corners joined by a cube edge, in the direction of the
    interpolation of [CalculateDualPoint]. *)
Definition edgeCorners (e : Z) : Z * Z :=
  match e with
  | 0 => (0, 1) | 1 => (1, 5) | 2 => (4, 5) | 3 => (0, 4)
  | 4 => (2, 3) | 5 => (3, 7) | 6 => (6, 7) | 7 => (2, 6)
  | 8 => (0, 2) | 9 => (1, 3) | 10 => (5, 7) | _ => (4, 6)
  end.

(** The edge code [EDGEe]. *)
Definition edgeCode (e : Z) : Z := Z.shiftl 1 e.

(** Some mask of row [code] of the dual points table contains edge [e]. *)
Definition hasMask (code e : Z) : bool :=
  existsb (fun i => negb (Z.land (dualPoint code i) (edgeCode e) =? 0))
          [0; 1; 2; 3].

(** The cube code has a sign change along edge [e]. *)
Definition crossesEdge (code e : Z) : bool :=
  xorb (Z.testbit code (fst (edgeCorners e)))
       (Z.testbit code (snd (edgeCorners e))).

(** Two cube codes agree on the face of the first cell in direction [d]:
    the corners of that face have the same bits in the code of the
    neighbor beyond it, where they carry the number with the axis bit
    flipped. *)
Definition faceAgree (a b d : Z) : bool :=
  let axis := Z.shiftr d 1 in
  let sign := Z.odd d in
  forallb (fun k =>
    if eqb (Z.testbit k axis) sign
    then eqb (Z.testbit a k) (Z.testbit b (Z.lxor k (Z.shiftl 1 axis)))
    else true) (seqZ 0 8).

Definition axes : list Axis := [AxisX; AxisY; AxisZ].

Section FurtherVocabulary.
Context {T : Type} `{VolumeDataType T}.

(** The sample at corner [k] of a cell. *)
Definition cornerSample (m : Mesher T) (cell : int3) (k : Z) : T :=
  sample m (i3x cell + i3x (cornerOffset k))
           (i3y cell + i3y (cornerOffset k))
           (i3z cell + i3z (cornerOffset k)).

(** The grid edge of a voxel along an axis passes the guard of its block
    and is a sign change. *)
Definition crossingAt (m : Mesher T) (iso : T) (c : int3) (a : Axis) : bool :=
  edgeGuard a (i3x c) (i3y c) (i3z c)
  && (fst (edgeStatus a m iso (i3x c) (i3y c) (i3z c))
      || snd (edgeStatus a m iso (i3x c) (i3y c) (i3z c))).

(** The crossings of a list of voxels, in the order of the loop body. *)
Definition crossingEdges (m : Mesher T) (iso : T) (l : list int3)
    : list (int3 * Axis) :=
  flat_map (fun c =>
    map (fun a => (c, a)) (List.filter (crossingAt m iso c) axes)) l.

(** The number of indices of a face. *)
Definition faceSize (topology : Topology) : nat :=
  match topology with Quads => 4%nat | Triangles => 6%nat end.

(** A vertex that is the dual point of a cell of the volume for a point
    code with between 3 and 7 flagged edges, the mean of that many edge
    points. *)
Definition dualPointOf (m : Mesher T) (iso : T) (v : Vertex) : Prop :=
  exists cell code,
    cellInVolume (dims m) cell
    /\ 3 <= acc_points (sumEdgePoints m cell iso code) <= 7
    /\ v = CalculateDualPoint m cell iso code.

(** A face given by the positions of its four vertices in the vertex
    sequence and by its face condition, and the indices emitted for it. *)
Definition faceAt (topology : Topology) (f : (nat * nat * nat * nat) * bool)
    : list Z :=
  let '((p0, p1, p2, p3), cond) := f in
  faceIndices topology cond (u32 (Z.of_nat p0)) (u32 (Z.of_nat p1))
              (u32 (Z.of_nat p2)) (u32 (Z.of_nat p3)).

(** A face whose four vertices are pairwise distinct vertices of a
    sequence of [n] vertices. *)
Definition properFace (n : nat) (f : (nat * nat * nat * nat) * bool) : Prop :=
  let '((p0, p1, p2, p3), _) := f in
  NoDup [p0; p1; p2; p3]
  /\ (p0 < n)%nat /\ (p1 < n)%nat /\ (p2 < n)%nat /\ (p3 < n)%nat.

(** The index sequence is a sequence of proper faces. *)
Definition properFaces (topology : Topology) (mesh : Mesh) : Prop :=
  exists fs,
    indices mesh = flat_map (faceAt topology) fs
    /\ Forall (properFace (length (vertices mesh))) fs.

(** A key of an extraction: the linearized id of a cell of the volume
    with a 12-bit point code of between 3 and 7 edges. *)
Definition extractionKey (d : int3) (k : DualPointKey) : Prop :=
  0 <= linearizedCellID k < i3x d * i3y d * i3z d
  /\ 0 < pointCode k < 2 ^ 12
  /\ 3 <= flaggedEdges (pointCode k) <= 7.

(** A request of the driver that is in order: the cell lies in the volume
    and the locator finds a mask for the edge. *)
Definition goodRequest (m : Mesher T) (iso : T) (cell : int3) (edge : Z)
    : Prop :=
  cellInVolume (dims m) cell /\ GetDualPointCode m cell iso edge <> 0.
End FurtherVocabulary.

(** ** The [int32_t] arithmetic of the ids and of the size assertion *)

(** The result of an [int32_t] operation as two's complement hardware
    gives it: the exact result wrapped around modulo 2^32 into
    [-2^31, 2^31). *)
Definition i32 (n : Z) : Z := (n + 2 ^ 31) mod 2 ^ 32 - 2 ^ 31.

(** The dimensions for which the [int32_t] products of [Build] and of
    [gA] are exact: dimX*dimY and dimX*dimY*dimZ are values of
    [int32_t]. *)
Definition noOverflow (d : int3) : Prop :=
  - 2 ^ 31 <= i3x d * i3y d < 2 ^ 31
  /\ - 2 ^ 31 <= i3x d * i3y d * i3z d < 2 ^ 31.

Section Int32Vocabulary.
Context {T : Type} `{VolumeDataType T}.

(** [gA] with the wrap-around of each of its four [int32_t] operations
    written out. *)
Definition gA_int32 (m : Mesher T) (x y z : Z) : Z :=
  i32 (x + i32 (i3x (dims m) * i32 (y + i32 (i3y (dims m) * z)))).

(** The three assertions of [Build] with the size assertion as it is
    computed: the product of the dimensions in [int32_t], left to right,
    then cast to [size_t]. *)
Definition buildAsserts_int32 (data : span T) (dimension : int3) : bool :=
  negb ((i3x dimension <? 0) || (i3y dimension <? 0) || (i3z dimension <? 0))
  && negb (span_size data =? 0)
  && (span_size data
      >=? size_t (i32 (i32 (i3x dimension * i3y dimension) * i3z dimension))).
End Int32Vocabulary.

(** ** Loops *)

Lemma fold_left_flat_map {A B S : Type} (f : S -> B -> S) (g : A -> list B)
    (l : list A) (s : S) :
  fold_left f (flat_map g l) s
  = fold_left (fun s a => fold_left f (g a) s) l s.
Proof.
  revert s. induction l as [| a l IH]; intros s; simpl; [reflexivity |].
  rewrite fold_left_app. apply IH.
Qed.

Lemma fold_left_map {A B S : Type} (f : S -> B -> S) (g : A -> B)
    (l : list A) (s : S) :
  fold_left f (map g l) s = fold_left (fun s a => f s (g a)) l s.
Proof.
  revert s. induction l as [| a l IH]; intros s; simpl; [reflexivity | apply IH].
Qed.

Lemma fold_left_ext {A S : Type} (f g : S -> A -> S) (l : list A) (s : S) :
  (forall s a, f s a = g s a) -> fold_left f l s = fold_left g l s.
Proof.
  intros Hfg. revert s. induction l as [| a l IH]; intros s; simpl;
    [reflexivity |].
  rewrite Hfg. apply IH.
Qed.

Lemma fold_left_invariant {A S : Type} (P : S -> Prop) (f : S -> A -> S)
    (l : list A) (s : S) :
  P s -> (forall a s, In a l -> P s -> P (f s a)) -> P (fold_left f l s).
Proof.
  revert s. induction l as [| a l IH]; intros s Hs Hstep; simpl; [exact Hs |].
  apply IH.
  - apply Hstep; [left; reflexivity | exact Hs].
  - intros b s' Hb. apply Hstep. right. exact Hb.
Qed.

Lemma fold_left_related_In {A S1 S2 : Type} (R : S1 -> S2 -> Prop)
    (f : S1 -> A -> S1) (g : S2 -> A -> S2) (l : list A) (s1 : S1) (s2 : S2) :
  R s1 s2 ->
  (forall a s1 s2, In a l -> R s1 s2 -> R (f s1 a) (g s2 a)) ->
  R (fold_left f l s1) (fold_left g l s2).
Proof.
  revert s1 s2. induction l as [| a l IH]; intros s1 s2 Hs Hstep; simpl;
    [exact Hs |].
  apply IH.
  - apply Hstep; [left; reflexivity | exact Hs].
  - intros b t1 t2 Hb. apply Hstep. right. exact Hb.
Qed.

Lemma fold_left_related {A S1 S2 : Type} (R : S1 -> S2 -> Prop)
    (f : S1 -> A -> S1) (g : S2 -> A -> S2) (l : list A) (s1 : S1) (s2 : S2) :
  R s1 s2 -> (forall a s1 s2, R s1 s2 -> R (f s1 a) (g s2 a)) ->
  R (fold_left f l s1) (fold_left g l s2).
Proof.
  revert s1 s2. induction l as [| a l IH]; intros s1 s2 Hs Hstep; simpl;
    [exact Hs |].
  apply IH; [apply Hstep; exact Hs | exact Hstep].
Qed.

Lemma In_seqZ (i m n : Z) : In i (seqZ m n) <-> m <= i < m + n.
Proof. rewrite <- list_elem_of_In. apply elem_of_seqZ. Qed.

Lemma In_sweep (d c : int3) :
  In c (sweep d) <->
  0 <= i3x c <= i3x d - 3 /\ 0 <= i3y c <= i3y d - 3
  /\ 0 <= i3z c <= i3z d - 3.
Proof.
  unfold sweep. rewrite in_flat_map. split.
  - intros (z & Hz & Hc). apply in_flat_map in Hc as (y & Hy & Hc).
    apply in_map_iff in Hc as (x & <- & Hx).
    apply In_seqZ in Hx, Hy, Hz. simpl. lia.
  - intros (Hx & Hy & Hz). destruct c as [x y z]; simpl in *.
    exists z. split; [apply In_seqZ; lia |].
    apply in_flat_map. exists y. split; [apply In_seqZ; lia |].
    apply in_map_iff. exists x. split; [reflexivity | apply In_seqZ; lia].
Qed.

Lemma NoDup_seqZ' (m n : Z) : List.NoDup (seqZ m n).
Proof. apply NoDup_ListNoDup, NoDup_seqZ. Qed.

Lemma NoDup_sweep (d : int3) : List.NoDup (sweep d).
Proof.
  unfold sweep.
  assert (Hflat : forall (A : Type) (g : Z -> list A) (l : list Z),
    List.NoDup l -> (forall i, List.NoDup (g i)) ->
    (forall i j a, In a (g i) -> In a (g j) -> i = j) ->
    List.NoDup (flat_map g l)).
  { intros A g l Hl Hg Hdisj. induction Hl as [| i l Hi Hl IH]; simpl.
    - constructor.
    - apply NoDup_ListNoDup, NoDup_app. repeat split.
      + apply NoDup_ListNoDup, Hg.
      + intros a Ha Ha'. apply list_elem_of_In in Ha, Ha'.
        apply in_flat_map in Ha' as (j & Hj & Ha').
        assert (i = j) by (eapply Hdisj; eassumption). subst j. contradiction.
      + apply NoDup_ListNoDup, IH. }
  apply Hflat.
  - apply NoDup_seqZ'.
  - intros z. apply Hflat.
    + apply NoDup_seqZ'.
    + intros y. apply NoDup_ListNoDup, NoDup_fmap_2.
      * intros x x' Heq. congruence.
      * apply NoDup_seqZ.
    + intros y y' a Ha Ha'.
      apply in_map_iff in Ha as (x & <- & _).
      apply in_map_iff in Ha' as (x' & Heq & _). congruence.
  - intros z z' a Ha Ha'.
    apply in_flat_map in Ha as (y & _ & Ha).
    apply in_map_iff in Ha as (x & <- & _).
    apply in_flat_map in Ha' as (y' & _ & Ha').
    apply in_map_iff in Ha' as (x' & Heq & _). congruence.
Qed.

Section Loops.
Context {T : Type} `{VolumeDataType T}.

(** The loop nest is one pass over [sweep]. *)
Lemma BuildInternal_sweep (m : Mesher T) (iso : T) (topology : Topology)
    (mesh : Mesh) :
  BuildInternal m iso topology mesh
  = fold_left (fun st c => voxelBody iso topology (i3x c) (i3y c) (i3z c) st)
              (sweep (dims m)) (mesh, clearPointToIndex m).
Proof.
  unfold BuildInternal, forRange, sweep.
  rewrite fold_left_flat_map. apply fold_left_ext. intros st z.
  rewrite fold_left_flat_map. apply fold_left_ext. intros st' y.
  rewrite fold_left_map. reflexivity.
Qed.
End Loops.

(** ** The driver *)

Section Driver.
Context {T : Type} `{VolumeDataType T}.

Lemma voxelBody_blocks (iso : T) (topology : Topology) (x y z : Z)
    (st : Mesh * Mesher T) :
  voxelBody iso topology x y z st
  = edgeFace AxisZ iso topology x y z
      (edgeFace AxisY iso topology x y z
        (edgeFace AxisX iso topology x y z st)).
Proof. reflexivity. Qed.

Lemma edgeFace_no_guard (a : Axis) (iso : T) (topology : Topology)
    (x y z : Z) (st : Mesh * Mesher T) :
  edgeGuard a x y z = false -> edgeFace a iso topology x y z st = st.
Proof.
  destruct st as [mesh m], a; cbn [edgeFace edgeGuard];
    unfold xEdgeFace, yEdgeFace, zEdgeFace; intros ->; reflexivity.
Qed.

Lemma edgeFace_no_crossing (a : Axis) (iso : T) (topology : Topology)
    (x y z : Z) (mesh : Mesh) (m : Mesher T) :
  edgeStatus a m iso x y z = (false, false) ->
  edgeFace a iso topology x y z (mesh, m) = (mesh, m).
Proof.
  destruct a; cbn [edgeFace edgeStatus];
    unfold xEdgeFace, yEdgeFace, zEdgeFace; intros ->;
    match goal with |- context [if ?g then _ else _] =>
      destruct g; reflexivity end.
Qed.

(** At a crossing the block is one [ConstructFace]; its condition is
    [entering] for the x edge and [exiting] for the y and z edges. *)
Lemma edgeFace_crossing (a : Axis) (iso : T) (topology : Topology)
    (x y z : Z) (mesh : Mesh) (m : Mesher T) (entering exiting : bool) :
  edgeGuard a x y z = true ->
  edgeStatus a m iso x y z = (entering, exiting) ->
  entering || exiting = true ->
  edgeFace a iso topology x y z (mesh, m)
  = ConstructFace m iso topology mesh
      (match a with AxisX => entering | _ => exiting end)
      (edgeCells a x y z) (edgeCodes a).
Proof.
  destruct a; cbn [edgeFace edgeStatus edgeGuard];
    unfold xEdgeFace, yEdgeFace, zEdgeFace; intros -> -> ->; reflexivity.
Qed.

Lemma edgeFace_cases (a : Axis) (iso : T) (topology : Topology)
    (x y z : Z) (mesh : Mesh) (m : Mesher T) :
  edgeFace a iso topology x y z (mesh, m) = (mesh, m)
  \/ exists cond,
       edgeFace a iso topology x y z (mesh, m)
       = ConstructFace m iso topology mesh cond
           (edgeCells a x y z) (edgeCodes a).
Proof.
  destruct (edgeGuard a x y z) eqn:Hg;
    [| left; apply edgeFace_no_guard; exact Hg].
  destruct (edgeStatus a m iso x y z) as [entering exiting] eqn:Hs.
  destruct (entering || exiting) eqn:Hc.
  - right. eexists. eapply edgeFace_crossing; eassumption.
  - left. apply orb_false_elim in Hc as [-> ->].
    apply edgeFace_no_crossing. exact Hs.
Qed.

Lemma ConstructFace_indices (m : Mesher T) (iso : T) (topology : Topology)
    (mesh : Mesh) (cond : bool) cells edges :
  exists i0 i1 i2 i3,
    indices (fst (ConstructFace m iso topology mesh cond cells edges))
    = indices mesh ++ faceIndices topology cond i0 i1 i2 i3.
Proof.
  unfold ConstructFace.
  destruct (sharedIndices m iso cells edges (vertices mesh))
    as [[[[[i0 i1] i2] i3] vs] m'].
  exists i0, i1, i2, i3. reflexivity.
Qed.

Lemma lt_ge_false (a b : T) : ge a b && lt a b = false.
Proof.
  destruct (lt a b) eqn:Hlt; [| apply andb_false_r].
  rewrite (lt_not_ge _ _ Hlt). reflexivity.
Qed.
End Driver.

Section DriverProperties.
Context {T : Type} `{VolumeDataType T}.

Lemma GetStatus_not_both (m : Mesher T) (iso : T) (x y z dx dy dz : Z) :
  fst (GetStatus m iso x y z dx dy dz)
  && snd (GetStatus m iso x y z dx dy dz) = false.
Proof.
  unfold GetStatus; simpl.
  set (a := sample m x y z). set (b := sample m (x + dx) (y + dy) (z + dz)).
  pose proof (lt_ge_false a iso) as Ha.
  destruct (ge a iso), (lt a iso); try discriminate; simpl;
    try reflexivity; apply andb_false_r.
Qed.

(** C9: [GetStatus] never reports a grid edge as both entering and
    exiting; and since the block of the loop body for an edge appends
    either nothing or the indices of one face, and the sweep visits no
    voxel twice, each grid edge produces at most one face per sweep. *)
Theorem GetStatus_exclusive :
  (forall (m : Mesher T) (iso : T) (x y z xOffset yOffset zOffset : Z),
      fst (GetStatus m iso x y z xOffset yOffset zOffset)
      && snd (GetStatus m iso x y z xOffset yOffset zOffset) = false)
  /\ (forall (a : Axis) (iso : T) (topology : Topology) (x y z : Z)
             (mesh : Mesh) (m : Mesher T),
        let mesh' := fst (edgeFace a iso topology x y z (mesh, m)) in
        indices mesh' = indices mesh
        \/ exists cond i0 i1 i2 i3,
             indices mesh'
             = indices mesh ++ faceIndices topology cond i0 i1 i2 i3)
  /\ (forall (m : Mesher T) (iso : T) (topology : Topology) (mesh : Mesh),
        BuildInternal m iso topology mesh
        = fold_left
            (fun st c => voxelBody iso topology (i3x c) (i3y c) (i3z c) st)
            (sweep (dims m)) (mesh, clearPointToIndex m)
        /\ List.NoDup (sweep (dims m))).
Proof.
  split; [exact GetStatus_not_both | split].
  - intros a iso topology x y z mesh m mesh'. subst mesh'.
    destruct (edgeFace_cases a iso topology x y z mesh m) as [-> | [cond ->]].
    + left. reflexivity.
    + right. exists cond. apply ConstructFace_indices.
  - intros m iso topology mesh. split;
      [apply BuildInternal_sweep | apply NoDup_sweep].
Qed.

(** C8, amended: the sweep visits exactly the voxels whose coordinate
    components lie between 0 and dims-3 on their axes, dims-2
    coordinates per axis; the block for the edge along an axis changes
    the state (generates a face) only if the two other components of
    the voxel are at least 1; the four cells of such a face have every
    component between 0 and dims-3. *)
Theorem sweep_range (m : Mesher T) (iso : T) (topology : Topology)
    (mesh : Mesh) :
  BuildInternal m iso topology mesh
  = fold_left
      (fun st c => voxelBody iso topology (i3x c) (i3y c) (i3z c) st)
      (sweep (dims m)) (mesh, clearPointToIndex m)
  /\ (forall c, In c (sweep (dims m)) <->
        0 <= i3x c <= i3x (dims m) - 3
        /\ 0 <= i3y c <= i3y (dims m) - 3
        /\ 0 <= i3z c <= i3z (dims m) - 3)
  /\ (length (seqZ 0 (i3x (dims m) - 2)) = Z.to_nat (i3x (dims m) - 2)
      /\ length (seqZ 0 (i3y (dims m) - 2)) = Z.to_nat (i3y (dims m) - 2)
      /\ length (seqZ 0 (i3z (dims m) - 2)) = Z.to_nat (i3z (dims m) - 2))
  /\ (forall a x y z st,
        edgeFace a iso topology x y z st <> st ->
        match a with
        | AxisX => 1 <= y /\ 1 <= z
        | AxisY => 1 <= x /\ 1 <= z
        | AxisZ => 1 <= x /\ 1 <= y
        end)
  /\ (forall a c cell,
        In c (sweep (dims m)) ->
        edgeGuard a (i3x c) (i3y c) (i3z c) = true ->
        In cell (cellsOf (edgeCells a (i3x c) (i3y c) (i3z c))) ->
        0 <= i3x cell <= i3x (dims m) - 3
        /\ 0 <= i3y cell <= i3y (dims m) - 3
        /\ 0 <= i3z cell <= i3z (dims m) - 3).
Proof.
  split; [apply BuildInternal_sweep |].
  split; [intros c; apply In_sweep |].
  split; [repeat split; apply length_seqZ |].
  split.
  - intros a x y z st Hne.
    destruct (edgeGuard a x y z) eqn:Hg.
    + destruct a; simpl in Hg; apply andb_prop in Hg as [H1 H2];
        apply Z.gtb_lt in H1, H2; lia.
    + exfalso. apply Hne. apply edgeFace_no_guard. exact Hg.
  - intros a c cell Hc Hg Hcell. apply In_sweep in Hc.
    destruct a; simpl in Hg; apply andb_prop in Hg as [H1 H2];
      apply Z.gtb_lt in H1, H2; simpl in Hcell;
      repeat (destruct Hcell as [<- | Hcell]; [simpl; lia |]);
      contradiction.
Qed.

Lemma gA_in_range (m : Mesher T) (x y z : Z) :
  0 <= x < i3x (dims m) -> 0 <= y < i3y (dims m) -> 0 <= z < i3z (dims m) ->
  0 <= gA m x y z < i3x (dims m) * i3y (dims m) * i3z (dims m).
Proof.
  unfold gA. set (dx := i3x (dims m)). set (dy := i3y (dims m)).
  set (dz := i3z (dims m)). intros Hx Hy Hz.
  assert (0 <= y + dy * z <= dy * dz - 1) by nia.
  nia.
Qed.

Lemma i32_small (n : Z) : - 2 ^ 31 <= n < 2 ^ 31 -> i32 n = n.
Proof.
  intros Hn. unfold i32. rewrite Z.mod_small by lia. lia.
Qed.

Lemma gA_int32_exact (m : Mesher T) (x y z : Z) :
  noOverflow (dims m) ->
  0 <= x < i3x (dims m) -> 0 <= y < i3y (dims m) -> 0 <= z < i3z (dims m) ->
  gA_int32 m x y z = gA m x y z.
Proof.
  unfold noOverflow, gA_int32, gA.
  set (dx := i3x (dims m)). set (dy := i3y (dims m)).
  set (dz := i3z (dims m)). intros [Hxy Hxyz] Hx Hy Hz.
  assert (Hyz : 0 <= dy * z <= dy * dz - dy) by nia.
  assert (Hcap : dy * dz <= dx * dy * dz) by nia.
  assert (Hrow : 0 <= y + dy * z <= dy * dz - 1) by lia.
  assert (Hprod : 0 <= dx * (y + dy * z) <= dx * dy * dz - dx) by nia.
  rewrite (i32_small (dy * z)) by lia.
  rewrite (i32_small (y + dy * z)) by lia.
  rewrite (i32_small (dx * (y + dy * z))) by lia.
  apply i32_small. lia.
Qed.

Lemma buildAsserts_int32_exact (data : span T) (dimension : int3) :
  noOverflow dimension ->
  buildAsserts_int32 data dimension = buildAsserts data dimension.
Proof.
  unfold noOverflow, buildAsserts_int32, buildAsserts.
  intros [Hxy Hxyz].
  destruct (i3x dimension <? 0) eqn:Ex; [reflexivity |].
  destruct (i3y dimension <? 0) eqn:Ey; [reflexivity |].
  destruct (i3z dimension <? 0) eqn:Ez; [reflexivity |].
  apply Z.ltb_ge in Ex, Ey, Ez.
  assert (H0 : 0 <= i3x dimension * i3y dimension) by nia.
  assert (H1 : 0 <= i3x dimension * i3y dimension * i3z dimension) by nia.
  rewrite (i32_small (i3x dimension * i3y dimension)) by lia.
  rewrite (i32_small (i3x dimension * i3y dimension * i3z dimension)) by lia.
  unfold size_t. rewrite Z.mod_small by lia. reflexivity.
Qed.

(** Once the assertions of [Build] hold, the 32-bit id of a coordinate
    of the volume is an offset of the span. *)
Lemma gA_int32_in_span (m : Mesher T) (x y z : Z) :
  noOverflow (dims m) ->
  buildAsserts_int32 (volume m) (dims m) = true ->
  0 <= x < i3x (dims m) -> 0 <= y < i3y (dims m) -> 0 <= z < i3z (dims m) ->
  0 <= gA_int32 m x y z < span_size (volume m).
Proof.
  intros Hno Ha Hx Hy Hz. rewrite gA_int32_exact by assumption.
  rewrite buildAsserts_int32_exact in Ha by exact Hno.
  unfold buildAsserts in Ha.
  apply andb_prop in Ha as [_ Hsize]. apply Z.geb_le in Hsize.
  pose proof (gA_in_range m x y z Hx Hy Hz). lia.
Qed.



End DriverProperties.

(** ** The vertex cache *)

Section Cache.
Context {T : Type} `{VolumeDataType T}.

Lemma sameVolume_refl (m : Mesher T) : sameVolume m m.
Proof. repeat split. Qed.

Lemma sameVolume_trans (m1 m2 m3 : Mesher T) :
  sameVolume m1 m2 -> sameVolume m2 m3 -> sameVolume m1 m3.
Proof.
  intros (Hd & Hv & Hg) (Hd' & Hv' & Hg').
  repeat split; congruence.
Qed.

Lemma sameVolume_set (m : Mesher T) (key : DualPointKey) (id : Z) :
  sameVolume m (setPointToIndex m key id).
Proof. repeat split. Qed.

Lemma CalculateDualPoint_sameVolume (m m' : Mesher T) cell (iso : T) code :
  sameVolume m m' ->
  CalculateDualPoint m' cell iso code = CalculateDualPoint m cell iso code.
Proof.
  destruct m, m'. intros (Hd & Hv & _). simpl in Hd, Hv. subst.
  reflexivity.
Qed.

Lemma gAcell_sameVolume (m m' : Mesher T) cell :
  sameVolume m m' -> gAcell m' cell = gAcell m cell.
Proof.
  intros (Hd & _). unfold gAcell, gA. rewrite Hd. reflexivity.
Qed.

(** The two outcomes of a request. *)
Lemma GetSharedDualPointIndex_cases (m : Mesher T) cell (iso : T) edge
    (vs : list Vertex) :
  let key := mkKey (gAcell m cell) (GetDualPointCode m cell iso edge) in
  (exists i, pointToIndex m !! key = Some i
     /\ GetSharedDualPointIndex m cell iso edge vs = (i, vs, m))
  \/ (pointToIndex m !! key = None
      /\ GetSharedDualPointIndex m cell iso edge vs
         = (u32 (Z.of_nat (length vs)),
            vs ++ [CalculateDualPoint m cell iso (pointCode key)],
            setPointToIndex m key (u32 (Z.of_nat (length vs))))).
Proof.
  intros key. unfold GetSharedDualPointIndex. fold key.
  destruct (pointToIndex m !! key) as [i |] eqn:Hk.
  - left. exists i. split; reflexivity.
  - right. split; reflexivity.
Qed.

Lemma continues_refl (st : list Vertex * Mesher T) : continues st st.
Proof. repeat split; reflexivity. Qed.

Lemma continues_trans (st1 st2 st3 : list Vertex * Mesher T) :
  continues st1 st2 -> continues st2 st3 -> continues st1 st3.
Proof.
  intros (Hp & Hm & Hv) (Hp' & Hm' & Hv'). split; [| split].
  - etransitivity; eassumption.
  - etransitivity; eassumption.
  - eapply sameVolume_trans; eassumption.
Qed.

Lemma GetSharedDualPointIndex_continues (m : Mesher T) cell (iso : T) edge
    (vs : list Vertex) i vs' m' :
  GetSharedDualPointIndex m cell iso edge vs = (i, vs', m') ->
  continues (vs, m) (vs', m').
Proof.
  intros Heq.
  destruct (GetSharedDualPointIndex_cases m cell iso edge vs)
    as [(j & _ & Hhit) | (Hnone & Hmiss)].
  - rewrite Hhit in Heq. injection Heq as <- <- <-. apply continues_refl.
  - rewrite Hmiss in Heq. injection Heq as <- <- <-. split; [| split]; simpl.
    + apply prefix_app_r. reflexivity.
    + apply insert_subseteq. exact Hnone.
    + apply sameVolume_set.
Qed.

(** A property of the vertex sequence and the mesher that every request
    preserves is preserved by the four requests of a face. *)
Lemma sharedIndices_preserves (P : list Vertex -> Mesher T -> Prop)
    (iso : T) :
  (forall m cell edge vs i vs' m',
      GetSharedDualPointIndex m cell iso edge vs = (i, vs', m') ->
      P vs m -> P vs' m') ->
  forall m cells edges vs ids vs' m',
    sharedIndices m iso cells edges vs = (ids, vs', m') ->
    P vs m -> P vs' m'.
Proof.
  intros Hstep m [[[c0 c1] c2] c3] [[[e0 e1] e2] e3] vs ids vs' m'.
  unfold sharedIndices.
  destruct (GetSharedDualPointIndex m c0 iso e0 vs) as [[i0 vs0] m0] eqn:E0.
  destruct (GetSharedDualPointIndex m0 c1 iso e1 vs0) as [[i1 vs1] m1] eqn:E1.
  destruct (GetSharedDualPointIndex m1 c2 iso e2 vs1) as [[i2 vs2] m2] eqn:E2.
  destruct (GetSharedDualPointIndex m2 c3 iso e3 vs2) as [[i3 vs3] m3] eqn:E3.
  intros Heq HP. injection Heq as _ <- <-.
  eapply Hstep; [exact E3 |]. eapply Hstep; [exact E2 |].
  eapply Hstep; [exact E1 |]. eapply Hstep; [exact E0 |]. exact HP.
Qed.

Lemma edgeFace_preserves (iso : T) (topology : Topology) P a x y z st :
  faceClosed iso topology P -> P st -> P (edgeFace a iso topology x y z st).
Proof.
  intros Hclosed HP. destruct st as [mesh m].
  destruct (edgeFace_cases a iso topology x y z mesh m) as [-> | [cond ->]].
  - exact HP.
  - apply Hclosed. exact HP.
Qed.

Lemma voxelBody_preserves (iso : T) (topology : Topology) P x y z st :
  faceClosed iso topology P -> P st -> P (voxelBody iso topology x y z st).
Proof.
  intros Hclosed HP. rewrite voxelBody_blocks.
  repeat apply edgeFace_preserves; assumption.
Qed.

Lemma voxels_preserve (iso : T) (topology : Topology) P
    (l : list int3) st :
  faceClosed iso topology P -> P st ->
  P (fold_left
       (fun st c => voxelBody iso topology (i3x c) (i3y c) (i3z c) st) l st).
Proof.
  intros Hclosed HP. apply fold_left_invariant; [exact HP |].
  intros c st' _ HP'. apply voxelBody_preserves; assumption.
Qed.

Lemma BuildInternal_preserves (iso : T) (topology : Topology) P m mesh :
  faceClosed iso topology P -> P (mesh, clearPointToIndex m) ->
  P (BuildInternal m iso topology mesh).
Proof.
  intros Hclosed HP. rewrite BuildInternal_sweep.
  apply voxels_preserve; assumption.
Qed.

(** Lifting from requests to faces, for properties that do not read the
    index sequence. *)
Lemma faceClosed_of_requests (iso : T) (topology : Topology)
    (P : list Vertex -> Mesher T -> Prop) :
  (forall m cell edge vs i vs' m',
      GetSharedDualPointIndex m cell iso edge vs = (i, vs', m') ->
      P vs m -> P vs' m') ->
  faceClosed iso topology (fun st => P (vertices (fst st)) (snd st)).
Proof.
  intros Hstep m mesh cond cells edges HP. unfold ConstructFace.
  destruct (sharedIndices m iso cells edges (vertices mesh))
    as [[[[[i0 i1] i2] i3] vs] m'] eqn:E. simpl.
  eapply (sharedIndices_preserves P iso Hstep); [exact E | exact HP].
Qed.

(** Recorded mappings and created vertices persist. *)
Lemma voxels_continue (iso : T) (topology : Topology) (l : list int3) st :
  let st' := fold_left
    (fun st c => voxelBody iso topology (i3x c) (i3y c) (i3z c) st) l st in
  continues (vertices (fst st), snd st) (vertices (fst st'), snd st').
Proof.
  apply (voxels_preserve iso topology
    (fun st' => continues (vertices (fst st), snd st)
                          (vertices (fst st'), snd st'))).
  - apply (faceClosed_of_requests iso topology
      (fun vs m => continues (vertices (fst st), snd st) (vs, m))).
    intros m cell edge vs i vs' m' Heq Hc.
    eapply continues_trans; [exact Hc |].
    eapply GetSharedDualPointIndex_continues. exact Heq.
  - apply continues_refl.
Qed.

Lemma keysOf_request (iso : T) (m : Mesher T) cell edge
    (vs : list Vertex) i vs' m' (ks : list DualPointKey) :
  GetSharedDualPointIndex m cell iso edge vs = (i, vs', m') ->
  keysOf iso ks vs m ->
  exists ks', keysOf iso ks' vs' m'.
Proof.
  intros Heq (Hlen & Hnd & Hdom & Hat).
  destruct (GetSharedDualPointIndex_cases m cell iso edge vs)
    as [(j & _ & Hhit) | (Hnone & Hmiss)].
  { rewrite Hhit in Heq. injection Heq as <- <- <-.
    exists ks. exact (conj Hlen (conj Hnd (conj Hdom Hat))). }
  rewrite Hmiss in Heq. injection Heq as <- <- <-.
  set (key := mkKey (gAcell m cell) (GetDualPointCode m cell iso edge)) in *.
  set (id := u32 (Z.of_nat (length vs))).
  assert (Hfresh : key ∉ ks).
  { intros Hin. apply Hdom in Hin as [v Hv]. congruence. }
  exists (ks ++ [key]). split; [| split; [| split]].
  - rewrite !length_app. simpl. lia.
  - apply NoDup_app. split; [exact Hnd | split].
    + intros k Hk Hk'. apply list_elem_of_singleton in Hk'. subst k.
      contradiction.
    + apply NoDup_singleton.
  - intros k. simpl. rewrite elem_of_app, list_elem_of_singleton.
    rewrite lookup_insert_is_Some, Hdom.
    split.
    + intros [Hk | ->]; [| left; reflexivity].
      destruct (decide (key = k)) as [-> | Hne]; [left | right]; auto.
    + intros [-> | [_ Hk]]; [right | left]; auto.
  - intros n k Hn.
    destruct (decide (n < length ks)%nat) as [Hlt | Hge].
    + rewrite lookup_app_l in Hn by exact Hlt.
      destruct (Hat n k Hn) as (Hmap & c & Hc & Hv).
      assert (Hne : key <> k).
      { intros <-. apply Hfresh. eapply list_elem_of_lookup_2. exact Hn. }
      split.
      * simpl. rewrite lookup_insert_ne by exact Hne. exact Hmap.
      * exists c. split; [exact Hc |].
        rewrite lookup_app_l by lia. exact Hv.
    + rewrite lookup_app_r in Hn by lia.
      destruct (n - length ks)%nat as [| n'] eqn:Hd; [| discriminate Hn].
      injection Hn as <-.
      assert (n = length vs) by lia. subst n.
      split.
      * simpl. apply lookup_insert_eq.
      * exists cell. split; [reflexivity |].
        rewrite lookup_app_r by lia. rewrite Nat.sub_diag. reflexivity.
Qed.

Lemma keysOf_BuildInternal (iso : T) (topology : Topology) (m : Mesher T) :
  let st := BuildInternal m iso topology (mkMesh [] []) in
  exists ks, keysOf iso ks (vertices (fst st)) (snd st).
Proof.
  apply (BuildInternal_preserves iso topology
    (fun st => exists ks, keysOf iso ks (vertices (fst st)) (snd st))).
  - apply (faceClosed_of_requests iso topology
      (fun vs m => exists ks, keysOf iso ks vs m)).
    intros m0 cell edge vs i vs' m' Heq [ks Hks].
    eapply keysOf_request; eassumption.
  - exists []. split; [reflexivity | split; [apply NoDup_nil_2 | split]].
    + intros k. simpl. rewrite lookup_empty. split.
      * intros Hk. apply elem_of_nil in Hk. contradiction.
      * intros [v Hv]. discriminate.
    + intros n k Hn. discriminate.
Qed.

Lemma u32_range (n : Z) : 0 <= u32 n < 2 ^ 32.
Proof. unfold u32. apply Z.mod_pos_bound. reflexivity. Qed.

Lemma u32_le (n : Z) : 0 <= n -> u32 n <= n.
Proof. intros Hn. unfold u32. apply Z.mod_le; [exact Hn | reflexivity]. Qed.

Lemma u32_small (n : Z) : 0 <= n < 2 ^ 32 -> u32 n = n.
Proof. intros Hn. unfold u32. apply Z.mod_small. exact Hn. Qed.

(** C4: during one extraction each [DualPointKey] is mapped to exactly
    one vertex.  The first request for a key appends one vertex, returns
    the vertex count at that moment as its index (through the cast to
    [uint32_t], which is the identity on the counts that type holds) and
    records the mapping; a request for a recorded key returns the
    recorded index and changes nothing; a recorded mapping and a created
    vertex survive every later pass of the sweep; and in the result of
    [Build] the vertices carry pairwise distinct keys, which are exactly
    the keys of the cache, each mapped to the position of its vertex. *)
Theorem shared_dual_point_once :
  (forall (m : Mesher T) cell (iso : T) edge (vs : list Vertex),
      let key := mkKey (gAcell m cell) (GetDualPointCode m cell iso edge) in
      let count := Z.of_nat (length vs) in
      match pointToIndex m !! key with
      | None =>
          GetSharedDualPointIndex m cell iso edge vs
          = (u32 count,
             vs ++ [CalculateDualPoint m cell iso (pointCode key)],
             setPointToIndex m key (u32 count))
          /\ pointToIndex (setPointToIndex m key (u32 count)) !! key
             = Some (u32 count)
          /\ (count < 2 ^ 32 -> u32 count = count)
      | Some i => GetSharedDualPointIndex m cell iso edge vs = (i, vs, m)
      end)
  /\ (forall (iso : T) (topology : Topology) (l : list int3)
             (st : Mesh * Mesher T),
        let st' := fold_left
          (fun st c => voxelBody iso topology (i3x c) (i3y c) (i3z c) st)
          l st in
        (forall k i, pointToIndex (snd st) !! k = Some i ->
                     pointToIndex (snd st') !! k = Some i)
        /\ vertices (fst st) `prefix_of` vertices (fst st'))
  /\ (forall (self : Mesher T) data dimension (iso : T) generateManifold
             topology mesh m',
        Build self data dimension iso generateManifold topology
        = Some (mesh, m') ->
        exists ks,
          keysOf iso ks (vertices mesh) m'
          /\ (Z.of_nat (length (vertices mesh)) <= 2 ^ 32 ->
              forall (i : nat) k, ks !! i = Some k ->
                pointToIndex m' !! k = Some (Z.of_nat i))).
Proof.
  split; [| split].
  - intros m cell iso edge vs key count.
    destruct (GetSharedDualPointIndex_cases m cell iso edge vs)
      as [(j & Hk & Hhit) | (Hnone & Hmiss)]; fold key in Hk || fold key in Hnone.
    + rewrite Hk. exact Hhit.
    + rewrite Hnone. split; [exact Hmiss | split].
      * simpl. apply lookup_insert_eq.
      * intros Hsmall. apply u32_small. subst count. lia.
  - intros iso topology l st st'.
    destruct (voxels_continue iso topology l st) as (Hp & Hm & _).
    split; [| exact Hp].
    intros k i Hk. simpl in Hm.
    eapply lookup_weaken; [exact Hk | exact Hm].
  - intros self data dimension iso generateManifold topology mesh m'.
    unfold Build. destruct (buildAsserts data dimension); [| discriminate].
    intros Heq. injection Heq as Heq.
    pose proof (keysOf_BuildInternal iso topology
      (mkMesher dimension data generateManifold (pointToIndex self))) as Hk.
    simpl in Hk. rewrite Heq in Hk. destruct Hk as [ks Hks].
    cbn [fst snd] in Hks.
    exists ks. split; [exact Hks |].
    intros Hfit i k Hi. destruct Hks as (Hlen & _ & _ & Hat).
    destruct (Hat i k Hi) as [Hmap _]. rewrite Hmap. f_equal.
    apply lookup_lt_Some in Hi. apply u32_small. lia.
Qed.
End Cache.

(** ** Reads stay inside the span *)

Section Reads.
Context {T : Type} `{VolumeDataType T}.

Lemma sample_same (m m' : Mesher T) (x y z : Z) :
  sameRun m m' ->
  0 <= x < i3x (dims m) -> 0 <= y < i3y (dims m) -> 0 <= z < i3z (dims m) ->
  sample m' x y z = sample m x y z.
Proof.
  intros (Hd & _ & _ & (_ & Hat) & Hsize) Hx Hy Hz.
  unfold sample, gA. rewrite Hd. apply Hat.
  pose proof (gA_in_range m x y z Hx Hy Hz) as Hr. unfold gA in Hr. lia.
Qed.

Lemma GetStatus_same (m m' : Mesher T) (iso : T) (x y z dx dy dz : Z) :
  sameRun m m' ->
  0 <= x -> 0 <= y -> 0 <= z -> 0 <= dx -> 0 <= dy -> 0 <= dz ->
  x + dx < i3x (dims m) -> y + dy < i3y (dims m) -> z + dz < i3z (dims m) ->
  GetStatus m' iso x y z dx dy dz = GetStatus m iso x y z dx dy dz.
Proof.
  intros Hrun ? ? ? ? ? ? ? ? ?. unfold GetStatus.
  rewrite !(sample_same m m') by (assumption || lia). reflexivity.
Qed.

Lemma GetCellCode_same (m m' : Mesher T) (cell : int3) (iso : T) :
  sameRun m m' -> cellInVolume (dims m) cell ->
  GetCellCode m' cell iso = GetCellCode m cell iso.
Proof.
  intros Hrun (Hx & Hy & Hz). unfold GetCellCode.
  rewrite !(sample_same m m') by (assumption || lia). reflexivity.
Qed.

Lemma cellInVolume_set3 (d cell : int3) (component v : Z) :
  cellInVolume d cell ->
  (v >=? 0) && (v <? at3 d component - 1) = true ->
  cellInVolume d (set3 cell component v).
Proof.
  intros (Hx & Hy & Hz) Hv. apply andb_prop in Hv as [H0 H1].
  apply Z.geb_le in H0. apply Z.ltb_lt in H1.
  destruct component as [| [[| | ] | [| | ] | ] | ]; try (repeat split; assumption);
    cbn [at3 set3] in *; repeat split; cbn [i3x i3y i3z]; lia.
Qed.

Lemma manifoldCubeCode_same (m m' : Mesher T) (cell : int3) (iso : T) :
  sameRun m m' -> cellInVolume (dims m) cell ->
  manifoldCubeCode m' cell iso = manifoldCubeCode m cell iso.
Proof.
  intros Hrun Hcell. unfold manifoldCubeCode. cbv zeta.
  pose proof Hrun as (Hd & Hg & _).
  rewrite Hg, Hd, (GetCellCode_same m m' cell iso Hrun Hcell).
  destruct (generateManifold m); [| reflexivity].
  set (direction := problematicConfig (u8 (GetCellCode m cell iso))).
  destruct (negb (direction =? 255)); [| reflexivity].
  set (neighbor := set3 cell _ _).
  destruct ((at3 neighbor (Z.shiftr direction 1) >=? 0) && _) eqn:Hin;
    [| reflexivity].
  rewrite (GetCellCode_same m m' neighbor iso Hrun); [reflexivity |].
  subst neighbor.
  set (component := Z.shiftr direction 1) in *.
  set (v := at3 cell component + _) in *.
  destruct (decide (0 <= component <= 2)) as [Hc | Hc].
  - apply cellInVolume_set3; [exact Hcell |].
    replace (at3 (set3 cell component v) component) with v in Hin;
      [exact Hin |].
    assert (Hcases : component = 0 \/ component = 1 \/ component = 2) by lia.
    destruct Hcases as [-> | [-> | ->]]; reflexivity.
  - replace (set3 cell component v) with cell; [exact Hcell |].
    destruct component as [| [[| | ] | [| | ] | ] | ]; try reflexivity; lia.
Qed.

Lemma GetDualPointCode_same (m m' : Mesher T) (cell : int3) (iso : T)
    (edge : Z) :
  sameRun m m' -> cellInVolume (dims m) cell ->
  GetDualPointCode m' cell iso edge = GetDualPointCode m cell iso edge.
Proof.
  intros Hrun Hcell. unfold GetDualPointCode.
  rewrite (manifoldCubeCode_same m m' cell iso Hrun Hcell). reflexivity.
Qed.

Lemma CalculateDualPoint_same (m m' : Mesher T) (cell : int3) (iso : T)
    (code : Z) :
  sameRun m m' -> cellInVolume (dims m) cell ->
  CalculateDualPoint m' cell iso code = CalculateDualPoint m cell iso code.
Proof.
  intros Hrun (Hx & Hy & Hz). unfold CalculateDualPoint, sumEdgePoints.
  cbv zeta.
  rewrite !(sample_same m m') by (assumption || lia). reflexivity.
Qed.

Lemma sameRun_set (m m' : Mesher T) (key : DualPointKey) (id : Z) :
  sameRun m m' ->
  sameRun (setPointToIndex m key id) (setPointToIndex m' key id).
Proof.
  intros (Hd & Hg & Hp & Hs & Hsize).
  repeat split; simpl; try assumption; try apply Hs.
  rewrite Hp. reflexivity.
Qed.

Lemma GetSharedDualPointIndex_same (m m' : Mesher T) (cell : int3) (iso : T)
    (edge : Z) (vs : list Vertex) :
  sameRun m m' -> cellInVolume (dims m) cell ->
  let r := GetSharedDualPointIndex m cell iso edge vs in
  let r' := GetSharedDualPointIndex m' cell iso edge vs in
  fst (fst r') = fst (fst r) /\ snd (fst r') = snd (fst r)
  /\ sameRun (snd r) (snd r').
Proof.
  intros Hrun Hcell. unfold GetSharedDualPointIndex. cbv zeta.
  rewrite (GetDualPointCode_same m m' cell iso edge Hrun Hcell).
  assert (Hid : gAcell m' cell = gAcell m cell).
  { unfold gAcell, gA. destruct Hrun as (-> & _). reflexivity. }
  assert (Hp : pointToIndex m' = pointToIndex m) by apply Hrun.
  rewrite Hid, Hp.
  destruct (pointToIndex m !! _) as [i |]; cbn [fst snd pointCode].
  - repeat split; try reflexivity; apply Hrun.
  - rewrite (CalculateDualPoint_same m m' cell iso _ Hrun Hcell).
    split; [reflexivity | split; [reflexivity |]].
    apply sameRun_set. exact Hrun.
Qed.

Lemma sameRun_dims (m m' : Mesher T) : sameRun m m' -> dims m' = dims m.
Proof. intros (Hd & _). exact Hd. Qed.

Lemma continues_dims (m : Mesher T) cell (iso : T) edge vs :
  dims (snd (GetSharedDualPointIndex m cell iso edge vs)) = dims m.
Proof.
  destruct (GetSharedDualPointIndex m cell iso edge vs) as [[i vs'] m'] eqn:E.
  apply GetSharedDualPointIndex_continues in E as (_ & _ & Hd & _).
  exact Hd.
Qed.

Lemma sharedIndices_same (m m' : Mesher T) (iso : T) cells edges
    (vs : list Vertex) :
  sameRun m m' ->
  Forall (cellInVolume (dims m)) (cellsOf cells) ->
  let r := sharedIndices m iso cells edges vs in
  let r' := sharedIndices m' iso cells edges vs in
  fst (fst r') = fst (fst r) /\ snd (fst r') = snd (fst r)
  /\ sameRun (snd r) (snd r').
Proof.
  destruct cells as [[[c0 c1] c2] c3], edges as [[[e0 e1] e2] e3].
  intros Hrun Hcells. cbn [cellsOf] in Hcells.
  apply Forall_cons in Hcells as [H0 Hcells].
  apply Forall_cons in Hcells as [H1 Hcells].
  apply Forall_cons in Hcells as [H2 Hcells].
  apply Forall_cons in Hcells as [H3 _].
  unfold sharedIndices.
  pose proof (GetSharedDualPointIndex_same m m' c0 iso e0 vs Hrun H0) as S0.
  pose proof (continues_dims m c0 iso e0 vs) as D0.
  destruct (GetSharedDualPointIndex m c0 iso e0 vs) as [[i0 vs0] m0].
  destruct (GetSharedDualPointIndex m' c0 iso e0 vs) as [[i0' vs0'] m0'].
  cbn [fst snd] in S0, D0. destruct S0 as (-> & -> & Hrun0).
  rewrite <- D0 in H1, H2, H3.
  pose proof (GetSharedDualPointIndex_same m0 m0' c1 iso e1 vs0 Hrun0 H1) as S1.
  pose proof (continues_dims m0 c1 iso e1 vs0) as D1.
  destruct (GetSharedDualPointIndex m0 c1 iso e1 vs0) as [[i1 vs1] m1].
  destruct (GetSharedDualPointIndex m0' c1 iso e1 vs0) as [[i1' vs1'] m1'].
  cbn [fst snd] in S1, D1. destruct S1 as (-> & -> & Hrun1).
  rewrite <- D1 in H2, H3.
  pose proof (GetSharedDualPointIndex_same m1 m1' c2 iso e2 vs1 Hrun1 H2) as S2.
  pose proof (continues_dims m1 c2 iso e2 vs1) as D2.
  destruct (GetSharedDualPointIndex m1 c2 iso e2 vs1) as [[i2 vs2] m2].
  destruct (GetSharedDualPointIndex m1' c2 iso e2 vs1) as [[i2' vs2'] m2'].
  cbn [fst snd] in S2, D2. destruct S2 as (-> & -> & Hrun2).
  rewrite <- D2 in H3.
  pose proof (GetSharedDualPointIndex_same m2 m2' c3 iso e3 vs2 Hrun2 H3) as S3.
  destruct (GetSharedDualPointIndex m2 c3 iso e3 vs2) as [[i3 vs3] m3].
  destruct (GetSharedDualPointIndex m2' c3 iso e3 vs2) as [[i3' vs3'] m3'].
  cbn [fst snd] in S3. destruct S3 as (-> & -> & Hrun3).
  cbn [fst snd]. split; [reflexivity | split; [reflexivity | exact Hrun3]].
Qed.

Lemma edgeCells_inVolume (a : Axis) (d c : int3) :
  In c (sweep d) -> edgeGuard a (i3x c) (i3y c) (i3z c) = true ->
  Forall (cellInVolume d) (cellsOf (edgeCells a (i3x c) (i3y c) (i3z c))).
Proof.
  intros Hc Hg. apply In_sweep in Hc.
  destruct a; simpl in Hg; apply andb_prop in Hg as [H1 H2];
    apply Z.gtb_lt in H1, H2; cbn [edgeCells cellsOf];
    repeat constructor; cbn [i3x i3y i3z]; lia.
Qed.

Lemma edgeFace_same (a : Axis) (iso : T) (topology : Topology) (c : int3)
    (st st' : Mesh * Mesher T) :
  sameState st st' -> In c (sweep (dims (snd st))) ->
  sameState (edgeFace a iso topology (i3x c) (i3y c) (i3z c) st)
            (edgeFace a iso topology (i3x c) (i3y c) (i3z c) st').
Proof.
  destruct st as [mesh m], st' as [mesh' m']. cbn [fst snd].
  intros [Hmesh Hrun] Hc. cbn [fst snd] in Hmesh, Hrun. subst mesh'.
  destruct (edgeGuard a (i3x c) (i3y c) (i3z c)) eqn:Hg;
    [| rewrite !edgeFace_no_guard by exact Hg; split; [reflexivity | exact Hrun]].
  pose proof (edgeCells_inVolume a _ c Hc Hg) as Hcells.
  assert (Hst : edgeStatus a m' iso (i3x c) (i3y c) (i3z c)
                = edgeStatus a m iso (i3x c) (i3y c) (i3z c)).
  { apply In_sweep in Hc.
    destruct a; cbn [edgeStatus]; apply GetStatus_same;
      try exact Hrun; lia. }
  destruct (edgeStatus a m iso (i3x c) (i3y c) (i3z c))
    as [entering exiting] eqn:Hs.
  destruct (entering || exiting) eqn:Hcross.
  - rewrite (edgeFace_crossing a iso topology _ _ _ mesh m _ _ Hg Hs Hcross).
    rewrite (edgeFace_crossing a iso topology _ _ _ mesh m' _ _ Hg Hst Hcross).
    unfold ConstructFace.
    pose proof (sharedIndices_same m m' iso _ (edgeCodes a) (vertices mesh)
                  Hrun Hcells) as Hsame.
    destruct (sharedIndices m iso _ _ _) as [[[[[i0 i1] i2] i3] vs] m1].
    destruct (sharedIndices m' iso _ _ _) as [[[[[j0 j1] j2] j3] vs'] m1'].
    cbn [fst snd] in Hsame. destruct Hsame as (Hi & -> & Hrun1).
    injection Hi as -> -> -> ->.
    split; [reflexivity | exact Hrun1].
  - apply orb_false_elim in Hcross as [-> ->].
    rewrite (edgeFace_no_crossing a iso topology _ _ _ mesh m Hs).
    rewrite (edgeFace_no_crossing a iso topology _ _ _ mesh m' Hst).
    split; [reflexivity | exact Hrun].
Qed.

Lemma edgeFace_dims (a : Axis) (iso : T) (topology : Topology) (x y z : Z)
    (st : Mesh * Mesher T) :
  dims (snd (edgeFace a iso topology x y z st)) = dims (snd st).
Proof.
  apply (edgeFace_preserves iso topology
    (fun st' => dims (snd st') = dims (snd st))); [| reflexivity].
  apply (faceClosed_of_requests iso topology
    (fun _ m => dims m = dims (snd st))).
  intros m cell edge vs i vs' m' Heq Hd.
  apply GetSharedDualPointIndex_continues in Heq as (_ & _ & Hd' & _).
  cbn [snd] in Hd'. congruence.
Qed.

(** X14: when dimX*dimY and dimX*dimY*dimZ are values of [int32_t], so
    that no id of [gA] wraps around, the mesh that [Build] returns
    depends on the samples inside the span only: two volumes of the same
    length with the same samples give the same mesh, so whatever lies
    outside the span is never read. *)
Lemma Build_reads_span (self : Mesher T) (data data' : span T)
    (dimension : int3) (iso : T) (generateManifold : bool)
    (topology : Topology) :
  noOverflow dimension ->
  sameSamples data data' ->
  option_map fst (Build self data' dimension iso generateManifold topology)
  = option_map fst (Build self data dimension iso generateManifold topology).
Proof.
  intros _ [Hsize Hat]. unfold Build, buildAsserts. rewrite Hsize.
  destruct (negb _ && negb _ && _) eqn:Hassert; [| reflexivity].
  cbn [option_map]. f_equal.
  apply andb_prop in Hassert as [_ Hfit]. apply Z.geb_le in Hfit.
  rewrite !BuildInternal_sweep. cbn [dims].
  set (m := clearPointToIndex (mkMesher dimension data _ _)).
  set (m' := clearPointToIndex (mkMesher dimension data' _ _)).
  assert (Hrun : sameRun m m').
  { repeat split; try reflexivity; assumption. }
  assert (Hfinal : let body := fun st c =>
              voxelBody iso topology (i3x c) (i3y c) (i3z c) st in
            sameState (fold_left body (sweep dimension) (mkMesh [] [], m))
                      (fold_left body (sweep dimension) (mkMesh [] [], m'))
            /\ dims (snd (fold_left body (sweep dimension) (mkMesh [] [], m)))
               = dimension).
  { apply (fold_left_related_In
      (fun st st' => sameState st st' /\ dims (snd st) = dimension)).
    - split; [split; [reflexivity | exact Hrun] | reflexivity].
    - intros c st st' Hc [Hst Hd]. rewrite !voxelBody_blocks.
      rewrite !edgeFace_dims. split; [| exact Hd].
      repeat apply edgeFace_same; try exact Hst;
        rewrite ?edgeFace_dims, Hd; exact Hc. }
  destruct Hfinal as [[Hmesh _] _]. exact Hmesh.
Qed.
End Reads.

(** ** The index sequence *)

Section Indices.
Context {T : Type} `{VolumeDataType T}.

Lemma request_in_range (m : Mesher T) cell (iso : T) edge
    (vs : list Vertex) i vs' m' :
  GetSharedDualPointIndex m cell iso edge vs = (i, vs', m') ->
  cacheInRange vs m ->
  cacheInRange vs' m' /\ 0 <= i < Z.of_nat (length vs')
  /\ (length vs <= length vs')%nat.
Proof.
  intros Heq Hin.
  destruct (GetSharedDualPointIndex_cases m cell iso edge vs)
    as [(j & Hk & Hhit) | (Hnone & Hmiss)].
  - rewrite Hhit in Heq. injection Heq as <- <- <-.
    split; [exact Hin | split; [eapply Hin; exact Hk | lia]].
  - rewrite Hmiss in Heq. injection Heq as <- <- <-.
    pose proof (u32_range (Z.of_nat (length vs))) as Hr.
    pose proof (u32_le (Z.of_nat (length vs)) ltac:(lia)) as Hle.
    rewrite length_app. simpl length.
    split; [| split; lia].
    intros k i. simpl. rewrite lookup_insert.
    destruct (decide (_ = k)).
    + intros [= <-]. rewrite length_app. simpl length. lia.
    + intros Hk. apply Hin in Hk. rewrite length_app. lia.
Qed.

Lemma sharedIndices_in_range (m : Mesher T) (iso : T) cells edges
    (vs : list Vertex) i0 i1 i2 i3 vs' m' :
  sharedIndices m iso cells edges vs = ((i0, i1, i2, i3), vs', m') ->
  cacheInRange vs m ->
  cacheInRange vs' m' /\ (length vs <= length vs')%nat
  /\ Forall (fun i => 0 <= i < Z.of_nat (length vs')) [i0; i1; i2; i3].
Proof.
  destruct cells as [[[c0 c1] c2] c3], edges as [[[e0 e1] e2] e3].
  unfold sharedIndices.
  destruct (GetSharedDualPointIndex m c0 iso e0 vs) as [[j0 vs0] m0] eqn:E0.
  destruct (GetSharedDualPointIndex m0 c1 iso e1 vs0) as [[j1 vs1] m1] eqn:E1.
  destruct (GetSharedDualPointIndex m1 c2 iso e2 vs1) as [[j2 vs2] m2] eqn:E2.
  destruct (GetSharedDualPointIndex m2 c3 iso e3 vs2) as [[j3 vs3] m3] eqn:E3.
  intros Heq Hin. injection Heq as <- <- <- <- <- <-.
  destruct (request_in_range _ _ _ _ _ _ _ _ E0 Hin) as (Hin0 & Hj0 & Hl0).
  destruct (request_in_range _ _ _ _ _ _ _ _ E1 Hin0) as (Hin1 & Hj1 & Hl1).
  destruct (request_in_range _ _ _ _ _ _ _ _ E2 Hin1) as (Hin2 & Hj2 & Hl2).
  destruct (request_in_range _ _ _ _ _ _ _ _ E3 Hin2) as (Hin3 & Hj3 & Hl3).
  split; [exact Hin3 | split; [lia |]].
  repeat constructor; lia.
Qed.

Lemma faceIndices_among (topology : Topology) (cond : bool)
    (i0 i1 i2 i3 : Z) (P : Z -> Prop) :
  Forall P [i0; i1; i2; i3] ->
  Forall P (faceIndices topology cond i0 i1 i2 i3).
Proof.
  intros HP.
  apply Forall_cons in HP as [H0 HP]. apply Forall_cons in HP as [H1 HP].
  apply Forall_cons in HP as [H2 HP]. apply Forall_cons in HP as [H3 _].
  destruct topology, cond; simpl; repeat constructor; assumption.
Qed.

Lemma indicesInRange_face (iso : T) (topology : Topology) :
  faceClosed iso topology indicesInRange.
Proof.
  intros m mesh cond cells edges [Hidx Hcache]. unfold ConstructFace.
  destruct (sharedIndices m iso cells edges (vertices mesh))
    as [[[[[i0 i1] i2] i3] vs] m'] eqn:E.
  destruct (sharedIndices_in_range _ _ _ _ _ _ _ _ _ _ _ E Hcache)
    as (Hcache' & Hlen & Hnew).
  split; simpl; [| exact Hcache'].
  apply Forall_app. split.
  - eapply Forall_impl; [exact Hidx |]. simpl. intros i Hi. lia.
  - apply faceIndices_among. exact Hnew.
Qed.

(** C10: every index of the mesh that [Build] returns is smaller than
    the number of vertices of that mesh, whatever the input, the
    manifold flag and the topology. *)
Theorem indices_name_vertices (self : Mesher T) (data : span T)
    (dimension : int3) (iso : T) (generateManifold : bool)
    (topology : Topology) :
  match Build self data dimension iso generateManifold topology with
  | Some (mesh, _) =>
      Forall (fun i => 0 <= i < Z.of_nat (length (vertices mesh)))
             (indices mesh)
  | None => buildAsserts data dimension = false
  end.
Proof.
  unfold Build. destruct (buildAsserts data dimension); [| reflexivity].
  set (m := mkMesher _ _ _ _).
  assert (Hin : indicesInRange (BuildInternal m iso topology (mkMesh [] []))).
  { apply BuildInternal_preserves; [apply indicesInRange_face |].
    split; [constructor |].
    intros k i Hk. simpl in Hk. rewrite lookup_empty in Hk. discriminate. }
  destruct (BuildInternal m iso topology (mkMesh [] [])) as [mesh m'].
  exact (proj1 Hin).
Qed.

Lemma faceIndices_length (topology : Topology) (cond : bool)
    (i0 i1 i2 i3 : Z) :
  length (faceIndices topology cond i0 i1 i2 i3)
  = match topology with Quads => 4%nat | Triangles => 6%nat end.
Proof. destruct topology, cond; reflexivity. Qed.

Lemma ConstructFace_inStep (m : Mesher T) (iso : T) (mq mt : Mesh)
    cond cells edges :
  inStep (mq, m) (mt, m) ->
  inStep (ConstructFace m iso Quads mq cond cells edges)
         (ConstructFace m iso Triangles mt cond cells edges).
Proof.
  intros (Hv & _ & n & Hq & Ht). cbn [fst] in Hv, Hq, Ht.
  unfold ConstructFace. rewrite Hv.
  destruct (sharedIndices m iso cells edges (vertices mt))
    as [[[[[i0 i1] i2] i3] vs] m'].
  split; [reflexivity | split; [reflexivity |]].
  exists (S n). cbn [fst indices].
  rewrite !length_app, !faceIndices_length. lia.
Qed.

Lemma edgeFace_inStep (a : Axis) (iso : T) (x y z : Z) sq st :
  inStep sq st ->
  inStep (edgeFace a iso Quads x y z sq)
         (edgeFace a iso Triangles x y z st).
Proof.
  destruct sq as [mq m], st as [mt m2]. intros Hs.
  assert (m = m2) by apply Hs. subst m2.
  destruct (edgeGuard a x y z) eqn:Hg;
    [| rewrite !edgeFace_no_guard by exact Hg; exact Hs].
  destruct (edgeStatus a m iso x y z) as [entering exiting] eqn:Hst.
  destruct (entering || exiting) eqn:Hc.
  - rewrite !(edgeFace_crossing a iso _ x y z _ m entering exiting Hg Hst Hc).
    apply ConstructFace_inStep. exact Hs.
  - apply orb_false_elim in Hc as [-> ->].
    rewrite !edgeFace_no_crossing by exact Hst. exact Hs.
Qed.

Lemma BuildInternal_inStep (m : Mesher T) (iso : T) :
  inStep (BuildInternal m iso Quads (mkMesh [] []))
         (BuildInternal m iso Triangles (mkMesh [] [])).
Proof.
  rewrite !BuildInternal_sweep. apply fold_left_related.
  - split; [reflexivity | split; [reflexivity |]].
    exists 0%nat. split; reflexivity.
  - intros c sq st Hs. rewrite !voxelBody_blocks.
    repeat apply edgeFace_inStep. exact Hs.
Qed.

(** C6: with Quads the number of indices is a multiple of 4, with
    Triangles a multiple of 3, and for the same volume, dimensions, iso
    and manifold flag the Triangles count is 1.5 times the Quads count
    (twice the one is three times the other); the vertices are the
    same. *)
Theorem index_count_by_topology (self : Mesher T) (data : span T)
    (dimension : int3) (iso : T) (generateManifold : bool) :
  match Build self data dimension iso generateManifold Quads,
        Build self data dimension iso generateManifold Triangles with
  | Some (quads, _), Some (triangles, _) =>
      (length (indices quads) mod 4 = 0)%nat
      /\ (length (indices triangles) mod 3 = 0)%nat
      /\ (2 * length (indices triangles) = 3 * length (indices quads))%nat
      /\ vertices triangles = vertices quads
  | None, None => buildAsserts data dimension = false
  | _, _ => False
  end.
Proof.
  unfold Build. destruct (buildAsserts data dimension); [| reflexivity].
  set (m := mkMesher _ _ _ _).
  pose proof (BuildInternal_inStep m iso) as Hs.
  destruct (BuildInternal m iso Quads (mkMesh [] [])) as [quads mq].
  destruct (BuildInternal m iso Triangles (mkMesh [] [])) as [triangles mt].
  destruct Hs as (Hv & _ & n & Hq & Ht). cbn [fst] in Hv, Hq, Ht.
  rewrite Hq, Ht. split; [| split; [| split]].
  - rewrite Nat.mul_comm. apply Nat.Div0.mod_mul.
  - replace (6 * n)%nat with ((2 * n) * 3)%nat by lia. apply Nat.Div0.mod_mul.
  - lia.
  - symmetry. exact Hv.
Qed.
End Indices.

(** ** Face winding *)

Section Winding.
Context {T : Type} `{VolumeDataType T}.

Lemma faceIndices_orders (topology : Topology) (cond : bool)
    (i0 i1 i2 i3 : Z) :
  faceIndices topology cond i0 i1 i2 i3
  = if cond then givenOrder topology i0 i1 i2 i3
    else reversedOrder topology i0 i1 i2 i3.
Proof. destruct topology, cond; reflexivity. Qed.

Lemma edgeStatus_exclusive (a : Axis) (m : Mesher T) (iso : T) (x y z : Z)
    (entering exiting : bool) :
  edgeStatus a m iso x y z = (entering, exiting) ->
  entering || exiting = true -> exiting = negb entering.
Proof.
  intros Hs Hc.
  assert (Hx : entering && exiting = false).
  { destruct a; cbn [edgeStatus] in Hs;
      match type of Hs with GetStatus ?m ?i ?x ?y ?z ?a ?b ?c = _ =>
        pose proof (GetStatus_not_both m i x y z a b c) as Hn end;
      rewrite Hs in Hn; exact Hn. }
  destruct entering, exiting; simpl in *; congruence.
Qed.

(** The cell cycles around the three axes do not have the same
    handedness: around x the cycle turns clockwise seen from +x, around
    y and z counterclockwise. *)
Lemma edgeCells_orientation (x y z : Z) :
  cycleNormal (edgeCells AxisX x y z) = mkInt3 (-2) 0 0
  /\ cycleNormal (edgeCells AxisY x y z) = mkInt3 0 2 0
  /\ cycleNormal (edgeCells AxisZ x y z) = mkInt3 0 0 2.
Proof.
  unfold cycleNormal, edgeCells, plus3, cross; cbn [i3x i3y i3z].
  repeat split; f_equal; ring.
Qed.

(** With the condition chosen per axis, every emitted face is oriented
    the same way with respect to the samples: its normal points from the
    end of the edge whose sample is [< iso] to the end whose sample is
    [>= iso] (down the axis when entering, up the axis when exiting). *)
Lemma emittedNormal_uniform (a : Axis) (entering : bool) (x y z : Z) :
  emittedNormal a entering x y z = if entering then -2 else 2.
Proof.
  unfold emittedNormal.
  destruct (edgeCells_orientation x y z) as (Hx & Hy & Hz).
  destruct a; cbn [along]; rewrite ?Hx, ?Hy, ?Hz; destruct entering;
    reflexivity.
Qed.

(** C1, amended: at a detected crossing the face of the edge is built
    from the four dual vertex indices [i0 .. i3] of the cells around
    the edge.  For a crossing along the x axis the indices are emitted
    in the given order when the crossing is entering and in the
    reversed order when it is exiting; for a crossing along the y or
    the z axis it is the other way round, the given order when exiting
    and the reversed order when entering.  With Quads the orders are
    (i0,i1,i2,i3) and (i0,i3,i2,i1), with Triangles
    (i0,i1,i2)+(i2,i3,i0) and (i2,i1,i0)+(i0,i3,i2). *)
Theorem face_winding (a : Axis) (m : Mesher T) (iso : T)
    (topology : Topology) (mesh : Mesh) (x y z : Z)
    (entering exiting : bool) :
  edgeGuard a x y z = true ->
  edgeStatus a m iso x y z = (entering, exiting) ->
  entering || exiting = true ->
  let '((i0, i1, i2, i3), vs, m') :=
    sharedIndices m iso (edgeCells a x y z) (edgeCodes a) (vertices mesh) in
  edgeFace a iso topology x y z (mesh, m)
  = (mkMesh vs
       (indices mesh ++
        match a with
        | AxisX =>
            if entering then givenOrder topology i0 i1 i2 i3
            else reversedOrder topology i0 i1 i2 i3
        | AxisY | AxisZ =>
            if entering then reversedOrder topology i0 i1 i2 i3
            else givenOrder topology i0 i1 i2 i3
        end), m').
Proof.
  intros Hg Hs Hc.
  rewrite (edgeFace_crossing a iso topology x y z mesh m _ _ Hg Hs Hc).
  pose proof (edgeStatus_exclusive a m iso x y z _ _ Hs Hc) as ->.
  unfold ConstructFace.
  destruct (sharedIndices m iso (edgeCells a x y z) (edgeCodes a)
              (vertices mesh)) as [[[[[i0 i1] i2] i3] vs] m'].
  rewrite faceIndices_orders.
  destruct a, entering; reflexivity.
Qed.
End Winding.

(** ** The manifold resolver and the dual point locator *)

Section Resolver.
Context {T : Type} `{VolumeDataType T}.

Lemma GetCellCode_byte (m : Mesher T) (cell : int3) (iso : T) :
  0 <= GetCellCode m cell iso <= 255
  /\ Z.lxor (GetCellCode m cell iso) 255 = 255 - GetCellCode m cell iso.
Proof.
  unfold GetCellCode, orIf.
  repeat match goal with |- context [ge ?a ?b] => destruct (ge a b) end;
    vm_compute; intuition congruence.
Qed.

Lemma land_1_odd (d : Z) :
  (if Z.land d 1 =? 1 then 1 else -1) = if Z.odd d then 1 else -1.
Proof.
  change 1 with (Z.ones 1) at 1. rewrite Z.land_ones by lia.
  change (2 ^ 1) with 2. rewrite Zmod_odd.
  destruct (Z.odd d); reflexivity.
Qed.

Lemma in_cell_range (v d : Z) :
  (v >=? 0) && (v <? d - 1) = (0 <=? v) && (v <=? d - 2).
Proof.
  rewrite Z.geb_leb. f_equal.
  destruct (Z.ltb_spec v (d - 1)), (Z.leb_spec v (d - 2)); (reflexivity || lia).
Qed.

Lemma u8_byte (c : Z) : 0 <= c <= 255 -> u8 c = c.
Proof. intros Hc. unfold u8. apply Z.mod_small. lia. Qed.

Lemma manifoldCubeCode_resolved (m : Mesher T) (cell : int3) (iso : T) :
  manifoldCubeCode m cell iso = resolvedCode m cell iso.
Proof.
  unfold manifoldCubeCode, resolvedCode, invertsCode, ambiguous,
    neighborCell, validCellOn, decodedAxis, decodedSign, complement8.
  cbv zeta.
  destruct (GetCellCode_byte m cell iso) as [Hr Hx].
  rewrite !(u8_byte _ Hr).
  set (raw := GetCellCode m cell iso) in *.
  set (direction := problematicConfig raw).
  rewrite !Z.shiftr_div_pow2 by lia. change (2 ^ 1) with 2.
  rewrite !land_1_odd, in_cell_range.
  set (neighbor := set3 cell _ _).
  rewrite (u8_byte _ (proj1 (GetCellCode_byte m neighbor iso))).
  destruct (generateManifold m); [| reflexivity].
  destruct (direction =? 255); [reflexivity |].
  destruct ((0 <=? _) && _); [| reflexivity].
  destruct (problematicConfig (GetCellCode m neighbor iso) =? 255);
    [reflexivity | exact Hx].
Qed.

Lemma problematicConfigs_values :
  forallb (fun d => (d =? 255) || ((0 <=? d) && (d <=? 5)))
          problematicConfigs = true.
Proof. vm_compute. reflexivity. Qed.

(** An ambiguous code decodes into one of the three axes. *)
Lemma ambiguous_axis (code : Z) :
  ambiguous code = true -> 0 <= decodedAxis (problematicConfig code) <= 2.
Proof.
  unfold ambiguous, decodedAxis, problematicConfig. intros Hamb.
  apply negb_true_iff, Z.eqb_neq in Hamb.
  destruct (nth_in_or_default (Z.to_nat code) problematicConfigs 0)
    as [Hin | Hd].
  - pose proof problematicConfigs_values as Hall.
    rewrite forallb_forall in Hall. apply Hall in Hin.
    apply orb_prop in Hin as [H255 | Hr];
      [apply Z.eqb_eq in H255; contradiction |].
    apply andb_prop in Hr as [H0 H5]. apply Z.leb_le in H0, H5.
    set (d := nth (Z.to_nat code) problematicConfigs 0) in *.
    assert (0 <= d / 2) by (apply Z.div_pos; lia).
    assert (d / 2 < 3) by (apply Z.div_lt_upper_bound; lia).
    lia.
  - rewrite Hd. split; reflexivity || discriminate.
Qed.

Lemma scanDualPoints_filter (n : nat) (code i edge : Z) :
  scanDualPoints n code i edge
  = match filter (fun mask => Z.land mask edge ≠ 0)
                 (map (dualPoint code) (seqZ i (Z.of_nat n))) with
    | mask :: _ => mask
    | [] => 0
    end.
Proof.
  revert i. induction n as [| n IH]; intros i; [reflexivity |].
  rewrite Nat2Z.inj_succ, seqZ_cons by lia.
  rewrite Z.pred_succ. cbn [scanDualPoints map].
  rewrite filter_cons. replace (Z.succ i) with (i + 1) by lia.
  destruct (Z.eqb_spec (Z.land (dualPoint code i) edge) 0) as [Hz | Hnz];
    destruct (decide (Z.land (dualPoint code i) edge <> 0));
    try contradiction; cbn [negb]; [apply IH | reflexivity].
Qed.

Lemma scanDualPoints_first (code edge : Z) :
  scanDualPoints 4 code 0 edge = firstMaskWith code edge.
Proof. apply scanDualPoints_filter. Qed.

(** C3: with the manifold flag set, [GetDualPointCode] reads the dual
    points table at the 8-bit complement of the cube code exactly when
    the code is marked in the ambiguous-configuration table, the
    neighbor one step along the decoded axis in the decoded direction
    is a valid cell on that axis, and the neighbor's code is marked as
    well; otherwise, and always when the flag is off, it reads the
    table at the code of the classifier.  The complement flips each of
    the 8 bits, and the decoded axis of a marked code is one of the
    three axes of the cell coordinate. *)
Theorem manifold_resolver (m : Mesher T) (cell : int3) (iso : T) (edge : Z) :
  let raw := GetCellCode m cell iso in
  manifoldCubeCode m cell iso
  = (if invertsCode m cell iso then complement8 raw else raw)
  /\ GetDualPointCode m cell iso edge
     = firstMaskWith
         (if invertsCode m cell iso then complement8 raw else raw) edge
  /\ (manifoldCubeCode m cell iso <> raw <-> invertsCode m cell iso = true)
  /\ complement8 raw = Z.lxor raw 255
  /\ (forall k, 0 <= k < 8 ->
        Z.testbit (complement8 raw) k = negb (Z.testbit raw k))
  /\ (generateManifold m = false -> manifoldCubeCode m cell iso = raw)
  /\ (ambiguous raw = true -> 0 <= decodedAxis (problematicConfig raw) <= 2).
Proof.
  intros raw.
  pose proof (manifoldCubeCode_resolved m cell iso) as Hres.
  unfold resolvedCode in Hres. fold raw in Hres.
  destruct (GetCellCode_byte m cell iso) as [Hr Hx]. fold raw in Hr, Hx.
  split; [exact Hres |].
  split; [unfold GetDualPointCode; rewrite scanDualPoints_first, Hres;
          reflexivity |].
  split; [| split; [| split; [| split]]].
  - rewrite Hres. unfold complement8.
    destruct (invertsCode m cell iso); split; intros Hi;
      try reflexivity; try discriminate; try lia; congruence.
  - unfold complement8. symmetry. exact Hx.
  - intros k Hk. unfold complement8. rewrite <- Hx.
    rewrite Z.lxor_spec.
    replace (Z.testbit 255 k) with true; [apply xorb_true_r |].
    assert (Hcases : k = 0 \/ k = 1 \/ k = 2 \/ k = 3 \/ k = 4 \/ k = 5
                     \/ k = 6 \/ k = 7) by lia.
    repeat (destruct Hcases as [-> | Hcases]; [reflexivity |]).
    subst k. reflexivity.
  - intros Hoff. rewrite Hres. unfold invertsCode. rewrite Hoff.
    reflexivity.
  - apply ambiguous_axis.
Qed.

Lemma dualPointsList_counts :
  forallb (forallb (fun v =>
    (v =? 0) || ((3 <=? flaggedEdges v) && (flaggedEdges v <=? 7)
                 && (0 <? v) && (v <? 4096)))) dualPointsList = true.
Proof. vm_compute. reflexivity. Qed.

Lemma dualPoint_count (c i : Z) :
  dualPoint c i <> 0 ->
  3 <= flaggedEdges (dualPoint c i) <= 7 /\ 0 < dualPoint c i < 4096.
Proof.
  intros Hne. unfold dualPoint in *.
  set (row := nth (Z.to_nat c) dualPointsList []) in *.
  assert (Hrow : forallb (fun v =>
    (v =? 0) || ((3 <=? flaggedEdges v) && (flaggedEdges v <=? 7)
                 && (0 <? v) && (v <? 4096))) row = true).
  { destruct (nth_in_or_default (Z.to_nat c) dualPointsList []) as [Hin | Hd].
    - pose proof dualPointsList_counts as Hall.
      rewrite forallb_forall in Hall. apply Hall. exact Hin.
    - fold row in Hd. rewrite Hd. reflexivity. }
  destruct (nth_in_or_default (Z.to_nat i) row 0) as [Hin | Hd];
    [| congruence].
  rewrite forallb_forall in Hrow. apply Hrow in Hin.
  apply orb_prop in Hin as [Hz | Hc]; [apply Z.eqb_eq in Hz; congruence |].
  apply andb_prop in Hc as [Hc H4]. apply andb_prop in Hc as [Hc H3].
  apply andb_prop in Hc as [H1 H2].
  apply Z.leb_le in H1, H2. apply Z.ltb_lt in H3, H4. lia.
Qed.

Lemma ifEdge_points (code edge : Z) (body : Accum -> Accum) (a : Accum) :
  (forall a, acc_points (body a) = acc_points a + 1) ->
  acc_points (ifEdge code edge body a) = acc_points a + edgeBit code edge.
Proof.
  intros Hbody. unfold ifEdge, edgeBit.
  destruct (Z.land code edge =? 0); simpl; [lia | apply Hbody].
Qed.

(** The number of points averaged by [CalculateDualPoint] is the number
    of edges flagged in the point code. *)
Lemma sumEdgePoints_points (m : Mesher T) (cell : int3) (iso : T)
    (code : Z) :
  acc_points (sumEdgePoints m cell iso code) = flaggedEdges code.
Proof.
  unfold sumEdgePoints, flaggedEdges. cbv zeta.
  repeat (rewrite ifEdge_points by (intros; reflexivity)).
  reflexivity.
Qed.

(** Both bounds are met in the table: row 1 flags 3 edges, row 61 flags
    7. *)
Lemma dualPoint_count_tight :
  flaggedEdges (dualPoint 1 0) = 3 /\ flaggedEdges (dualPoint 61 0) = 7.
Proof. split; reflexivity. Qed.

(** C7, amended: every nonzero point code of the dual points table, so
    every nonzero point code that [GetDualPointCode] returns, is a
    12-bit mask that flags at least 3 and at most 7 edges, and that
    many edge points are averaged by [CalculateDualPoint]. *)
Theorem dual_point_edge_count (c i : Z) (m : Mesher T) (cell : int3)
    (iso : T) :
  dualPoint c i <> 0 ->
  acc_points (sumEdgePoints m cell iso (dualPoint c i))
  = flaggedEdges (dualPoint c i)
  /\ 3 <= acc_points (sumEdgePoints m cell iso (dualPoint c i)) <= 7
  /\ 0 < dualPoint c i < 2 ^ 12
  /\ (forall m' cell' iso' edge,
        GetDualPointCode m' cell' iso' edge <> 0 ->
        3 <= acc_points (sumEdgePoints m' cell' iso'
                           (GetDualPointCode m' cell' iso' edge)) <= 7).
Proof.
  intros Hne. rewrite sumEdgePoints_points.
  destruct (dualPoint_count c i Hne) as [Hc Hr].
  split; [reflexivity | split; [exact Hc | split; [exact Hr |]]].
  intros m' cell' iso' edge. rewrite sumEdgePoints_points.
  unfold GetDualPointCode. cbn [scanDualPoints].
  repeat match goal with
         | |- context [if negb ?b then _ else _] => destruct b; cbn [negb]
         end;
    intros Hne'; try (apply dualPoint_count; exact Hne'); congruence.
Qed.
End Resolver.

Section SmallVolumes.
Context {T : Type} `{VolumeDataType T}.

(** C2, amended: for every 3x3x3 volume, so also for one with samples
    in {0,1} of which exactly one corner sample is 0, extraction (with
    iso = 0.5 or any other) returns the empty mesh: the sweep visits
    the voxel (0,0,0) only, where no block of the loop body passes its
    guard.  No face isolates the corner, and there is no returned
    vertex position to bound. *)
Theorem volume_3x3x3_empty_mesh (self : Mesher T) (data : span T) (iso : T)
    (generateManifold : bool) (topology : Topology) :
  27 <= span_size data ->
  option_map fst
    (Build self data (mkInt3 3 3 3) iso generateManifold topology)
  = Some (mkMesh [] []).
Proof.
  intros Hsize. unfold Build, buildAsserts.
  replace (span_size data =? 0) with false by (symmetry; apply Z.eqb_neq; lia).
  replace (span_size data >=? _) with true
    by (symmetry; apply Z.geb_le; simpl; lia).
  cbn [negb orb andb i3x i3y i3z Z.ltb Z.compare option_map fst].
  rewrite BuildInternal_sweep.
  change (sweep _) with [mkInt3 0 0 0].
  cbn [fold_left i3x i3y i3z]. rewrite voxelBody_blocks.
  rewrite !edgeFace_no_guard by reflexivity. reflexivity.
Qed.
End SmallVolumes.

(** ** Concrete runs *)


Lemma volume_3x3x3_empty_mesh_witness :
  27 <= span_size cornerVolume
  /\ option_map fst
       (Build (newMesher F32.zero) cornerVolume (mkInt3 3 3 3) F32.half true Quads)
     = Some (mkMesh [] []).
Proof.
  assert (Hsize : 27 <= span_size cornerVolume) by (vm_compute; discriminate).
  split; [exact Hsize |].
  exact (volume_3x3x3_empty_mesh (newMesher F32.zero) cornerVolume F32.half
           true Quads Hsize).
Defined.

(** C2 as stated fails: the 3x3x3 volume of samples 1.0 with the corner
    sample at (0,0,0) equal to 0.0, extracted at iso = 0.5, gives a mesh
    that is empty, not a patch of faces around the corner. *)
Lemma corner_volume_counterexample :
  span_at cornerVolume 0 = F32.zero
  /\ (forall i, In i (seqZ 1 26) -> span_at cornerVolume i = F32.one)
  /\ option_map fst
       (Build (newMesher F32.zero) cornerVolume (mkInt3 3 3 3) F32.half
              false Triangles)
     = Some (mkMesh [] []).
Proof.
  split; [reflexivity | split; [| reflexivity]].
  intros i Hi. vm_compute in Hi.
  repeat (destruct Hi as [<- | Hi]; [reflexivity |]). contradiction.
Qed.

(** C8 as stated fails: in the 3x4x4 volume whose only sample 1 sits at
    (0,1,1), the sweep visits the voxel (0,1,1), which does not lie
    inside a 1-cell border (its x component is 0), and generates the face
    of its x edge there. *)
Lemma border_counterexample :
  let m := mkMesher (mkInt3 3 4 4) (spikeVolume 48 15) false ∅ in
  In (mkInt3 0 1 1) (sweep (dims m))
  /\ insideBorder (dims m) (mkInt3 0 1 1) = false
  /\ indices (fst (xEdgeFace 1 Quads 0 1 1 (mkMesh [] [], m))) = [0; 1; 2; 3]
  /\ option_map (fun r => indices (fst r))
       (Build (newMesher 0) (spikeVolume 48 15) (mkInt3 3 4 4) 1 false Quads)
     = Some [0; 1; 2; 3].
Proof.
  split; [vm_compute; tauto |].
  split; [reflexivity |].
  split; vm_compute; reflexivity.
Qed.

(** C1 as stated fails: in the 4x3x4 volume whose only sample 1 sits at
    (1,0,1), extracted at iso = 1, the y edge at the voxel (1,0,1) is an
    entering crossing (origin sample >= iso, stepped sample < iso) and the
    dual vertex indices of the four cells around it are 0, 1, 2, 3; the
    quad is emitted in the reversed order, not in the given one. *)
Lemma winding_counterexample :
  let m := mkMesher (mkInt3 4 3 4) (spikeVolume 48 13) false ∅ in
  edgeGuard AxisY 1 0 1 = true
  /\ GetStatus m 1 1 0 1 0 1 0 = (true, false)
  /\ fst (fst (sharedIndices m 1 (edgeCells AxisY 1 0 1) (edgeCodes AxisY) []))
     = (0, 1, 2, 3)
  /\ indices (fst (yEdgeFace 1 Quads 1 0 1 (mkMesh [] [], m))) = [0; 3; 2; 1]
  /\ [0; 3; 2; 1] <> givenOrder Quads 0 1 2 3
  /\ option_map (fun r => indices (fst r))
       (Build (newMesher 0) (spikeVolume 48 13) (mkInt3 4 3 4) 1 false Quads)
     = Some [0; 3; 2; 1].
Proof.
  repeat split; try (vm_compute; reflexivity).
  vm_compute. discriminate.
Qed.

Lemma face_winding_witness :
  let m := mkMesher (mkInt3 3 4 4) (spikeVolume 48 15) false ∅ in
  edgeGuard AxisX 0 1 1 = true
  /\ edgeStatus AxisX m 1 0 1 1 = (true, false)
  /\ (let '((i0, i1, i2, i3), vs, m') :=
        sharedIndices m 1 (edgeCells AxisX 0 1 1) (edgeCodes AxisX) [] in
      edgeFace AxisX 1 Quads 0 1 1 (mkMesh [] [], m)
      = (mkMesh vs ([] ++ givenOrder Quads i0 i1 i2 i3), m')).
Proof.
  intros m. split; [reflexivity | split; [reflexivity |]].
  exact (face_winding AxisX m 1 Quads (mkMesh [] []) 0 1 1 true false
           eq_refl eq_refl eq_refl).
Defined.

(** C7 as stated fails: the cell (1,1,1) of [code7Volume] has cube code 7
    at iso = 1; for its edge 3, which the z edge at the voxel (1,1,1)
    requests, the locator returns the first mask of row 7, which flags
    the five edges 1, 3, 4, 7 and 9.  [Build] records a vertex under that
    point code, and five edge points are averaged for it, more than
    four. *)
Lemma edge_count_counterexample :
  let m := mkMesher (mkInt3 4 4 4) code7Volume false ∅ in
  let cell := mkInt3 1 1 1 in
  GetCellCode m cell 1 = 7
  /\ GetDualPointCode m cell 1 EDGE3 = dualPoint 7 0
  /\ dualPoint 7 0 = Z.lor EDGE1 (Z.lor EDGE3 (Z.lor EDGE4 (Z.lor EDGE7 EDGE9)))
  /\ dualPoint 7 0 <> 0
  /\ acc_points (sumEdgePoints m cell 1 (dualPoint 7 0)) = 5
  /\ ~ (1 <= 5 <= 4)
  /\ option_map
       (fun r => pointToIndex (snd r) !! mkKey (gAcell m cell) (dualPoint 7 0))
       (Build (newMesher 0) code7Volume (mkInt3 4 4 4) 1 false Quads)
     = Some (Some 7).
Proof.
  repeat split; try (vm_compute; reflexivity); try (vm_compute; discriminate).
  lia.
Qed.

Lemma dual_point_edge_count_witness :
  let m := mkMesher (mkInt3 4 4 4) code7Volume false ∅ in
  dualPoint 7 0 <> 0
  /\ 3 <= acc_points (sumEdgePoints m (mkInt3 1 1 1) 1 (dualPoint 7 0)) <= 7.
Proof.
  intros m.
  assert (Hne : dualPoint 7 0 <> 0) by (vm_compute; discriminate).
  split; [exact Hne |].
  exact (proj1 (proj2 (dual_point_edge_count 7 0 m (mkInt3 1 1 1) 1 Hne))).
Defined.

(** ** Linearized ids and hashes *)

Section Keys.
Context {T : Type} `{VolumeDataType T}.

Lemma gA_decode (dx dy x y z : Z) :
  0 <= x < dx -> 0 <= y < dy ->
  (x + dx * (y + dy * z)) mod dx = x
  /\ ((x + dx * (y + dy * z)) / dx) mod dy = y
  /\ (x + dx * (y + dy * z)) / (dx * dy) = z.
Proof.
  intros Hx Hy.
  assert (Hq : (x + dx * (y + dy * z)) / dx = y + dy * z).
  { rewrite (Z.mul_comm dx), Z.div_add by lia.
    rewrite Z.div_small by lia. lia. }
  split; [| split].
  - rewrite (Z.mul_comm dx), Z_mod_plus_full. apply Z.mod_small. lia.
  - rewrite Hq, (Z.mul_comm dy), Z_mod_plus_full. apply Z.mod_small. lia.
  - rewrite <- Z.div_div by lia. rewrite Hq.
    rewrite (Z.mul_comm dy), Z.div_add by lia.
    rewrite Z.div_small by lia. lia.
Qed.

Lemma gAcell_injective (m : Mesher T) (c c' : int3) :
  0 <= i3x c < i3x (dims m) -> 0 <= i3y c < i3y (dims m) ->
  0 <= i3x c' < i3x (dims m) -> 0 <= i3y c' < i3y (dims m) ->
  gAcell m c = gAcell m c' -> c = c'.
Proof.
  intros Hx Hy Hx' Hy' Heq. unfold gAcell, gA in Heq.
  destruct (gA_decode _ _ _ _ (i3z c) Hx Hy) as (H1 & H2 & H3).
  destruct (gA_decode _ _ _ _ (i3z c') Hx' Hy') as (H1' & H2' & H3').
  rewrite Heq in H1, H2, H3.
  destruct c, c'; simpl in *. congruence.
Qed.

(** X1: when dimX*dimY and dimX*dimY*dimZ are values of [int32_t], the
    linearized id of a coordinate inside the volume is computed without
    wrap-around (the 32-bit [gA_int32] gives the id of [gA]), it lies in
    [0, dimX*dimY*dimZ), and the coordinate is recovered from it; so
    distinct cells of such a volume have distinct linearized ids. *)
Theorem gA_round_trip (m : Mesher T) (cell : int3) :
  noOverflow (dims m) ->
  0 <= i3x cell < i3x (dims m) -> 0 <= i3y cell < i3y (dims m) ->
  0 <= i3z cell < i3z (dims m) ->
  gA_int32 m (i3x cell) (i3y cell) (i3z cell) = gAcell m cell
  /\ 0 <= gAcell m cell < i3x (dims m) * i3y (dims m) * i3z (dims m)
  /\ cellOfId (dims m) (gAcell m cell) = cell.
Proof.
  intros Hno Hx Hy Hz.
  split; [apply gA_int32_exact; assumption |].
  split; [apply gA_in_range; assumption |].
  unfold cellOfId, gAcell, gA.
  destruct (gA_decode _ _ _ _ (i3z cell) Hx Hy) as (-> & -> & ->).
  destruct cell; reflexivity.
Qed.

Lemma keyEq_eq (k k' : DualPointKey) : keyEq k k' = true <-> k = k'.
Proof.
  unfold keyEq. rewrite andb_true_iff, !Z.eqb_eq.
  destruct k, k'; simpl. split; [intros [-> ->]; reflexivity |].
  intros [= -> ->]. split; reflexivity.
Qed.

Lemma hash_value (k : DualPointKey) :
  0 <= linearizedCellID k < 2 ^ 32 -> 0 <= pointCode k < 2 ^ 32 ->
  DualPointKeyHash k = linearizedCellID k + 2 ^ 32 * pointCode k.
Proof.
  intros Hid Hpc. unfold DualPointKeyHash, size_t.
  rewrite Z.shiftl_mul_pow2 by lia.
  rewrite (Z.mod_small (linearizedCellID k)) by lia.
  rewrite (Z.mod_small (pointCode k)) by lia.
  rewrite (Z.mod_small (pointCode k * 2 ^ 32)) by lia.
  rewrite <- Z.shiftl_mul_pow2 by lia.
  assert (Hland : Z.land (linearizedCellID k) (Z.shiftl (pointCode k) 32) = 0).
  { apply Z.bits_inj'. intros n Hn. rewrite Z.land_spec, Z.bits_0.
    destruct (Z.lt_ge_cases n 32) as [Hlt | Hge].
    - rewrite Z.shiftl_spec_low by exact Hlt. apply andb_false_r.
    - destruct (Z.eq_dec (linearizedCellID k) 0) as [-> | Hnz];
        [rewrite Z.bits_0; reflexivity |].
      rewrite (Z.bits_above_log2 (linearizedCellID k) n); [reflexivity | lia |].
      assert (Z.log2 (linearizedCellID k) < 32)
        by (apply Z.log2_lt_pow2; lia).
      lia. }
  rewrite <- Z.lxor_lor by exact Hland.
  rewrite <- Z.add_nocarry_lxor by exact Hland.
  rewrite Z.shiftl_mul_pow2 by lia. lia.
Qed.

(** X2: on keys whose cell id and point code are non-negative 32-bit
    values, as are those of an extraction, the hash functor has no
    collision: two keys have the same hash exactly when [operator==] holds
    of them. *)
Theorem DualPointKeyHash_injective (k k' : DualPointKey) :
  0 <= linearizedCellID k < 2 ^ 32 -> 0 <= pointCode k < 2 ^ 32 ->
  0 <= linearizedCellID k' < 2 ^ 32 -> 0 <= pointCode k' < 2 ^ 32 ->
  (DualPointKeyHash k = DualPointKeyHash k' <-> keyEq k k' = true).
Proof.
  intros Hid Hpc Hid' Hpc'. rewrite keyEq_eq.
  split; [| intros ->; reflexivity].
  rewrite !hash_value by assumption. intros Heq.
  assert (linearizedCellID k = linearizedCellID k' /\ pointCode k = pointCode k')
    as [Hi Hp] by lia.
  destruct k, k'; simpl in *. congruence.
Qed.
End Keys.

(** ** Cube codes, corners and cube edges *)

Section CubeCodes.
Context {T : Type} `{VolumeDataType T}.

Lemma GetCellCode_testbit (m : Mesher T) (cell : int3) (iso : T) (k : Z) :
  0 <= k < 8 ->
  Z.testbit (GetCellCode m cell iso) k = ge (cornerSample m cell k) iso.
Proof.
  intros Hk.
  assert (Hcases : k = 0 \/ k = 1 \/ k = 2 \/ k = 3 \/ k = 4 \/ k = 5
                   \/ k = 6 \/ k = 7) by lia.
  unfold GetCellCode, cornerSample, orIf. cbv zeta.
  repeat (destruct Hcases as [-> | Hcases]); try subst k;
    match goal with
    | |- context [cornerOffset ?k] =>
        let v := eval vm_compute in (cornerOffset k) in
        change (cornerOffset k) with v
    end;
    cbn [i3x i3y i3z]; rewrite ?Z.add_0_r;
    repeat match goal with |- context [ge ?a ?b] => destruct (ge a b) end;
    reflexivity.
Qed.

(** X3: the cube code is an 8-bit mask whose bit [k] tells whether the
    sample at corner [k] is [>= iso], the corners being numbered by the
    Morton code of their offsets in the cell. *)
Theorem GetCellCode_bits (m : Mesher T) (cell : int3) (iso : T) (k : Z) :
  0 <= k < 8 ->
  0 <= GetCellCode m cell iso < 2 ^ 8
  /\ Z.testbit (GetCellCode m cell iso) k
     = ge (sample m (i3x cell + Z.b2z (Z.testbit k 0))
                    (i3y cell + Z.b2z (Z.testbit k 1))
                    (i3z cell + Z.b2z (Z.testbit k 2))) iso.
Proof.
  intros Hk. split.
  - destruct (GetCellCode_byte m cell iso) as [Hr _].
    change (2 ^ 8) with 256. lia.
  - rewrite (GetCellCode_testbit m cell iso k Hk). reflexivity.
Qed.
End CubeCodes.

(** ** The dual points table against the cube codes *)

Section DualPoints.
Context {T : Type} `{VolumeDataType T}.

Lemma crossing_table :
  forallb (fun code => forallb (fun e =>
    eqb (crossesEdge code e) (hasMask code e)) (seqZ 0 12)) (seqZ 0 256)
  = true.
Proof. vm_compute. reflexivity. Qed.

Lemma hasMask_crossesEdge (code e : Z) :
  0 <= code < 256 -> 0 <= e < 12 -> hasMask code e = crossesEdge code e.
Proof.
  intros Hcode He. pose proof crossing_table as Htab.
  rewrite forallb_forall in Htab.
  specialize (Htab code ltac:(apply In_seqZ; lia)).
  rewrite forallb_forall in Htab.
  specialize (Htab e ltac:(apply In_seqZ; lia)).
  apply eqb_prop in Htab. symmetry. exact Htab.
Qed.

Lemma scanDualPoints_hasMask (code e : Z) :
  (scanDualPoints 4 code 0 (edgeCode e) <> 0 <-> hasMask code e = true)
  /\ (scanDualPoints 4 code 0 (edgeCode e) <> 0 ->
      Z.land (scanDualPoints 4 code 0 (edgeCode e)) (edgeCode e) <> 0).
Proof.
  unfold hasMask. cbn [scanDualPoints existsb].
  change (0 + 1 + 1 + 1) with 3. change (0 + 1 + 1) with 2.
  change (0 + 1) with 1.
  destruct (Z.eqb_spec (Z.land (dualPoint code 0) (edgeCode e)) 0) as [E0 | E0];
  destruct (Z.eqb_spec (Z.land (dualPoint code 1) (edgeCode e)) 0) as [E1 | E1];
  destruct (Z.eqb_spec (Z.land (dualPoint code 2) (edgeCode e)) 0) as [E2 | E2];
  destruct (Z.eqb_spec (Z.land (dualPoint code 3) (edgeCode e)) 0) as [E3 | E3];
    cbn [negb orb]; (split; [split |]); intros; try assumption;
    try reflexivity; try discriminate; try congruence;
    intros Hz; rewrite Hz in *; rewrite Z.land_0_l in *; congruence.
Qed.

Lemma crossesEdge_complement (code e : Z) :
  0 <= e < 12 -> crossesEdge (Z.lxor code 255) e = crossesEdge code e.
Proof.
  intros He.
  assert (Hcases : e = 0 \/ e = 1 \/ e = 2 \/ e = 3 \/ e = 4 \/ e = 5
                   \/ e = 6 \/ e = 7 \/ e = 8 \/ e = 9 \/ e = 10 \/ e = 11)
    by lia.
  unfold crossesEdge.
  repeat (destruct Hcases as [-> | Hcases]); try subst e;
    cbn [edgeCorners fst snd]; rewrite !Z.lxor_spec;
    repeat match goal with
           | |- context [Z.testbit 255 ?c] =>
               change (Z.testbit 255 c) with true
           end;
    rewrite !xorb_true_r;
    repeat match goal with
           | |- context [Z.testbit code ?c] => destruct (Z.testbit code c)
           end; reflexivity.
Qed.

Lemma manifoldCubeCode_byte (m : Mesher T) (cell : int3) (iso : T) :
  0 <= manifoldCubeCode m cell iso < 256
  /\ (manifoldCubeCode m cell iso = GetCellCode m cell iso
      \/ manifoldCubeCode m cell iso = Z.lxor (GetCellCode m cell iso) 255).
Proof.
  rewrite manifoldCubeCode_resolved. unfold resolvedCode, complement8.
  destruct (GetCellCode_byte m cell iso) as [Hr Hx].
  destruct (invertsCode m cell iso); split; try lia; auto.
Qed.

Lemma crossesEdge_samples (m : Mesher T) (cell : int3) (iso : T) (e : Z) :
  0 <= e < 12 ->
  crossesEdge (manifoldCubeCode m cell iso) e
  = xorb (ge (cornerSample m cell (fst (edgeCorners e))) iso)
         (ge (cornerSample m cell (snd (edgeCorners e))) iso).
Proof.
  intros He.
  assert (Hraw : crossesEdge (manifoldCubeCode m cell iso) e
                 = crossesEdge (GetCellCode m cell iso) e).
  { destruct (manifoldCubeCode_byte m cell iso) as [_ [-> | ->]];
      [reflexivity | apply crossesEdge_complement; exact He]. }
  rewrite Hraw. unfold crossesEdge.
  assert (Hc : 0 <= fst (edgeCorners e) < 8 /\ 0 <= snd (edgeCorners e) < 8).
  { assert (Hcases : e = 0 \/ e = 1 \/ e = 2 \/ e = 3 \/ e = 4 \/ e = 5
                     \/ e = 6 \/ e = 7 \/ e = 8 \/ e = 9 \/ e = 10 \/ e = 11)
      by lia.
    repeat (destruct Hcases as [-> | Hcases]); try subst e; simpl; lia. }
  rewrite !GetCellCode_testbit by apply Hc. reflexivity.
Qed.

(** The locator finds a mask for an edge exactly when the samples at the
    two ends of the edge lie on different sides of iso. *)
Lemma GetDualPointCode_nonzero (m : Mesher T) (cell : int3) (iso : T)
    (e : Z) :
  0 <= e < 12 ->
  (GetDualPointCode m cell iso (edgeCode e) <> 0 <->
   ge (cornerSample m cell (fst (edgeCorners e))) iso
   <> ge (cornerSample m cell (snd (edgeCorners e))) iso).
Proof.
  intros He. unfold GetDualPointCode.
  destruct (scanDualPoints_hasMask (manifoldCubeCode m cell iso) e) as [-> _].
  rewrite hasMask_crossesEdge by (apply manifoldCubeCode_byte || exact He).
  rewrite crossesEdge_samples by exact He.
  destruct (ge (cornerSample m cell (fst (edgeCorners e))) iso),
           (ge (cornerSample m cell (snd (edgeCorners e))) iso);
    simpl; split; congruence.
Qed.

(** X4: whatever the manifold flag, [GetDualPointCode] returns a nonzero
    mask for a cube edge exactly when the samples at the two corners of
    that edge lie on different sides of iso (one [>= iso], one not), and
    a mask it returns contains the requested edge. *)
Theorem GetDualPointCode_sign_change (m : Mesher T) (cell : int3) (iso : T)
    (e : Z) :
  0 <= e < 12 ->
  (GetDualPointCode m cell iso (edgeCode e) <> 0 <->
   ge (cornerSample m cell (fst (edgeCorners e))) iso
   <> ge (cornerSample m cell (snd (edgeCorners e))) iso)
  /\ (GetDualPointCode m cell iso (edgeCode e) <> 0 ->
      Z.land (GetDualPointCode m cell iso (edgeCode e)) (edgeCode e) <> 0).
Proof.
  intros He. split; [apply GetDualPointCode_nonzero; exact He |].
  unfold GetDualPointCode. apply scanDualPoints_hasMask.
Qed.
End DualPoints.

(** ** Ambiguous pairs *)

Section ManifoldPairs.
Context {T : Type} `{VolumeDataType T}.

(** In the ambiguous-configuration table, a marked code whose marked face
    is shared with a marked neighbor code sees the neighbor marked with
    the opposite direction: the ambiguous face of the one is the
    ambiguous face of the other. *)
Lemma pair_table :
  forallb (fun a => forallb (fun b =>
    let d := problematicConfig a in
    (d =? 255) || (problematicConfig b =? 255) || negb (faceAgree a b d)
    || (problematicConfig b =? Z.lxor d 1)) (seqZ 0 256)) (seqZ 0 256)
  = true.
Proof. vm_compute. reflexivity. Qed.

Lemma ambiguous_direction (code : Z) :
  ambiguous code = true -> 0 <= problematicConfig code <= 5.
Proof.
  unfold ambiguous, problematicConfig. intros Hamb.
  apply negb_true_iff, Z.eqb_neq in Hamb.
  destruct (nth_in_or_default (Z.to_nat code) problematicConfigs 0)
    as [Hin | Hd]; [| rewrite Hd; lia].
  pose proof problematicConfigs_values as Hall.
  rewrite forallb_forall in Hall. apply Hall in Hin.
  apply orb_prop in Hin as [H255 | Hr];
    [apply Z.eqb_eq in H255; contradiction |].
  apply andb_prop in Hr as [H0 H5]. apply Z.leb_le in H0, H5. lia.
Qed.

Lemma neighbor_faceAgree (m : Mesher T) (cell : int3) (iso : T) (d : Z) :
  0 <= d <= 5 ->
  faceAgree (GetCellCode m cell iso)
            (GetCellCode m (neighborCell cell d) iso) d = true.
Proof.
  intros Hd. unfold faceAgree. cbv zeta.
  apply forallb_forall. intros k Hk. apply In_seqZ in Hk.
  assert (Hdc : d = 0 \/ d = 1 \/ d = 2 \/ d = 3 \/ d = 4 \/ d = 5) by lia.
  assert (Hkc : k = 0 \/ k = 1 \/ k = 2 \/ k = 3 \/ k = 4 \/ k = 5
                \/ k = 6 \/ k = 7) by lia.
  destruct cell as [x y z].
  repeat (destruct Hdc as [-> | Hdc]); try subst d;
    repeat (destruct Hkc as [-> | Hkc]); try subst k;
    match goal with
    | |- (if ?c then _ else _) = true =>
        let v := eval vm_compute in c in change c with v
    end; cbv iota; try reflexivity;
    match goal with
    | |- eqb (Z.testbit _ ?k) (Z.testbit _ ?k') = true =>
        let v := eval vm_compute in k' in change k' with v
    end;
    rewrite !GetCellCode_testbit by lia;
    match goal with
    | |- eqb (ge ?s _) (ge ?s' _) = true =>
        replace s' with s; [apply eqb_reflx |]
    end;
    unfold cornerSample, neighborCell;
    repeat match goal with
           | |- context [cornerOffset ?k] =>
               let v := eval vm_compute in (cornerOffset k) in
               change (cornerOffset k) with v
           | |- context [decodedAxis ?d] =>
               let v := eval vm_compute in (decodedAxis d) in
               change (decodedAxis d) with v
           | |- context [decodedSign ?d] =>
               let v := eval vm_compute in (decodedSign d) in
               change (decodedSign d) with v
           end;
    cbn [at3 set3 i3x i3y i3z]; f_equal; lia.
Qed.

Lemma neighborCell_back (cell : int3) (d : Z) :
  0 <= d <= 5 ->
  neighborCell (neighborCell cell d) (Z.lxor d 1) = cell
  /\ decodedAxis (Z.lxor d 1) = decodedAxis d.
Proof.
  intros Hd.
  assert (Hdc : d = 0 \/ d = 1 \/ d = 2 \/ d = 3 \/ d = 4 \/ d = 5) by lia.
  destruct cell as [x y z].
  repeat (destruct Hdc as [-> | Hdc]); try subst d;
    (split; [| reflexivity]);
    unfold neighborCell;
    repeat match goal with
           | |- context [Z.lxor ?d 1] =>
               let v := eval vm_compute in (Z.lxor d 1) in
               change (Z.lxor d 1) with v
           end;
    repeat match goal with
           | |- context [decodedAxis ?d] =>
               let v := eval vm_compute in (decodedAxis d) in
               change (decodedAxis d) with v
           | |- context [decodedSign ?d] =>
               let v := eval vm_compute in (decodedSign d) in
               change (decodedSign d) with v
           end;
    cbn [at3 set3 i3x i3y i3z]; f_equal; lia.
Qed.

(** X5: the manifold resolver inverts ambiguous cells in pairs.  When it
    complements the code of a valid cell because of its neighbor across
    the ambiguous face, the ambiguous face of that neighbor is the same
    face, seen from the other side, and the resolver complements the code
    of the neighbor as well. *)
Theorem manifold_pairs_invert_together (m : Mesher T) (cell : int3) (iso : T) :
  let d := problematicConfig (GetCellCode m cell iso) in
  let neighbor := neighborCell cell d in
  validCellOn (dims m) cell (decodedAxis d) = true ->
  invertsCode m cell iso = true ->
  problematicConfig (GetCellCode m neighbor iso) = Z.lxor d 1
  /\ neighborCell neighbor (Z.lxor d 1) = cell
  /\ invertsCode m neighbor iso = true.
Proof.
  intros d neighbor Hvalid Hinv.
  unfold invertsCode in Hinv. cbv zeta in Hinv. fold d neighbor in Hinv.
  apply andb_prop in Hinv as [Hinv Hamb']. apply andb_prop in Hinv as [Hinv Hn].
  apply andb_prop in Hinv as [Hman Hamb].
  pose proof (ambiguous_direction _ Hamb) as Hd. fold d in Hd.
  destruct (neighborCell_back cell d Hd) as [Hback Haxis].
  assert (Hopp : problematicConfig (GetCellCode m neighbor iso) = Z.lxor d 1).
  { pose proof pair_table as Htab. rewrite forallb_forall in Htab.
    destruct (GetCellCode_byte m cell iso) as [Ha _].
    destruct (GetCellCode_byte m neighbor iso) as [Hb _].
    specialize (Htab (GetCellCode m cell iso) ltac:(apply In_seqZ; lia)).
    rewrite forallb_forall in Htab.
    specialize (Htab (GetCellCode m neighbor iso) ltac:(apply In_seqZ; lia)).
    cbv zeta in Htab.
    pose proof (neighbor_faceAgree m cell iso d Hd) as Hface.
    unfold ambiguous in Hamb, Hamb'.
    apply negb_true_iff in Hamb, Hamb'.
    subst d neighbor. rewrite Hamb, Hamb', Hface in Htab.
    apply Z.eqb_eq in Htab. exact Htab. }
  split; [exact Hopp | split; [exact Hback |]].
  subst neighbor. unfold invertsCode. cbv zeta. rewrite Hopp, Hback, Haxis.
  fold d. rewrite Hman, Hamb', Hvalid, Hamb. reflexivity.
Qed.
End ManifoldPairs.

(** ** The sweep, crossing by crossing *)

Section Sweep.
Context {T : Type} `{VolumeDataType T}.

(** Induction over the faces of a pass: a property of the state holds
    after the pass if every face built at a crossing of the pass keeps
    it. *)
Lemma crossings_preserve (iso : T) (topology : Topology)
    (P : Mesh * Mesher T -> Prop) (l : list int3) (st : Mesh * Mesher T) :
  (forall a c mesh m entering exiting,
      In c l -> P (mesh, m) ->
      edgeGuard a (i3x c) (i3y c) (i3z c) = true ->
      edgeStatus a m iso (i3x c) (i3y c) (i3z c) = (entering, exiting) ->
      entering || exiting = true ->
      P (ConstructFace m iso topology mesh
           (match a with AxisX => entering | _ => exiting end)
           (edgeCells a (i3x c) (i3y c) (i3z c)) (edgeCodes a))) ->
  P st ->
  P (fold_left
       (fun st c => voxelBody iso topology (i3x c) (i3y c) (i3z c) st) l st).
Proof.
  intros Hface HP. apply fold_left_invariant; [exact HP |].
  intros c st' Hc HP'. rewrite voxelBody_blocks.
  assert (Hedge : forall a st0, P st0 ->
            P (edgeFace a iso topology (i3x c) (i3y c) (i3z c) st0)).
  { intros a [mesh m] HP0.
    destruct (edgeGuard a (i3x c) (i3y c) (i3z c)) eqn:Hg;
      [| rewrite edgeFace_no_guard by exact Hg; exact HP0].
    destruct (edgeStatus a m iso (i3x c) (i3y c) (i3z c))
      as [entering exiting] eqn:Hs.
    destruct (entering || exiting) eqn:Hx.
    - rewrite (edgeFace_crossing a iso topology _ _ _ mesh m _ _ Hg Hs Hx).
      eapply Hface; eassumption.
    - apply orb_false_elim in Hx as [-> ->].
      rewrite (edgeFace_no_crossing a iso topology _ _ _ mesh m Hs).
      exact HP0. }
  repeat apply Hedge. exact HP'.
Qed.

Lemma sample_sameVolume (m m' : Mesher T) (x y z : Z) :
  sameVolume m m' -> sample m' x y z = sample m x y z.
Proof.
  intros (Hd & Hv & _). unfold sample, gA. rewrite Hd, Hv. reflexivity.
Qed.

Lemma edgeStatus_sameVolume (a : Axis) (m m' : Mesher T) (iso : T)
    (x y z : Z) :
  sameVolume m m' -> edgeStatus a m' iso x y z = edgeStatus a m iso x y z.
Proof.
  intros Hs. destruct a; cbn [edgeStatus]; unfold GetStatus;
    rewrite !(sample_sameVolume m m') by exact Hs; reflexivity.
Qed.

Lemma GetDualPointCode_sameVolume (m m' : Mesher T) (cell : int3) (iso : T)
    (edge : Z) :
  sameVolume m m' ->
  GetDualPointCode m' cell iso edge = GetDualPointCode m cell iso edge.
Proof.
  destruct m, m'. intros (Hd & Hv & Hg). simpl in Hd, Hv, Hg. subst.
  reflexivity.
Qed.

Lemma sumEdgePoints_sameVolume (m m' : Mesher T) (cell : int3) (iso : T)
    (code : Z) :
  sameVolume m m' ->
  sumEdgePoints m' cell iso code = sumEdgePoints m cell iso code.
Proof.
  destruct m, m'. intros (Hd & Hv & _). simpl in Hd, Hv. subst. reflexivity.
Qed.

(** The four requests of a face keep a property that every request in
    order keeps, when all four are in order. *)
Lemma sharedIndices_preserves_where (P : list Vertex -> Mesher T -> Prop)
    (Q : int3 -> Z -> Prop) (iso : T) :
  (forall m cell edge vs i vs' m',
      Q cell edge ->
      GetSharedDualPointIndex m cell iso edge vs = (i, vs', m') ->
      P vs m -> P vs' m') ->
  forall m c0 c1 c2 c3 e0 e1 e2 e3 vs ids vs' m',
    Q c0 e0 -> Q c1 e1 -> Q c2 e2 -> Q c3 e3 ->
    sharedIndices m iso (c0, c1, c2, c3) (e0, e1, e2, e3) vs = (ids, vs', m') ->
    P vs m -> P vs' m'.
Proof.
  intros Hstep m c0 c1 c2 c3 e0 e1 e2 e3 vs ids vs' m' Q0 Q1 Q2 Q3.
  unfold sharedIndices.
  destruct (GetSharedDualPointIndex m c0 iso e0 vs) as [[i0 vs0] m0] eqn:E0.
  destruct (GetSharedDualPointIndex m0 c1 iso e1 vs0) as [[i1 vs1] m1] eqn:E1.
  destruct (GetSharedDualPointIndex m1 c2 iso e2 vs1) as [[i2 vs2] m2] eqn:E2.
  destruct (GetSharedDualPointIndex m2 c3 iso e3 vs2) as [[i3 vs3] m3] eqn:E3.
  intros Heq HP. injection Heq as _ <- <-.
  eapply (Hstep _ _ _ _ _ _ _ Q3 E3). eapply (Hstep _ _ _ _ _ _ _ Q2 E2).
  eapply (Hstep _ _ _ _ _ _ _ Q1 E1). eapply (Hstep _ _ _ _ _ _ _ Q0 E0).
  exact HP.
Qed.

(** At a crossing the samples at the two ends of the grid edge lie on
    different sides of iso. *)
Lemma crossing_sides (a b iso : T) :
  (ge a iso && lt b iso) || (lt a iso && ge b iso) = true ->
  ge a iso <> ge b iso.
Proof.
  intros Hx. apply orb_prop in Hx as [Hx | Hx];
    apply andb_prop in Hx as [H1 H2].
  - rewrite H1, (lt_not_ge _ _ H2). discriminate.
  - rewrite H2, (lt_not_ge _ _ H1). discriminate.
Qed.

(** The driver asks for dual points of edges with a sign change only:
    at a crossing of the sweep each of the four requests names a cell of
    the volume and a cube edge of it that is the crossed grid edge. *)
Lemma crossing_requests (a : Axis) (m : Mesher T) (iso : T) (c : int3)
    (entering exiting : bool) :
  In c (sweep (dims m)) ->
  edgeGuard a (i3x c) (i3y c) (i3z c) = true ->
  edgeStatus a m iso (i3x c) (i3y c) (i3z c) = (entering, exiting) ->
  entering || exiting = true ->
  let '(c0, c1, c2, c3) := edgeCells a (i3x c) (i3y c) (i3z c) in
  let '(e0, e1, e2, e3) := edgeCodes a in
  goodRequest m iso c0 e0 /\ goodRequest m iso c1 e1
  /\ goodRequest m iso c2 e2 /\ goodRequest m iso c3 e3.
Proof.
  intros Hc Hg Hs Hx.
  pose proof (edgeCells_inVolume a (dims m) c Hc Hg) as Hcells.
  destruct c as [x y z]. cbn [i3x i3y i3z] in *.
  assert (Hsides : match a with
                   | AxisX => ge (sample m x y z) iso
                              <> ge (sample m (x + 1) y z) iso
                   | AxisY => ge (sample m x y z) iso
                              <> ge (sample m x (y + 1) z) iso
                   | AxisZ => ge (sample m x y z) iso
                              <> ge (sample m x y (z + 1)) iso
                   end).
  { destruct a; cbn [edgeStatus] in Hs; unfold GetStatus in Hs;
      injection Hs as <- <-; rewrite ?Z.add_0_r in Hx;
      apply crossing_sides; exact Hx. }
  assert (Hreq : forall cell e x' y' z' x'' y'' z'',
            cellInVolume (dims m) cell -> 0 <= e < 12 ->
            ge (sample m x' y' z') iso <> ge (sample m x'' y'' z'') iso ->
            cornerSample m cell (fst (edgeCorners e)) = sample m x' y' z' ->
            cornerSample m cell (snd (edgeCorners e)) = sample m x'' y'' z'' ->
            goodRequest m iso cell (edgeCode e)).
  { intros cell e x' y' z' x'' y'' z'' Hin He Hne H1 H2. split; [exact Hin |].
    apply GetDualPointCode_nonzero; [exact He |]. rewrite H1, H2. exact Hne. }
  destruct a; cbn [edgeCells edgeCodes cellsOf] in *;
    apply Forall_cons in Hcells as [H0 Hcells];
    apply Forall_cons in Hcells as [H1 Hcells];
    apply Forall_cons in Hcells as [H2 Hcells];
    apply Forall_cons in Hcells as [H3 _];
    unfold goodRequest;
    refine (conj (conj H0 _) (conj (conj H1 _) (conj (conj H2 _) (conj H3 _))));
    match goal with
    | |- GetDualPointCode ?m ?cell ?iso ?edge <> 0 =>
        let e := match edge with
                 | EDGE0 => constr:(0) | EDGE1 => constr:(1)
                 | EDGE2 => constr:(2) | EDGE3 => constr:(3)
                 | EDGE4 => constr:(4) | EDGE5 => constr:(5)
                 | EDGE6 => constr:(6) | EDGE7 => constr:(7)
                 | EDGE8 => constr:(8) | EDGE9 => constr:(9)
                 | EDGE10 => constr:(10) | EDGE11 => constr:(11)
                 end in
        change edge with (edgeCode e);
        apply (Hreq cell e _ _ _ _ _ _ ltac:(assumption) ltac:(lia) Hsides);
        unfold cornerSample; cbn [edgeCorners fst snd];
        match goal with
        | |- context [cornerOffset ?k] =>
            let v := eval vm_compute in (cornerOffset k) in
            change (cornerOffset k) with v
        end; cbn [i3x i3y i3z]; f_equal; lia
    end.
Qed.

Lemma GetDualPointCode_count (m : Mesher T) (cell : int3) (iso : T)
    (edge : Z) :
  GetDualPointCode m cell iso edge <> 0 ->
  3 <= flaggedEdges (GetDualPointCode m cell iso edge) <= 7.
Proof.
  unfold GetDualPointCode. cbn [scanDualPoints].
  repeat match goal with
         | |- context [if negb ?b then _ else _] => destruct b; cbn [negb]
         end;
    intros Hne; try (apply dualPoint_count; exact Hne); congruence.
Qed.

Lemma goodRequest_sameVolume (m m' : Mesher T) (iso : T) (cell : int3)
    (edge : Z) :
  sameVolume m m' -> goodRequest m' iso cell edge -> goodRequest m iso cell edge.
Proof.
  intros Hs [Hin Hne]. pose proof Hs as (Hd & _). split.
  - rewrite <- Hd. exact Hin.
  - rewrite <- (GetDualPointCode_sameVolume m m' cell iso edge Hs). exact Hne.
Qed.

Lemma dualPointOf_sameVolume (m m' : Mesher T) (iso : T) (v : Vertex) :
  sameVolume m m' -> dualPointOf m iso v -> dualPointOf m' iso v.
Proof.
  intros Hs (cell & code & Hin & Hpts & ->). pose proof Hs as (Hd & _).
  exists cell, code. split; [rewrite Hd; exact Hin | split].
  - rewrite (sumEdgePoints_sameVolume m m' cell iso code Hs). exact Hpts.
  - symmetry. apply CalculateDualPoint_sameVolume. exact Hs.
Qed.

(** A request in order appends nothing or a dual point. *)
Lemma request_dualPoint (m0 m : Mesher T) (iso : T) (cell : int3) (edge : Z)
    (vs : list Vertex) i vs' m' :
  goodRequest m0 iso cell edge ->
  GetSharedDualPointIndex m cell iso edge vs = (i, vs', m') ->
  sameVolume m0 m /\ Forall (dualPointOf m0 iso) vs ->
  sameVolume m0 m' /\ Forall (dualPointOf m0 iso) vs'.
Proof.
  intros [Hin Hne] Heq [Hs Hvs].
  destruct (GetSharedDualPointIndex_cases m cell iso edge vs)
    as [(j & _ & Hhit) | (_ & Hmiss)].
  - rewrite Hhit in Heq. injection Heq as <- <- <-. split; assumption.
  - rewrite Hmiss in Heq. injection Heq as <- <- <-. split.
    + eapply sameVolume_trans; [exact Hs | apply sameVolume_set].
    + apply Forall_app. split; [exact Hvs |]. constructor; [| constructor].
      cbn [pointCode].
      rewrite (GetDualPointCode_sameVolume m0 m cell iso edge Hs).
      rewrite (CalculateDualPoint_sameVolume m0 m cell iso _ Hs).
      exists cell, (GetDualPointCode m0 cell iso edge).
      split; [exact Hin | split; [| reflexivity]].
      rewrite sumEdgePoints_points. apply GetDualPointCode_count. exact Hne.
Qed.

Lemma sweep_dualPoints (m0 : Mesher T) (iso : T) (topology : Topology)
    (st : Mesh * Mesher T) :
  sameVolume m0 (snd st) /\ Forall (dualPointOf m0 iso) (vertices (fst st)) ->
  let st' := fold_left
    (fun st c => voxelBody iso topology (i3x c) (i3y c) (i3z c) st)
    (sweep (dims m0)) st in
  sameVolume m0 (snd st') /\ Forall (dualPointOf m0 iso) (vertices (fst st')).
Proof.
  intros Hst.
  apply (crossings_preserve iso topology
    (fun st => sameVolume m0 (snd st)
               /\ Forall (dualPointOf m0 iso) (vertices (fst st))));
    [| exact Hst].
  intros a c mesh m entering exiting Hc [Hs Hvs] Hg Hstat Hx.
  cbn [fst snd] in Hs, Hvs. pose proof Hs as (Hd & _).
  pose proof (crossing_requests a m iso c entering exiting
                ltac:(rewrite Hd; exact Hc) Hg Hstat Hx) as Hreq.
  unfold ConstructFace.
  destruct (edgeCells a (i3x c) (i3y c) (i3z c)) as [[[c0 c1] c2] c3].
  destruct (edgeCodes a) as [[[e0 e1] e2] e3].
  destruct Hreq as (Q0 & Q1 & Q2 & Q3).
  apply (goodRequest_sameVolume m0 m) in Q0, Q1, Q2, Q3; try exact Hs.
  destruct (sharedIndices m iso (c0, c1, c2, c3) (e0, e1, e2, e3)
              (vertices mesh)) as [[[[[i0 i1] i2] i3] vs] m'] eqn:E.
  cbn [fst snd vertices].
  eapply (sharedIndices_preserves_where
            (fun vs m => sameVolume m0 m /\ Forall (dualPointOf m0 iso) vs)
            (goodRequest m0 iso) iso);
    [| exact Q0 | exact Q1 | exact Q2 | exact Q3 | exact E | split; assumption].
  intros m1 cell edge vs1 i vs1' m1' HQ Heq HP.
  eapply request_dualPoint; eassumption.
Qed.

(** X6: the driver never asks the locator for an edge without a sign
    change, so no vertex is the mean of zero points: every vertex of the
    mesh that [Build] returns is the dual point of a cell of the volume,
    computed as the mean of at least 3 and at most 7 edge points. *)
Theorem vertices_are_dual_points (self : Mesher T) (data : span T)
    (dimension : int3) (iso : T) (generateManifold : bool)
    (topology : Topology) :
  match Build self data dimension iso generateManifold topology with
  | Some (mesh, m') => Forall (dualPointOf m' iso) (vertices mesh)
  | None => buildAsserts data dimension = false
  end.
Proof.
  unfold Build. destruct (buildAsserts data dimension); [| reflexivity].
  rewrite BuildInternal_sweep.
  set (m0 := clearPointToIndex _).
  pose proof (sweep_dualPoints m0 iso topology (mkMesh [] [], m0)
                (conj (sameVolume_refl m0) (Forall_nil_2 _))) as Hfin.
  cbv zeta in Hfin. change (dims (mkMesher _ _ _ _)) with (dims m0).
  destruct (fold_left _ (sweep (dims m0)) _) as [mesh m'].
  destruct Hfin as [Hs Hvs]. cbn [fst snd] in Hs, Hvs.
  eapply Forall_impl; [exact Hvs |].
  intros v Hv. eapply dualPointOf_sameVolume; eassumption.
Qed.

(** What a block of the loop body adds to the index sequence. *)
Lemma edgeFace_count (a : Axis) (m0 : Mesher T) (iso : T)
    (topology : Topology) (c : int3) (st : Mesh * Mesher T) :
  sameVolume m0 (snd st) ->
  let st' := edgeFace a iso topology (i3x c) (i3y c) (i3z c) st in
  sameVolume m0 (snd st')
  /\ length (indices (fst st'))
     = (length (indices (fst st))
        + if crossingAt m0 iso c a then faceSize topology else 0)%nat.
Proof.
  destruct st as [mesh m]. cbn [fst snd]. intros Hs. cbv zeta.
  unfold crossingAt.
  rewrite <- (edgeStatus_sameVolume a m0 m iso _ _ _ Hs).
  destruct (edgeGuard a (i3x c) (i3y c) (i3z c)) eqn:Hg;
    [| rewrite edgeFace_no_guard by exact Hg; cbn [andb fst snd];
       split; [exact Hs | lia]].
  destruct (edgeStatus a m iso (i3x c) (i3y c) (i3z c))
    as [entering exiting] eqn:Hst.
  cbn [andb fst snd].
  destruct (entering || exiting) eqn:Hx.
  - rewrite (edgeFace_crossing a iso topology _ _ _ mesh m _ _ Hg Hst Hx).
    unfold ConstructFace.
    destruct (sharedIndices m iso _ _ (vertices mesh))
      as [[[[[i0 i1] i2] i3] vs] m'] eqn:E.
    cbn [fst snd indices]. split.
    + assert (Hc : continues (vertices mesh, m) (vs, m')).
      { eapply (sharedIndices_preserves
                  (fun vs' m' => continues (vertices mesh, m) (vs', m')) iso);
          [| exact E | apply continues_refl].
        intros m1 cell edge vs1 i vs1' m1' Heq Hc1.
        eapply continues_trans; [exact Hc1 |].
        eapply GetSharedDualPointIndex_continues. exact Heq. }
      destruct Hc as (_ & _ & Hs'). cbn [snd] in Hs'.
      eapply sameVolume_trans; eassumption.
    + rewrite length_app, faceIndices_length. destruct topology; reflexivity.
  - apply orb_false_elim in Hx as [-> ->].
    rewrite (edgeFace_no_crossing a iso topology _ _ _ mesh m Hst).
    cbn [fst snd]. split; [exact Hs | lia].
Qed.

Lemma voxels_count (m0 : Mesher T) (iso : T) (topology : Topology)
    (l : list int3) (st : Mesh * Mesher T) :
  sameVolume m0 (snd st) ->
  let st' := fold_left
    (fun st c => voxelBody iso topology (i3x c) (i3y c) (i3z c) st) l st in
  sameVolume m0 (snd st')
  /\ length (indices (fst st'))
     = (length (indices (fst st))
        + faceSize topology * length (crossingEdges m0 iso l))%nat.
Proof.
  revert st. induction l as [| c l IH]; intros st Hs; cbv zeta.
  - cbn [fold_left crossingEdges flat_map length]. split; [exact Hs | lia].
  - cbn [fold_left]. rewrite voxelBody_blocks.
    destruct (edgeFace_count AxisX m0 iso topology c st Hs) as [Hs1 H1].
    destruct (edgeFace_count AxisY m0 iso topology c _ Hs1) as [Hs2 H2].
    destruct (edgeFace_count AxisZ m0 iso topology c _ Hs2) as [Hs3 H3].
    destruct (IH _ Hs3) as [Hs4 H4]. split; [exact Hs4 |].
    rewrite H4, H3, H2, H1.
    unfold crossingEdges. cbn [flat_map]. fold (crossingEdges m0 iso l).
    rewrite length_app, length_map. unfold axes. cbn [List.filter].
    destruct (crossingAt m0 iso c AxisX), (crossingAt m0 iso c AxisY),
             (crossingAt m0 iso c AxisZ); cbn [length]; lia.
Qed.

Lemma crossingEdges_sameVolume (m m' : Mesher T) (iso : T) (l : list int3) :
  dims m' = dims m -> volume m' = volume m ->
  crossingEdges m' iso l = crossingEdges m iso l.
Proof.
  intros Hd Hv. destruct m, m'. simpl in Hd, Hv. subst. reflexivity.
Qed.

(** X7: the mesh has one face per crossing of the sweep: the number of
    indices that [Build] returns is 4 (Quads) or 6 (Triangles) times the
    number of grid edges of the sweep that pass the guard of their block
    and whose end samples lie on different sides of iso. *)
Theorem one_face_per_crossing (self : Mesher T) (data : span T)
    (dimension : int3) (iso : T) (generateManifold : bool)
    (topology : Topology) :
  match Build self data dimension iso generateManifold topology with
  | Some (mesh, m') =>
      length (indices mesh)
      = (faceSize topology
         * length (crossingEdges m' iso (sweep (dims m'))))%nat
  | None => buildAsserts data dimension = false
  end.
Proof.
  unfold Build. destruct (buildAsserts data dimension); [| reflexivity].
  rewrite BuildInternal_sweep.
  set (m0 := clearPointToIndex _).
  change (dims (mkMesher _ _ _ _)) with (dims m0).
  destruct (voxels_count m0 iso topology (sweep (dims m0)) (mkMesh [] [], m0)
              (sameVolume_refl m0)) as [Hs Hn].
  destruct (fold_left _ (sweep (dims m0)) _) as [mesh m'].
  cbn [fst snd indices length] in Hs, Hn. rewrite Hn.
  destruct Hs as (Hd & Hv & _).
  rewrite Hd, (crossingEdges_sameVolume m0 m' iso _ Hd Hv). reflexivity.
Qed.

(** X8: the manifold flag changes which vertices the faces use, never
    which grid edges get a face: with and without the flag [Build]
    returns the same number of indices. *)
Theorem manifold_flag_keeps_faces (self : Mesher T) (data : span T)
    (dimension : int3) (iso : T) (topology : Topology) :
  match Build self data dimension iso true topology,
        Build self data dimension iso false topology with
  | Some (manifold, _), Some (plain, _) =>
      length (indices manifold) = length (indices plain)
  | None, None => buildAsserts data dimension = false
  | _, _ => False
  end.
Proof.
  unfold Build. destruct (buildAsserts data dimension); [| reflexivity].
  rewrite !BuildInternal_sweep.
  set (m1 := clearPointToIndex (mkMesher dimension data true _)).
  set (m2 := clearPointToIndex (mkMesher dimension data false _)).
  change (dims (mkMesher dimension data true _)) with dimension.
  change (dims (mkMesher dimension data false _)) with dimension.
  destruct (voxels_count m1 iso topology (sweep dimension) (mkMesh [] [], m1)
              (sameVolume_refl m1)) as [_ Hn1].
  destruct (voxels_count m2 iso topology (sweep dimension) (mkMesh [] [], m2)
              (sameVolume_refl m2)) as [_ Hn2].
  destruct (fold_left _ (sweep dimension) (mkMesh [] [], m1)) as [mesh1 m1'].
  destruct (fold_left _ (sweep dimension) (mkMesh [] [], m2)) as [mesh2 m2'].
  cbn [fst snd indices length] in Hn1, Hn2. rewrite Hn1, Hn2.
  rewrite (crossingEdges_sameVolume m2 m1 iso _ eq_refl eq_refl). reflexivity.
Qed.
End Sweep.

(** ** Vertices and faces *)

Section Referenced.
Context {T : Type} `{VolumeDataType T}.

Lemma request_new_vertices (m : Mesher T) (cell : int3) (iso : T) (edge : Z)
    (vs : list Vertex) i vs' m' :
  GetSharedDualPointIndex m cell iso edge vs = (i, vs', m') ->
  (length vs <= length vs')%nat
  /\ forall n : nat, (length vs <= n < length vs')%nat ->
       u32 (Z.of_nat n) = i.
Proof.
  intros Heq.
  destruct (GetSharedDualPointIndex_cases m cell iso edge vs)
    as [(j & _ & Hhit) | (_ & Hmiss)].
  - rewrite Hhit in Heq. injection Heq as <- <- <-. split; [lia | lia].
  - rewrite Hmiss in Heq. injection Heq as <- <- <-.
    rewrite length_app. cbn [length]. split; [lia |].
    intros n Hn. f_equal. lia.
Qed.

Lemma sharedIndices_new_vertices (m : Mesher T) (iso : T) cells edges
    (vs : list Vertex) i0 i1 i2 i3 vs' m' :
  sharedIndices m iso cells edges vs = ((i0, i1, i2, i3), vs', m') ->
  (length vs <= length vs')%nat
  /\ forall n : nat, (length vs <= n < length vs')%nat ->
       In (u32 (Z.of_nat n)) [i0; i1; i2; i3].
Proof.
  destruct cells as [[[c0 c1] c2] c3], edges as [[[e0 e1] e2] e3].
  unfold sharedIndices.
  destruct (GetSharedDualPointIndex m c0 iso e0 vs) as [[j0 vs0] m0] eqn:E0.
  destruct (GetSharedDualPointIndex m0 c1 iso e1 vs0) as [[j1 vs1] m1] eqn:E1.
  destruct (GetSharedDualPointIndex m1 c2 iso e2 vs1) as [[j2 vs2] m2] eqn:E2.
  destruct (GetSharedDualPointIndex m2 c3 iso e3 vs2) as [[j3 vs3] m3] eqn:E3.
  intros Heq. injection Heq as <- <- <- <- <- <-.
  apply request_new_vertices in E0 as [L0 N0].
  apply request_new_vertices in E1 as [L1 N1].
  apply request_new_vertices in E2 as [L2 N2].
  apply request_new_vertices in E3 as [L3 N3].
  split; [lia |]. intros n Hn. cbn [In].
  destruct (Nat.lt_ge_cases n (length vs0));
    [left; symmetry; apply N0; lia |].
  destruct (Nat.lt_ge_cases n (length vs1));
    [right; left; symmetry; apply N1; lia |].
  destruct (Nat.lt_ge_cases n (length vs2));
    [right; right; left; symmetry; apply N2; lia |].
  right; right; right; left. symmetry. apply N3. lia.
Qed.

Lemma faceIndices_all (topology : Topology) (cond : bool)
    (i0 i1 i2 i3 j : Z) :
  In j [i0; i1; i2; i3] -> In j (faceIndices topology cond i0 i1 i2 i3).
Proof.
  cbn [In]. destruct topology, cond; cbn [faceIndices In]; tauto.
Qed.

Lemma referenced_face (iso : T) (topology : Topology) :
  faceClosed iso topology (fun st =>
    forall n : nat, (n < length (vertices (fst st)))%nat ->
      In (u32 (Z.of_nat n)) (indices (fst st))).
Proof.
  intros m mesh cond cells edges Hinv. cbn [fst] in Hinv.
  unfold ConstructFace.
  destruct (sharedIndices m iso cells edges (vertices mesh))
    as [[[[[i0 i1] i2] i3] vs] m'] eqn:E.
  apply sharedIndices_new_vertices in E as [Hlen Hnew].
  cbn [fst vertices indices]. intros n Hn. apply in_or_app.
  destruct (Nat.lt_ge_cases n (length (vertices mesh))) as [Hold | Hge].
  - left. apply Hinv. exact Hold.
  - right. apply faceIndices_all. apply Hnew. lia.
Qed.

(** X9: the mesh has no unused vertex: every vertex of the mesh that
    [Build] returns is named by an index of the mesh (by its position
    cast to [uint32_t], which is its position when the mesh has at most
    2^32 vertices). *)
Theorem vertices_are_referenced (self : Mesher T) (data : span T)
    (dimension : int3) (iso : T) (generateManifold : bool)
    (topology : Topology) :
  match Build self data dimension iso generateManifold topology with
  | Some (mesh, _) =>
      forall n : nat, (n < length (vertices mesh))%nat ->
        In (u32 (Z.of_nat n)) (indices mesh)
        /\ (Z.of_nat (length (vertices mesh)) <= 2 ^ 32 ->
            In (Z.of_nat n) (indices mesh))
  | None => buildAsserts data dimension = false
  end.
Proof.
  unfold Build. destruct (buildAsserts data dimension); [| reflexivity].
  set (m := mkMesher _ _ _ _).
  pose proof (BuildInternal_preserves iso topology _ m (mkMesh [] [])
                (referenced_face iso topology)) as Hfin.
  cbn beta in Hfin.
  destruct (BuildInternal m iso topology (mkMesh [] [])) as [mesh m'].
  cbn [fst] in Hfin. intros n Hn.
  assert (Hin : In (u32 (Z.of_nat n)) (indices mesh)).
  { apply Hfin; [| exact Hn]. cbn [vertices length]. intros k Hk. lia. }
  split; [exact Hin |].
  intros Hfit. rewrite u32_small in Hin by lia. exact Hin.
Qed.
End Referenced.

(** ** Edge cases of the input *)

Section EdgeCases.
Context {T : Type} `{VolumeDataType T}.

Lemma sweep_no_guard_empty (m : Mesher T) (iso : T) (topology : Topology) :
  (forall a c, In c (sweep (dims m)) ->
               edgeGuard a (i3x c) (i3y c) (i3z c) = false) ->
  fold_left (fun st c => voxelBody iso topology (i3x c) (i3y c) (i3z c) st)
            (sweep (dims m)) (mkMesh [] [], m)
  = (mkMesh [] [], m).
Proof.
  intros Hg.
  apply (fold_left_invariant (fun st => st = (mkMesh [] [], m)));
    [reflexivity |].
  intros c st Hc ->. rewrite voxelBody_blocks.
  rewrite !edgeFace_no_guard by (apply Hg; exact Hc). reflexivity.
Qed.

(** X10: a face needs room around its grid edge.  When some dimension is
    at most 2, or two of the three dimensions are at most 3, [Build]
    returns the empty mesh whatever the samples (or aborts on an
    assertion). *)
Theorem thin_volume_empty_mesh (self : Mesher T) (data : span T)
    (dimension : int3) (iso : T) (generateManifold : bool)
    (topology : Topology) :
  i3x dimension <= 2 \/ i3y dimension <= 2 \/ i3z dimension <= 2
  \/ (i3x dimension <= 3 /\ i3y dimension <= 3)
  \/ (i3x dimension <= 3 /\ i3z dimension <= 3)
  \/ (i3y dimension <= 3 /\ i3z dimension <= 3) ->
  option_map fst (Build self data dimension iso generateManifold topology)
  = if buildAsserts data dimension then Some (mkMesh [] []) else None.
Proof.
  intros Hthin. unfold Build.
  destruct (buildAsserts data dimension); [| reflexivity].
  cbn [option_map]. f_equal. rewrite BuildInternal_sweep.
  set (m := clearPointToIndex _).
  change (dims (mkMesher _ _ _ _)) with (dims m).
  rewrite sweep_no_guard_empty; [reflexivity |].
  intros a c Hc. apply In_sweep in Hc. change (dims m) with dimension in Hc.
  destruct a; cbn [edgeGuard]; apply andb_false_iff;
    rewrite !Z.gtb_ltb, !Z.ltb_ge; lia.
Qed.

(** X11: [Build] overwrites the volume, the dimensions and the flag of the
    mesher and clears its cache before the sweep, so its result (mesh and
    mesher) does not depend on the state the mesher was left in by
    earlier calls. *)
Theorem Build_forgets_history (self self' : Mesher T) (data : span T)
    (dimension : int3) (iso : T) (generateManifold : bool)
    (topology : Topology) :
  Build self data dimension iso generateManifold topology
  = Build self' data dimension iso generateManifold topology.
Proof.
  unfold Build. destruct (buildAsserts data dimension); [| reflexivity].
  rewrite !BuildInternal_sweep. reflexivity.
Qed.
End EdgeCases.

(** X12: with a NaN iso value no comparison holds, so no grid edge is a
    crossing: for every volume of [float] samples [Build] returns the
    empty mesh (or aborts on an assertion). *)
Theorem nan_iso_empty_mesh (self : Mesher float) (data : span float)
    (dimension : int3) (generateManifold : bool) (topology : Topology) :
  option_map fst
    (Build self data dimension S754_nan generateManifold topology)
  = if buildAsserts data dimension then Some (mkMesh [] []) else None.
Proof.
  unfold Build. destruct (buildAsserts data dimension); [| reflexivity].
  cbn [option_map]. f_equal. rewrite BuildInternal_sweep.
  set (m := clearPointToIndex _).
  assert (Hnan : forall a x y z,
            edgeStatus a m S754_nan x y z = (false, false)).
  { intros a x y z.
    assert (Hge : forall v : float, F32.geb v S754_nan = false)
      by (intros v; reflexivity).
    assert (Hlt : forall v : float, F32.ltb v S754_nan = false)
      by (intros v; unfold F32.ltb, SFltb; destruct v; reflexivity).
    destruct a; cbn [edgeStatus]; unfold GetStatus;
      cbn [ge lt float_VolumeDataType]; rewrite !Hge, !Hlt; reflexivity. }
  assert (Hfix : forall l,
    fold_left (fun st c =>
                 voxelBody S754_nan topology (i3x c) (i3y c) (i3z c) st)
              l (mkMesh [] [], m) = (mkMesh [] [], m)).
  { intros l.
    apply (fold_left_invariant (fun st => st = (mkMesh [] [], m)));
      [reflexivity |].
    intros c st _ ->. rewrite voxelBody_blocks.
    rewrite !edgeFace_no_crossing by apply Hnan. reflexivity. }
  rewrite Hfix. reflexivity.
Qed.

(** ** Faces name four distinct entries of the vertex sequence *)

Section ProperFaces.
Context {T : Type} `{VolumeDataType T}.

Lemma request_records (m : Mesher T) (cell : int3) (iso : T) (edge : Z)
    (vs : list Vertex) i vs' m' :
  GetSharedDualPointIndex m cell iso edge vs = (i, vs', m') ->
  pointToIndex m' !! mkKey (gAcell m cell) (GetDualPointCode m cell iso edge)
  = Some i.
Proof.
  intros Heq.
  destruct (GetSharedDualPointIndex_cases m cell iso edge vs)
    as [(j & Hk & Hhit) | (_ & Hmiss)].
  - rewrite Hhit in Heq. injection Heq as <- <- <-. exact Hk.
  - rewrite Hmiss in Heq. injection Heq as <- <- <-.
    cbn [pointToIndex setPointToIndex]. apply lookup_insert_eq.
Qed.

Lemma recorded_position (iso : T) (ks : list DualPointKey)
    (vs : list Vertex) (m : Mesher T) (key : DualPointKey) (i : Z) :
  keysOf iso ks vs m -> pointToIndex m !! key = Some i ->
  exists p : nat,
    ks !! p = Some key /\ i = u32 (Z.of_nat p) /\ (p < length vs)%nat.
Proof.
  intros (Hlen & _ & Hdom & Hat) Hk.
  assert (Hin : key ∈ ks) by (apply Hdom; eexists; exact Hk).
  apply list_elem_of_lookup in Hin as [p Hp]. exists p.
  split; [exact Hp | split].
  - destruct (Hat p key Hp) as [Hmap _]. congruence.
  - rewrite <- Hlen. eapply lookup_lt_Some. exact Hp.
Qed.

Lemma edgeCells_distinct (a : Axis) (m : Mesher T) (c : int3) :
  In c (sweep (dims m)) -> edgeGuard a (i3x c) (i3y c) (i3z c) = true ->
  let '(c0, c1, c2, c3) := edgeCells a (i3x c) (i3y c) (i3z c) in
  NoDup [gAcell m c0; gAcell m c1; gAcell m c2; gAcell m c3].
Proof.
  intros Hc Hg.
  pose proof (edgeCells_inVolume a (dims m) c Hc Hg) as Hin.
  destruct (edgeCells a (i3x c) (i3y c) (i3z c)) as [[[c0 c1] c2] c3] eqn:E.
  cbn [cellsOf] in Hin.
  assert (Hnd : NoDup [c0; c1; c2; c3]).
  { destruct c as [x y z]. cbn [i3x i3y i3z] in *.
    destruct a; cbn [edgeCells] in E; injection E as <- <- <- <-;
      repeat (apply NoDup_cons; split;
              [rewrite ?not_elem_of_cons; repeat split;
               try apply not_elem_of_nil; intros [=]; lia |]);
      apply NoDup_nil_2. }
  change [gAcell m c0; gAcell m c1; gAcell m c2; gAcell m c3]
    with (gAcell m <$> [c0; c1; c2; c3]).
  apply NoDup_fmap_2_strong; [| exact Hnd].
  intros u v Hu Hv Heq.
  rewrite Forall_forall in Hin.
  pose proof (Hin u Hu) as (Hux & Huy & _).
  pose proof (Hin v Hv) as (Hvx & Hvy & _).
  apply (gAcell_injective m u v); (exact Heq || lia).
Qed.

(** The four requests of a face around a grid edge of the sweep return
    the positions (cast to [uint32_t]) of four distinct vertices. *)
Lemma sharedIndices_positions (m0 m : Mesher T) (iso : T)
    (c0 c1 c2 c3 : int3) (e0 e1 e2 e3 : Z) (vs : list Vertex)
    (ks : list DualPointKey) i0 i1 i2 i3 vs' m' :
  sameVolume m0 m -> keysOf iso ks vs m ->
  NoDup [gAcell m0 c0; gAcell m0 c1; gAcell m0 c2; gAcell m0 c3] ->
  sharedIndices m iso (c0, c1, c2, c3) (e0, e1, e2, e3) vs
  = ((i0, i1, i2, i3), vs', m') ->
  sameVolume m0 m'
  /\ (exists ks', keysOf iso ks' vs' m')
  /\ (length vs <= length vs')%nat
  /\ exists p0 p1 p2 p3 : nat,
       properFace (length vs') ((p0, p1, p2, p3), true)
       /\ i0 = u32 (Z.of_nat p0) /\ i1 = u32 (Z.of_nat p1)
       /\ i2 = u32 (Z.of_nat p2) /\ i3 = u32 (Z.of_nat p3).
Proof.
  intros Hs Hks Hids. unfold sharedIndices.
  destruct (GetSharedDualPointIndex m c0 iso e0 vs) as [[j0 vs0] m1] eqn:E0.
  destruct (GetSharedDualPointIndex m1 c1 iso e1 vs0) as [[j1 vs1] m2] eqn:E1.
  destruct (GetSharedDualPointIndex m2 c2 iso e2 vs1) as [[j2 vs2] m3] eqn:E2.
  destruct (GetSharedDualPointIndex m3 c3 iso e3 vs2) as [[j3 vs3] m4] eqn:E3.
  intros Heq. injection Heq as <- <- <- <- <- <-.
  pose proof (GetSharedDualPointIndex_continues _ _ _ _ _ _ _ _ E0)
    as (P0 & S0 & V0).
  pose proof (GetSharedDualPointIndex_continues _ _ _ _ _ _ _ _ E1)
    as (P1 & S1 & V1).
  pose proof (GetSharedDualPointIndex_continues _ _ _ _ _ _ _ _ E2)
    as (P2 & S2 & V2).
  pose proof (GetSharedDualPointIndex_continues _ _ _ _ _ _ _ _ E3)
    as (P3 & S3 & V3).
  cbn [fst snd] in *.
  assert (Hs1 : sameVolume m0 m1) by (eapply sameVolume_trans; eassumption).
  assert (Hs2 : sameVolume m0 m2) by (eapply sameVolume_trans; eassumption).
  assert (Hs3 : sameVolume m0 m3) by (eapply sameVolume_trans; eassumption).
  assert (Hs4 : sameVolume m0 m4) by (eapply sameVolume_trans; eassumption).
  destruct (keysOf_request iso _ _ _ _ _ _ _ ks E0 Hks) as [ks0 K0].
  destruct (keysOf_request iso _ _ _ _ _ _ _ ks0 E1 K0) as [ks1 K1].
  destruct (keysOf_request iso _ _ _ _ _ _ _ ks1 E2 K1) as [ks2 K2].
  destruct (keysOf_request iso _ _ _ _ _ _ _ ks2 E3 K2) as [ks3 K3].
  apply request_records in E0, E1, E2, E3.
  rewrite (gAcell_sameVolume m0 m c0 Hs) in E0.
  rewrite (gAcell_sameVolume m0 m1 c1 Hs1) in E1.
  rewrite (gAcell_sameVolume m0 m2 c2 Hs2) in E2.
  rewrite (gAcell_sameVolume m0 m3 c3 Hs3) in E3.
  assert (S24 : pointToIndex m2 ⊆ pointToIndex m4)
    by (etransitivity; [exact S2 | exact S3]).
  assert (S14 : pointToIndex m1 ⊆ pointToIndex m4)
    by (etransitivity; [exact S1 | exact S24]).
  pose proof (lookup_weaken _ _ _ _ E0 S14) as R0.
  pose proof (lookup_weaken _ _ _ _ E1 S24) as R1.
  pose proof (lookup_weaken _ _ _ _ E2 S3) as R2.
  destruct (recorded_position iso ks3 vs3 m4 _ _ K3 R0) as (p0 & L0 & -> & B0).
  destruct (recorded_position iso ks3 vs3 m4 _ _ K3 R1) as (p1 & L1 & -> & B1).
  destruct (recorded_position iso ks3 vs3 m4 _ _ K3 R2) as (p2 & L2 & -> & B2).
  destruct (recorded_position iso ks3 vs3 m4 _ _ K3 E3) as (p3 & L3 & -> & B3).
  split; [exact Hs4 | split; [exists ks3; exact K3 | split]].
  { apply prefix_length in P0, P1, P2, P3. lia. }
  exists p0, p1, p2, p3.
  split; [| repeat split; reflexivity].
  split; [| repeat split; assumption].
  apply NoDup_cons in Hids as [N0 Hids]. apply NoDup_cons in Hids as [N1 Hids].
  apply NoDup_cons in Hids as [N2 _].
  assert (D01 : gAcell m0 c0 <> gAcell m0 c1)
    by (intros Heq; apply N0; rewrite !elem_of_cons; auto).
  assert (D02 : gAcell m0 c0 <> gAcell m0 c2)
    by (intros Heq; apply N0; rewrite !elem_of_cons; auto).
  assert (D03 : gAcell m0 c0 <> gAcell m0 c3)
    by (intros Heq; apply N0; rewrite !elem_of_cons; auto).
  assert (D12 : gAcell m0 c1 <> gAcell m0 c2)
    by (intros Heq; apply N1; rewrite !elem_of_cons; auto).
  assert (D13 : gAcell m0 c1 <> gAcell m0 c3)
    by (intros Heq; apply N1; rewrite !elem_of_cons; auto).
  assert (D23 : gAcell m0 c2 <> gAcell m0 c3)
    by (intros Heq; apply N2; rewrite !elem_of_cons; auto).
  assert (Hne : forall (p q : nat) (k k' : DualPointKey),
            ks3 !! p = Some k -> ks3 !! q = Some k' ->
            linearizedCellID k <> linearizedCellID k' -> p <> q).
  { intros p q k k' Hp Hq Hid ->. rewrite Hp in Hq. injection Hq as ->.
    apply Hid. reflexivity. }
  pose proof (Hne _ _ _ _ L0 L1 D01) as Q01.
  pose proof (Hne _ _ _ _ L0 L2 D02) as Q02.
  pose proof (Hne _ _ _ _ L0 L3 D03) as Q03.
  pose proof (Hne _ _ _ _ L1 L2 D12) as Q12.
  pose proof (Hne _ _ _ _ L1 L3 D13) as Q13.
  pose proof (Hne _ _ _ _ L2 L3 D23) as Q23.
  repeat (apply NoDup_cons; split;
          [intros Hin; rewrite ?elem_of_cons, elem_of_nil in Hin; lia |]).
  apply NoDup_nil_2.
Qed.

Lemma properFace_mono (n n' : nat) f :
  (n <= n')%nat -> properFace n f -> properFace n' f.
Proof.
  destruct f as [[[[p0 p1] p2] p3] cond]. cbn [properFace].
  intros Hle (Hnd & ? & ? & ? & ?). repeat split; try exact Hnd; lia.
Qed.

Lemma sweep_properFaces (m0 : Mesher T) (iso : T) (topology : Topology)
    (st : Mesh * Mesher T) :
  sameVolume m0 (snd st)
  /\ (exists ks, keysOf iso ks (vertices (fst st)) (snd st))
  /\ properFaces topology (fst st) ->
  let st' := fold_left
    (fun st c => voxelBody iso topology (i3x c) (i3y c) (i3z c) st)
    (sweep (dims m0)) st in
  properFaces topology (fst st').
Proof.
  intros Hst.
  apply (crossings_preserve iso topology
    (fun st => sameVolume m0 (snd st)
               /\ (exists ks, keysOf iso ks (vertices (fst st)) (snd st))
               /\ properFaces topology (fst st))); [| exact Hst].
  clear st Hst.
  intros a c mesh m entering exiting Hc (Hs & [ks Hks] & fs & Hidx & Hfs)
    Hg Hstat Hx.
  cbn [fst snd] in Hs, Hks, Hidx, Hfs.
  pose proof (edgeCells_distinct a m0 c Hc Hg) as Hnd.
  unfold ConstructFace.
  destruct (edgeCells a (i3x c) (i3y c) (i3z c)) as [[[c0 c1] c2] c3].
  destruct (edgeCodes a) as [[[e0 e1] e2] e3].
  destruct (sharedIndices m iso (c0, c1, c2, c3) (e0, e1, e2, e3)
              (vertices mesh)) as [[[[[i0 i1] i2] i3] vs] m'] eqn:E.
  destruct (sharedIndices_positions m0 m iso _ _ _ _ _ _ _ _ _ ks
              _ _ _ _ _ _ Hs Hks Hnd E)
    as (Hs' & Hks' & Hlen & p0 & p1 & p2 & p3 & Hproper & -> & -> & -> & ->).
  cbn [fst snd vertices indices].
  split; [exact Hs' | split; [exact Hks' |]].
  set (cond := match a with AxisX => entering | _ => exiting end).
  exists (fs ++ [((p0, p1, p2, p3), cond)]).
  cbn [vertices indices]. split.
  - rewrite flat_map_app, Hidx. cbn [flat_map faceAt]. rewrite app_nil_r.
    reflexivity.
  - apply Forall_app. split.
    + eapply Forall_impl; [exact Hfs |]. intros f Hf.
      eapply properFace_mono; eassumption.
    + constructor; [exact Hproper | constructor].
Qed.

(** X13: no face names an entry of the vertex sequence twice.  When
    dimX*dimY and dimX*dimY*dimZ are values of [int32_t], the index
    sequence of the mesh that [Build] returns is a sequence of faces,
    each emitted ([faceIndices]) for four places of the vertex sequence
    that are pairwise distinct and below its length; when the mesh has
    at most 2^32 vertices the four indices of each face are pairwise
    distinct as well.  The four entries are distinct as entries, not as
    points of space: the dual points of different cells can lie at the
    same position ([spike_face_one_position]). *)
Theorem faces_have_distinct_indices (self : Mesher T) (data : span T)
    (dimension : int3) (iso : T) (generateManifold : bool)
    (topology : Topology) :
  noOverflow dimension ->
  match Build self data dimension iso generateManifold topology with
  | Some (mesh, _) =>
      exists fs,
        indices mesh = flat_map (faceAt topology) fs
        /\ Forall (properFace (length (vertices mesh))) fs
        /\ (Z.of_nat (length (vertices mesh)) <= 2 ^ 32 ->
            Forall (fun f =>
              let '((p0, p1, p2, p3), _) := f in
              NoDup [u32 (Z.of_nat p0); u32 (Z.of_nat p1);
                     u32 (Z.of_nat p2); u32 (Z.of_nat p3)]) fs)
  | None => buildAsserts_int32 data dimension = false
  end.
Proof.
  intros Hno. rewrite (buildAsserts_int32_exact data dimension Hno).
  unfold Build. destruct (buildAsserts data dimension); [| reflexivity].
  rewrite BuildInternal_sweep.
  set (m0 := clearPointToIndex _).
  change (dims (mkMesher _ _ _ _)) with (dims m0).
  assert (Hinit : sameVolume m0 (snd (mkMesh [] [], m0))
            /\ (exists ks, keysOf iso ks (vertices (fst (mkMesh [] [], m0)))
                             (snd (mkMesh [] [], m0)))
            /\ properFaces topology (fst (mkMesh [] [], m0))).
  { split; [apply sameVolume_refl | split].
    - exists []. split; [reflexivity | split; [apply NoDup_nil_2 | split]].
      + intros k. cbn [snd]. unfold m0. cbn [pointToIndex clearPointToIndex].
        rewrite lookup_empty. split.
        * intros Hk. apply elem_of_nil in Hk. contradiction.
        * intros [v Hv]. discriminate.
      + intros n k Hn. discriminate.
    - exists []. split; [reflexivity | constructor]. }
  pose proof (sweep_properFaces m0 iso topology _ Hinit) as Hfin.
  cbv zeta in Hfin.
  destruct (fold_left _ (sweep (dims m0)) _) as [mesh m'].
  cbn [fst] in Hfin. destruct Hfin as (fs & Hidx & Hfs).
  exists fs. split; [exact Hidx | split; [exact Hfs |]].
  intros Hfit. eapply Forall_impl; [exact Hfs |].
  intros [[[[p0 p1] p2] p3] cond] (Hnd & B0 & B1 & B2 & B3).
  rewrite !u32_small by lia.
  change [Z.of_nat p0; Z.of_nat p1; Z.of_nat p2; Z.of_nat p3]
    with (Z.of_nat <$> [p0; p1; p2; p3]).
  apply NoDup_fmap_2; [| exact Hnd].
  intros x y Hxy. apply Nat2Z.inj. exact Hxy.
Qed.
End ProperFaces.

(** ** The keys of the cache *)

Section CacheKeys.
Context {T : Type} `{VolumeDataType T}.

Lemma GetDualPointCode_range (m : Mesher T) (cell : int3) (iso : T)
    (edge : Z) :
  GetDualPointCode m cell iso edge <> 0 ->
  0 < GetDualPointCode m cell iso edge < 2 ^ 12.
Proof.
  unfold GetDualPointCode. cbn [scanDualPoints].
  repeat match goal with
         | |- context [if negb ?b then _ else _] => destruct b; cbn [negb]
         end;
    intros Hne; try (apply dualPoint_count; exact Hne); congruence.
Qed.

Lemma request_extractionKey (m0 m : Mesher T) (iso : T) (cell : int3)
    (edge : Z) (vs : list Vertex) i vs' m' :
  goodRequest m0 iso cell edge ->
  GetSharedDualPointIndex m cell iso edge vs = (i, vs', m') ->
  sameVolume m0 m
  /\ map_Forall (fun k _ => extractionKey (dims m0) k) (pointToIndex m) ->
  sameVolume m0 m'
  /\ map_Forall (fun k _ => extractionKey (dims m0) k) (pointToIndex m').
Proof.
  intros [Hin Hne] Heq [Hs Hkeys].
  destruct (GetSharedDualPointIndex_cases m cell iso edge vs)
    as [(j & _ & Hhit) | (_ & Hmiss)].
  - rewrite Hhit in Heq. injection Heq as <- <- <-. split; assumption.
  - rewrite Hmiss in Heq. injection Heq as <- <- <-. split.
    + eapply sameVolume_trans; [exact Hs | apply sameVolume_set].
    + cbn [pointToIndex setPointToIndex].
      apply map_Forall_insert_2; [| exact Hkeys].
      rewrite (gAcell_sameVolume m0 m cell Hs).
      rewrite (GetDualPointCode_sameVolume m0 m cell iso edge Hs).
      destruct Hin as (Hx & Hy & Hz).
      split; [| split]; cbn [linearizedCellID pointCode].
      * apply gA_in_range; lia.
      * apply GetDualPointCode_range. exact Hne.
      * apply GetDualPointCode_count. exact Hne.
Qed.

(** X15: when dimX*dimY and dimX*dimY*dimZ are values of [int32_t], so
    that no id of [gA] wraps around, every key that [Build] leaves in the
    cache is the key of an extraction: its cell id is a linearized id of
    the volume, below dimX*dimY*dimZ, and its point code is a nonzero
    12-bit mask of between 3 and 7 edges.  These are keys on which the
    hash functor has no collision. *)
Theorem cache_keys_well_formed (self : Mesher T) (data : span T)
    (dimension : int3) (iso : T) (generateManifold : bool)
    (topology : Topology) :
  noOverflow dimension ->
  match Build self data dimension iso generateManifold topology with
  | Some (_, m') =>
      forall k i, pointToIndex m' !! k = Some i ->
        extractionKey dimension k
  | None => buildAsserts_int32 data dimension = false
  end.
Proof.
  intros Hno. rewrite (buildAsserts_int32_exact data dimension Hno).
  unfold Build. destruct (buildAsserts data dimension); [| reflexivity].
  rewrite BuildInternal_sweep.
  set (m0 := clearPointToIndex _).
  change (dims (mkMesher _ _ _ _)) with (dims m0).
  assert (Hfin :
    let st' := fold_left
      (fun st c => voxelBody iso topology (i3x c) (i3y c) (i3z c) st)
      (sweep (dims m0)) (mkMesh [] [], m0) in
    sameVolume m0 (snd st')
    /\ map_Forall (fun k _ => extractionKey (dims m0) k)
                  (pointToIndex (snd st'))).
  { apply (crossings_preserve iso topology
      (fun st => sameVolume m0 (snd st)
                 /\ map_Forall (fun k _ => extractionKey (dims m0) k)
                               (pointToIndex (snd st)))).
    - intros a c mesh m entering exiting Hc [Hs Hkeys] Hg Hstat Hx.
      cbn [fst snd] in Hs, Hkeys. pose proof Hs as (Hd & _).
      pose proof (crossing_requests a m iso c entering exiting
                    ltac:(rewrite Hd; exact Hc) Hg Hstat Hx) as Hreq.
      unfold ConstructFace.
      destruct (edgeCells a (i3x c) (i3y c) (i3z c)) as [[[c0 c1] c2] c3].
      destruct (edgeCodes a) as [[[e0 e1] e2] e3].
      destruct Hreq as (Q0 & Q1 & Q2 & Q3).
      apply (goodRequest_sameVolume m0 m) in Q0, Q1, Q2, Q3; try exact Hs.
      destruct (sharedIndices m iso (c0, c1, c2, c3) (e0, e1, e2, e3)
                  (vertices mesh)) as [[[[[i0 i1] i2] i3] vs] m'] eqn:E.
      cbn [fst snd].
      eapply (sharedIndices_preserves_where
                (fun _ m => sameVolume m0 m
                   /\ map_Forall (fun k _ => extractionKey (dims m0) k)
                                 (pointToIndex m))
                (goodRequest m0 iso) iso);
        [| exact Q0 | exact Q1 | exact Q2 | exact Q3 | exact E
         | split; assumption].
      intros m1 cell edge vs1 i vs1' m1' HQ Heq HP.
      eapply request_extractionKey; eassumption.
    - split; [apply sameVolume_refl | apply map_Forall_empty]. }
  cbv zeta in Hfin.
  destruct (fold_left _ (sweep (dims m0)) _) as [mesh m'].
  destruct Hfin as [_ Hkeys]. cbn [snd] in Hkeys.
  intros k i Hk. exact (Hkeys k i Hk).
Qed.
End CacheKeys.

(** ** Concrete runs of the further properties *)

Lemma gA_round_trip_witness :
  let m := mkMesher (mkInt3 4 3 4) (spikeVolume 48 13) false ∅ in
  let cell := mkInt3 1 0 1 in
  noOverflow (dims m)
  /\ gA_int32 m 1 0 1 = gAcell m cell
  /\ 0 <= gAcell m cell < 4 * 3 * 4
  /\ cellOfId (dims m) (gAcell m cell) = cell.
Proof.
  intros m cell.
  assert (Hno : noOverflow (dims m))
    by (unfold noOverflow; cbn [m dims i3x i3y i3z]; lia).
  split; [exact Hno |].
  exact (gA_round_trip m cell Hno ltac:(simpl; lia) ltac:(simpl; lia)
           ltac:(simpl; lia)).
Defined.

Lemma DualPointKeyHash_injective_witness :
  DualPointKeyHash (mkKey 13 265) = DualPointKeyHash (mkKey 1 2060)
  <-> keyEq (mkKey 13 265) (mkKey 1 2060) = true.
Proof.
  exact (DualPointKeyHash_injective (mkKey 13 265) (mkKey 1 2060)
           ltac:(simpl; lia) ltac:(simpl; lia) ltac:(simpl; lia)
           ltac:(simpl; lia)).
Defined.

Lemma GetCellCode_bits_witness :
  let m := mkMesher (mkInt3 4 4 4) code7Volume false ∅ in
  0 <= GetCellCode m (mkInt3 1 1 1) 1 < 2 ^ 8
  /\ Z.testbit (GetCellCode m (mkInt3 1 1 1) 1) 2
     = ge (sample m (1 + 0) (1 + 1) (1 + 0)) 1.
Proof.
  intros m.
  exact (GetCellCode_bits m (mkInt3 1 1 1) 1 2 ltac:(lia)).
Defined.

Lemma GetDualPointCode_sign_change_witness :
  let m := mkMesher (mkInt3 4 4 4) code7Volume false ∅ in
  let cell := mkInt3 1 1 1 in
  (GetDualPointCode m cell 1 (edgeCode 3) <> 0 <->
   ge (cornerSample m cell 0) 1 <> ge (cornerSample m cell 4) 1)
  /\ (GetDualPointCode m cell 1 (edgeCode 3) <> 0 ->
      Z.land (GetDualPointCode m cell 1 (edgeCode 3)) (edgeCode 3) <> 0).
Proof.
  intros m cell.
  exact (GetDualPointCode_sign_change m cell 1 3 ltac:(lia)).
Defined.

Lemma manifold_pairs_invert_together_witness :
  let m := mkMesher (mkInt3 3 2 2) ambiguousPairVolume true ∅ in
  GetCellCode m (mkInt3 0 0 0) 1 = 61
  /\ invertsCode m (mkInt3 0 0 0) 1 = true
  /\ problematicConfig (GetCellCode m (mkInt3 1 0 0) 1) = 0
  /\ invertsCode m (mkInt3 1 0 0) 1 = true.
Proof.
  intros m.
  assert (Hvalid : validCellOn (dims m) (mkInt3 0 0 0)
            (decodedAxis (problematicConfig (GetCellCode m (mkInt3 0 0 0) 1)))
          = true) by reflexivity.
  assert (Hinv : invertsCode m (mkInt3 0 0 0) 1 = true) by reflexivity.
  pose proof (manifold_pairs_invert_together m (mkInt3 0 0 0) 1 Hvalid Hinv)
    as (Hopp & _ & Hinv').
  split; [reflexivity | split; [exact Hinv | split]].
  - exact Hopp.
  - exact Hinv'.
Defined.

Lemma thin_volume_empty_mesh_witness :
  (3 <= 3 /\ 3 <= 3)
  /\ option_map fst
       (Build (newMesher 0) (spikeVolume 45 22) (mkInt3 3 3 5) 1 true Quads)
     = Some (mkMesh [] []).
Proof.
  split; [lia |].
  exact (thin_volume_empty_mesh (newMesher 0) (spikeVolume 45 22)
           (mkInt3 3 3 5) 1 true Quads
           ltac:(cbn [i3x i3y i3z]; lia)).
Defined.

Lemma Build_reads_span_witness :
  noOverflow (mkInt3 4 3 4)
  /\ sameSamples (spikeVolume 48 13) spikeVolume'
  /\ option_map fst
       (Build (newMesher 0) spikeVolume' (mkInt3 4 3 4) 1 false Quads)
     = option_map fst
         (Build (newMesher 0) (spikeVolume 48 13) (mkInt3 4 3 4) 1 false Quads).
Proof.
  assert (Hsame : sameSamples (spikeVolume 48 13) spikeVolume').
  { split; [reflexivity |].
    intros i Hi. change (span_size (spikeVolume 48 13)) with 48 in Hi.
    unfold spikeVolume', spikeVolume, span_of_list. cbn [span_at].
    apply nth_indep. rewrite length_map, length_seqZ. lia. }
  assert (Hno : noOverflow (mkInt3 4 3 4))
    by (unfold noOverflow; cbn [i3x i3y i3z]; lia).
  split; [exact Hno | split; [exact Hsame |]].
  exact (Build_reads_span (newMesher 0) (spikeVolume 48 13) spikeVolume'
           (mkInt3 4 3 4) 1 false Quads Hno Hsame).
Defined.

(** The four entries that a face names can hold one position: on the
    4x3x4 volume with the single sample 1 at (1,0,1), extracted at
    iso = 1, the mesh is one quad over four vertices, and all four lie
    at (1, 0, 1). *)
Lemma spike_face_one_position :
  option_map fst
    (Build (newMesher 0) (spikeVolume 48 13) (mkInt3 4 3 4) 1 false Quads)
  = Some (mkMesh (repeat (mkVertex (mkFloat3 F32.one F32.zero F32.one)) 4)
                 [0; 3; 2; 1]).
Proof.
  vm_compute. reflexivity.
Qed.

Lemma faces_have_distinct_indices_witness :
  noOverflow (mkInt3 4 3 4)
  /\ match Build (newMesher 0) (spikeVolume 48 13) (mkInt3 4 3 4) 1 false
             Quads with
     | Some (mesh, _) =>
         exists fs,
           indices mesh = flat_map (faceAt Quads) fs
           /\ Forall (properFace (length (vertices mesh))) fs
           /\ (Z.of_nat (length (vertices mesh)) <= 2 ^ 32 ->
               Forall (fun f =>
                 let '((p0, p1, p2, p3), _) := f in
                 NoDup [u32 (Z.of_nat p0); u32 (Z.of_nat p1);
                        u32 (Z.of_nat p2); u32 (Z.of_nat p3)]) fs)
     | None => buildAsserts_int32 (spikeVolume 48 13) (mkInt3 4 3 4) = false
     end.
Proof.
  assert (Hno : noOverflow (mkInt3 4 3 4))
    by (unfold noOverflow; cbn [i3x i3y i3z]; lia).
  split; [exact Hno |].
  exact (faces_have_distinct_indices (newMesher 0) (spikeVolume 48 13)
           (mkInt3 4 3 4) 1 false Quads Hno).
Defined.

Lemma cache_keys_well_formed_witness :
  noOverflow (mkInt3 4 3 4)
  /\ match Build (newMesher 0) (spikeVolume 48 13) (mkInt3 4 3 4) 1 false
             Quads with
     | Some (_, m') =>
         forall k i, pointToIndex m' !! k = Some i ->
           extractionKey (mkInt3 4 3 4) k
     | None => buildAsserts_int32 (spikeVolume 48 13) (mkInt3 4 3 4) = false
     end.
Proof.
  assert (Hno : noOverflow (mkInt3 4 3 4))
    by (unfold noOverflow; cbn [i3x i3y i3z]; lia).
  split; [exact Hno |].
  exact (cache_keys_well_formed (newMesher 0) (spikeVolume 48 13)
           (mkInt3 4 3 4) 1 false Quads Hno).
Defined.
